(** * Request-safety and presentation layer of the workflow documentation server

    A shallow embedding of the security helpers of [api_server.py]
    ([validate_filename], [check_rate_limit], the per-subdirectory file
    lookup of [get_workflow_detail] and [download_workflow]), of the
    classifier [determine_workflow_directory] and of the renderer
    [generate_mermaid_diagram], followed by the properties established
    for them.

    Python values are modelled as follows.
    - A [str] is the list of its Unicode code points ([list N]).
    - [time.time()] readings are binary64 floats, each held as the rational
      ([Q]) it denotes; their difference is rounded as the float subtraction
      rounds it.  The clock is an explicit argument.
    - [rate_limit_storage] (a [defaultdict(list)]) is a [gmap] read with
      default [[]].
    - A raised exception is an explicit error value ([None], or an
      [HTTPException] carrying its status code).
    - The file system is a record of the queries [pathlib] offers; nothing is
      assumed about what they answer. *)

From Stdlib Require Import ZArith NArith QArith Qround Qabs Qpower Lqa.
From Stdlib Require Import List Bool String Ascii Lia.
From stdpp Require Import gmap strings list fin_maps pretty.

Close Scope Q_scope.
Local Open Scope bool_scope.

(* ===================================================================== *)
(** * Part I: definitions *)
(* ===================================================================== *)

(** ** Python [str] *)

Abbreviation pystr := (list N).

(** A literal of ASCII characters, as a sequence of code points. *)
Fixpoint py (s : string) : pystr :=
  match s with
  | EmptyString => []
  | String a r => N_of_ascii a :: py r
  end.

Definition NUL : N := 0%N.
Definition LF : N := 10%N.
Definition CR : N := 13%N.

Module PyStr.

Definition eqb (s t : pystr) : bool := bool_decide (s = t).

(** [s.startswith(p)] *)
Fixpoint startswith (s p : pystr) {struct p} : bool :=
  match p, s with
  | [], _ => true
  | c :: p', d :: s' => (c =? d)%N && startswith s' p'
  | _ :: _, [] => false
  end.

(** [s.endswith(p)] *)
Definition endswith (s p : pystr) : bool := startswith (rev s) (rev p).

(** [p in s] *)
Fixpoint contains (p s : pystr) {struct s} : bool :=
  startswith s p ||
  match s with
  | [] => false
  | _ :: s' => contains p s'
  end.

(** [s.split(sep)[0]] for a one-character separator: the segment before
    its first occurrence, the whole string when there is none. *)
Fixpoint split_head (sep : N) (s : pystr) : pystr :=
  match s with
  | [] => []
  | c :: s' => if (c =? sep)%N then [] else c :: split_head sep s'
  end.

(** [s.split(sep)] for a one-character separator. *)
Fixpoint split (sep : N) (s : pystr) : list pystr :=
  match s with
  | [] => [[]]
  | c :: s' =>
      if (c =? sep)%N then [] :: split sep s'
      else match split sep s' with
           | seg :: segs => (c :: seg) :: segs
           | [] => [[c]]
           end
  end.

(** [s.replace(old, new)] for a non-empty [old]: every non-overlapping
    occurrence, leftmost first.  [drop] never lengthens its argument, so
    the scan is run with the length of [s] as its bound. *)
Fixpoint replace_from (fuel : nat) (old new s : pystr) : pystr :=
  match fuel with
  | O => s
  | S fuel' =>
      match s with
      | [] => []
      | c :: s' =>
          if startswith s old
          then new ++ replace_from fuel' old new (drop (length old) s)
          else c :: replace_from fuel' old new s'
      end
  end.

Definition replace (old new s : pystr) : pystr :=
  replace_from (length s) old new s.

(** ["\n".join(lines)] and its generalisation to any separator. *)
Fixpoint join (sep : pystr) (parts : list pystr) : pystr :=
  match parts with
  | [] => []
  | [p] => p
  | p :: rest => p ++ sep ++ join sep rest
  end.

(** ASCII case mapping; [str.lower] and [str.capitalize] agree with these
    on strings that hold ASCII characters only. *)
Definition ascii_lower_char (c : N) : N :=
  if (65 <=? c)%N && (c <=? 90)%N then (c + 32)%N else c.

Definition ascii_upper_char (c : N) : N :=
  if (97 <=? c)%N && (c <=? 122)%N then (c - 32)%N else c.

Definition ascii_lower (s : pystr) : pystr := map ascii_lower_char s.

Definition ascii_capitalize (s : pystr) : pystr :=
  match s with
  | [] => []
  | c :: r => ascii_upper_char c :: ascii_lower r
  end.

(** [str(i)] for a non-negative integer, as in an f-string. *)
Definition of_nat (i : nat) : pystr := py (pretty i).

End PyStr.

(** ** [urllib.parse.unquote(s, errors="strict")]

    The standard library's decoder, after CPython's [urllib/parse.py]: a
    string without ["%"] is returned as it is; otherwise every maximal run
    of ASCII characters is percent-decoded to bytes and those bytes are
    decoded as UTF-8, strictly, while the characters between the runs are
    kept.  An invalid UTF-8 sequence raises [UnicodeDecodeError]: [None]. *)

Module Urllib.

Definition PERCENT : N := 37%N.

(** Membership in [_hexdig = '0123456789ABCDEFabcdef']. *)
Definition is_hexdig (c : N) : bool :=
  ((48 <=? c) && (c <=? 57) || (65 <=? c) && (c <=? 70)
   || (97 <=? c) && (c <=? 102))%N.

Definition hexval (c : N) : N :=
  (if c <=? 57 then c - 48 else if c <=? 70 then c - 55 else c - 87)%N.

(** [_unquote_impl]: ["%XY"] with two hexadecimal digits becomes the byte
    [0xXY]; a ["%"] followed by anything else stays. *)
Fixpoint unquote_to_bytes (s : list N) : list N :=
  match s with
  | [] => []
  | c :: r =>
      if (c =? PERCENT)%N then
        match r with
        | h1 :: h2 :: r' =>
            if is_hexdig h1 && is_hexdig h2
            then (16 * hexval h1 + hexval h2)%N :: unquote_to_bytes r'
            else PERCENT :: unquote_to_bytes r
        | _ => PERCENT :: unquote_to_bytes r
        end
      else c :: unquote_to_bytes r
  end.

(** The characters that percent-decoding neither consumes nor alters:
    ASCII, not ["%"], not a hexadecimal digit. *)
Definition stable_char (c : N) : bool :=
  (c <? 128)%N && negb (c =? PERCENT)%N && negb (is_hexdig c).

(** A UTF-8 continuation byte. *)
Definition is_cont (b : N) : bool := ((128 <=? b) && (b <=? 191))%N.

(** The second byte of a three-byte sequence: no overlong form after
    [0xE0], no surrogate after [0xED]. *)
Definition second_of_3 (b0 b1 : N) : bool :=
  (if b0 =? 224 then (160 <=? b1) && (b1 <=? 191)
   else if b0 =? 237 then (128 <=? b1) && (b1 <=? 159)
   else is_cont b1)%N.

(** The second byte of a four-byte sequence: no overlong form after
    [0xF0], nothing above U+10FFFF after [0xF4]. *)
Definition second_of_4 (b0 b1 : N) : bool :=
  (if b0 =? 240 then (144 <=? b1) && (b1 <=? 191)
   else if b0 =? 244 then (128 <=? b1) && (b1 <=? 143)
   else is_cont b1)%N.

(** [bytes.decode("utf-8", "strict")] *)
Fixpoint utf8_decode (bs : list N) : option pystr :=
  match bs with
  | [] => Some []
  | b0 :: r0 =>
      if (b0 <? 128)%N then cons b0 <$> utf8_decode r0
      else if ((194 <=? b0) && (b0 <=? 223))%N then
        match r0 with
        | b1 :: r1 =>
            if is_cont b1
            then cons ((b0 - 192) * 64 + (b1 - 128))%N <$> utf8_decode r1
            else None
        | _ => None
        end
      else if ((224 <=? b0) && (b0 <=? 239))%N then
        match r0 with
        | b1 :: b2 :: r2 =>
            if second_of_3 b0 b1 && is_cont b2
            then cons ((b0 - 224) * 4096 + (b1 - 128) * 64 + (b2 - 128))%N
                   <$> utf8_decode r2
            else None
        | _ => None
        end
      else if ((240 <=? b0) && (b0 <=? 244))%N then
        match r0 with
        | b1 :: b2 :: b3 :: r3 =>
            if second_of_4 b0 b1 && is_cont b2 && is_cont b3
            then cons ((b0 - 240) * 262144 + (b1 - 128) * 4096
                       + (b2 - 128) * 64 + (b3 - 128))%N
                   <$> utf8_decode r3
            else None
        | _ => None
        end
      else None
  end.

(** One ASCII run: [_unquote_impl(run).decode("utf-8", "strict")]. *)
Definition decode_run (run : list N) : option pystr :=
  utf8_decode (unquote_to_bytes run).

(** [_generate_unquoted_parts]: [run] is the ASCII run read so far. *)
Fixpoint unquote_parts (run s : pystr) : option pystr :=
  match s with
  | [] => decode_run run
  | c :: s' =>
      if (c <? 128)%N then unquote_parts (run ++ [c]) s'
      else
        match decode_run run, unquote_parts [] s' with
        | Some r, Some t => Some (r ++ c :: t)
        | _, _ => None
        end
  end.

(** ['%' in s] *)
Definition has_percent (s : pystr) : bool := existsb (N.eqb PERCENT) s.

Definition all_ascii (s : pystr) : bool := forallb (fun c => (c <? 128)%N) s.

Definition unquote (s : pystr) : option pystr :=
  if has_percent s then unquote_parts [] s else Some s.

End Urllib.

(** ** [re.match] for the patterns of the source *)

Module Re.

Inductive regex : Type :=
| Void : regex
| Eps : regex
| Class : (N -> bool) -> regex
| Cat : regex -> regex -> regex
| Alt : regex -> regex -> regex
| Star : regex -> regex.

(** [r+] *)
Definition Plus (r : regex) : regex := Cat r (Star r).

(** A literal string. *)
Fixpoint Lit (s : pystr) : regex :=
  match s with
  | [] => Eps
  | c :: s' => Cat (Class (N.eqb c)) (Lit s')
  end.

(** A final [$] outside [re.MULTILINE]: the end of the string, or the
    position before a newline that ends the string. *)
Definition Dollar : regex := Alt Eps (Class (N.eqb LF)).

Fixpoint nullable (r : regex) : bool :=
  match r with
  | Void => false
  | Eps => true
  | Class _ => false
  | Cat r1 r2 => nullable r1 && nullable r2
  | Alt r1 r2 => nullable r1 || nullable r2
  | Star _ => true
  end.

Fixpoint deriv (c : N) (r : regex) : regex :=
  match r with
  | Void => Void
  | Eps => Void
  | Class f => if f c then Eps else Void
  | Cat r1 r2 =>
      if nullable r1
      then Alt (Cat (deriv c r1) r2) (deriv c r2)
      else Cat (deriv c r1) r2
  | Alt r1 r2 => Alt (deriv c r1) (deriv c r2)
  | Star r1 => Cat (deriv c r1) (Star r1)
  end.

(** The whole of [s] is in the language of [r]. *)
Fixpoint matches (r : regex) (s : pystr) : bool :=
  match s with
  | [] => nullable r
  | c :: s' => matches (deriv c r) s'
  end.

(** The language of a regular expression. *)
Inductive lang : regex -> pystr -> Prop :=
| lang_eps : lang Eps []
| lang_class f c : f c = true -> lang (Class f) [c]
| lang_cat r1 r2 s1 s2 : lang r1 s1 -> lang r2 s2 -> lang (Cat r1 r2) (s1 ++ s2)
| lang_alt_l r1 r2 s : lang r1 s -> lang (Alt r1 r2) s
| lang_alt_r r1 r2 s : lang r2 s -> lang (Alt r1 r2) s
| lang_star_nil r : lang (Star r) []
| lang_star_cons r s1 s2 :
    lang r s1 -> lang (Star r) s2 -> lang (Star r) (s1 ++ s2).

End Re.

(** ** [validate_filename] *)

Definition dangerous_patterns : list pystr :=
  [ py "..";
    py "..\";
    py "../";
    py "\";
    py "/";
    [NUL];
    [LF];
    [CR];
    py "~";
    py ":";
    py "|";
    py "<";
    py ">";
    py "*";
    py "?";
    py "$";
    py ";";
    py "&" ].

(** The character class [[a-zA-Z0-9_\-]]. *)
Definition safe_char (c : N) : bool :=
  ((97 <=? c) && (c <=? 122) || (65 <=? c) && (c <=? 90)
   || (48 <=? c) && (c <=? 57) || (c =? 95) || (c =? 45))%N.

(** The pattern [^[a-zA-Z0-9_\-]+\.json$]; [re.match] anchors it at the
    start of the string. *)
Definition filename_re : Re.regex :=
  Re.Cat (Re.Plus (Re.Class safe_char)) (Re.Cat (Re.Lit (py ".json")) Re.Dollar).

(** A pattern whose first character is outside the class. *)
Definition starts_unsafe (p : pystr) : bool :=
  match p with
  | [] => false
  | c :: _ => negb (safe_char c)
  end.

(** One or more characters of [[A-Za-z0-9_-]] followed by [".json"], and
    nothing else. *)
Definition safe_json_name (d : pystr) : Prop :=
  exists body, body <> [] /\ forallb safe_char body = true /\ d = body ++ py ".json".

(** The loop [for _ in range(3): decoded = unquote(decoded)]; [None] when a
    pass raises. *)
Fixpoint decode_passes (n : nat) (decoded : pystr) : option pystr :=
  match n with
  | O => Some decoded
  | S n' =>
      match Urllib.unquote decoded with
      | Some d => decode_passes n' d
      | None => None
      end
  end.

Definition validate_filename (filename : pystr) : bool :=
  match decode_passes 3 filename with
  | None => false
  | Some decoded =>
      if existsb (fun pattern => PyStr.contains pattern decoded) dangerous_patterns
      then false
      else if PyStr.startswith decoded (py "/") || PyStr.startswith decoded (py "\")
      then false
      else if (2 <=? length decoded)%nat
              && bool_decide (decoded !! 1%nat = Some 58%N)
      then false
      else if negb (Re.matches filename_re decoded)
      then false
      else if negb (PyStr.endswith decoded (py ".json"))
      then false
      else true
  end.

(** *** Percent-decoding as the specification words it

    "Percent-decode the candidate": every ["%XY"], [X] and [Y] hexadecimal
    digits, stands for the character of code [0xXY]; any other character
    stands for itself.  Written without [urllib]: no bytes, no UTF-8, no
    decoding error. *)

(** The value of a hexadecimal digit, of either case. *)
Definition spec_hex_digit (c : N) : option N :=
  (if (48 <=? c) && (c <=? 57) then Some (c - 48)
   else if (65 <=? c) && (c <=? 70) then Some (c - 55)
   else if (97 <=? c) && (c <=? 102) then Some (c - 87)
   else None)%N.

Fixpoint spec_percent_decode (s : pystr) : pystr :=
  match s with
  | [] => []
  | c :: r =>
      match r with
      | x :: y :: r' =>
          match (if (c =? 37)%N then spec_hex_digit x else None),
                spec_hex_digit y with
          | Some hi, Some lo => (16 * hi + lo)%N :: spec_percent_decode r'
          | _, _ => c :: spec_percent_decode r
          end
      | _ => c :: spec_percent_decode r
      end
  end.

(** The fully decoded form: three rounds of percent-decoding. *)
Definition spec_fully_decoded (s : pystr) : pystr :=
  spec_percent_decode (spec_percent_decode (spec_percent_decode s)).

(** ** Binary64 floats

    [time.time()] returns a binary64 float, and so is every timestamp on
    record.  A finite float is held as the rational it denotes.  The one
    operation of the source on timestamps, the subtraction, yields the float
    nearest to the exact difference, the one with the even significand of
    two that are equally near.  Gradual underflow is accounted for; beyond
    the largest float the rounded value stands for the infinity of its
    sign, which compares with 60 as that value does. *)

Module Float64.

(** The binade of a non-zero rational: the [e] with [2^e <= |x| < 2^(e+1)]. *)
Definition binade (x : Q) : Z :=
  let k := (Z.log2 (Z.abs (Qnum x)) - Z.log2 (Zpos (Qden x)))%Z in
  if Qle_bool (2 ^ k) (Qabs x) then k else (k - 1)%Z.

(** The nearest integer, the even one of two that are equally near. *)
Definition round_half_even (y : Q) : Z :=
  let f := Qfloor y in
  match (y - inject_Z f ?= 1 # 2)%Q with
  | Lt => f
  | Gt => (f + 1)%Z
  | Eq => if Z.even f then f else (f + 1)%Z
  end.

(** The spacing of the floats around [x]: 53 significant bits in the binade
    of [x], and [2^-1074] below [2^-1022]. *)
Definition quantum (x : Q) : Q := 2 ^ (Z.max (binade x) (-1022) - 52).

(** The float nearest to [x], ties to even. *)
Definition round64 (x : Q) : Q :=
  if Qeq_bool x 0 then 0
  else inject_Z (round_half_even (x / quantum x)) * quantum x.

(** [a - b] on floats. *)
Definition sub (a b : Q) : Q := round64 (a - b).

End Float64.

(** ** [check_rate_limit] *)

Definition MAX_REQUESTS_PER_MINUTE : nat := 60.

(** The filter of the comprehension: [current_time - timestamp < 60], a
    float subtraction followed by an exact comparison with the integer. *)
Definition within_window (current_time timestamp : Q) : bool :=
  if Qlt_le_dec (Float64.sub current_time timestamp) 60 then true else false.

(** [rate_limit_storage[client_ip]] on a [defaultdict(list)]. *)
Definition record_of (rate_limit_storage : gmap pystr (list Q)) (client_ip : pystr)
  : list Q :=
  default [] (rate_limit_storage !! client_ip).

(** [check_rate_limit], with the reading of the clock and the module's
    constant as arguments, and the storage passed in and out. *)
Definition check_rate_limit_at (limit : nat) (current_time : Q)
    (rate_limit_storage : gmap pystr (list Q)) (client_ip : pystr)
  : bool * gmap pystr (list Q) :=
  let kept :=
    List.filter (within_window current_time) (record_of rate_limit_storage client_ip) in
  let rate_limit_storage := <[client_ip := kept]> rate_limit_storage in
  if (limit <=? length (record_of rate_limit_storage client_ip))%nat
  then (false, rate_limit_storage)
  else (true,
        <[client_ip := record_of rate_limit_storage client_ip ++ [current_time]]>
          rate_limit_storage).

Definition check_rate_limit := check_rate_limit_at MAX_REQUESTS_PER_MINUTE.

(** Consecutive calls, each with its key and its reading of the clock. *)
Fixpoint run_checks (limit : nat) (calls : list (pystr * Q))
    (rate_limit_storage : gmap pystr (list Q))
  : list bool * gmap pystr (list Q) :=
  match calls with
  | [] => ([], rate_limit_storage)
  | (client_ip, current_time) :: rest =>
      let '(allowed, storage) :=
        check_rate_limit_at limit current_time rate_limit_storage client_ip in
      let '(answers, final) := run_checks limit rest storage in
      (allowed :: answers, final)
  end.

(** ** [pathlib] and the file system *)

Module Pathlib.

Definition SLASH : N := 47%N.

(** A POSIX path: whether it is anchored at the root, and its components. *)
Record Path : Type := mkPath { is_absolute : bool; parts : list pystr }.

#[export] Instance Path_eq_dec : EqDecision Path.
Proof. solve_decision. Defined.

(** The components of a string: split at ["/"], empty and ["."] segments
    dropped, [".."] kept. *)
Definition parse_parts (s : pystr) : list pystr :=
  List.filter (fun seg => negb (PyStr.eqb seg []) && negb (PyStr.eqb seg (py ".")))
    (PyStr.split SLASH s).

(** [Path(s)] *)
Definition of_str (s : pystr) : Path :=
  mkPath (PyStr.startswith s [SLASH]) (parse_parts s).

(** [p / s]: an absolute right operand replaces the left one. *)
Definition joinpath (p : Path) (s : pystr) : Path :=
  if PyStr.startswith s [SLASH] then of_str s
  else mkPath (is_absolute p) (parts p ++ parse_parts s).

(** An entry [name] of the directory [p], as [iterdir] yields it. *)
Definition child (p : Path) (name : pystr) : Path :=
  mkPath (is_absolute p) (parts p ++ [name]).

(** [other] is [p] or an ancestor of [p]. *)
Definition is_relative_to (p other : Path) : bool :=
  bool_decide (is_absolute p = is_absolute other)
  && bool_decide (take (length (parts other)) (parts p) = parts other).

(** [p.relative_to(other)]; [None] is [ValueError]. *)
Definition relative_to (p other : Path) : option Path :=
  if is_relative_to p other
  then Some (mkPath false (drop (length (parts other)) (parts p)))
  else None.

(** What the calls of [pathlib] answer in one state of the file system.
    [resolve] follows symbolic links and makes the path absolute;
    [exists] and [is_file] follow symbolic links too.  [listdir] is [None]
    when the directory cannot be listed ([OSError]). *)
Record FileSystem : Type := mkFS {
  resolve : Path -> Path;
  listdir : Path -> option (list pystr);
  is_dir : Path -> bool;
  exists_ : Path -> bool;
  is_file : Path -> bool
}.

Definition iterdir (fs : FileSystem) (p : Path) : option (list Path) :=
  map (child p) <$> listdir fs p.

End Pathlib.

Import Pathlib.

(** What a handler hands back: a value, or a raised [HTTPException]. *)
Inductive response (A : Type) : Type :=
| Return (a : A)
| HTTPException (status_code : Z).
Arguments Return {A} a.
Arguments HTTPException {A} status_code.

(** The loop of [get_workflow_detail] over the subdirectories: the first
    candidate that passes the containment check ends it ([break]); one that
    fails the check is skipped ([continue]). *)
Fixpoint find_matching_file (fs : FileSystem) (workflows_path : Path)
    (filename : pystr) (subdirs : list Path) : option Path :=
  match subdirs with
  | [] => None
  | subdir :: rest =>
      if is_dir fs subdir then
        let target_file := joinpath subdir filename in
        if exists_ fs target_file && is_file fs target_file then
          match relative_to (resolve fs target_file) workflows_path with
          | Some _ => Some target_file
          | None => find_matching_file fs workflows_path filename rest
          end
        else find_matching_file fs workflows_path filename rest
      else find_matching_file fs workflows_path filename rest
  end.

(** The file lookup of [get_workflow_detail], from
    [workflows_path = Path("workflows").resolve()] to the file it opens. *)
Definition get_workflow_detail_lookup (fs : FileSystem) (filename : pystr)
  : response Path :=
  let workflows_path := resolve fs (of_str (py "workflows")) in
  match iterdir fs workflows_path with
  | None => HTTPException 500
  | Some subdirs =>
      match find_matching_file fs workflows_path filename subdirs with
      | None => HTTPException 404
      | Some matching_file => Return matching_file
      end
  end.

(** The loop of [download_workflow]: every candidate that passes the
    containment check is appended to [json_files]. *)
Fixpoint collect_json_files (fs : FileSystem) (workflows_path : Path)
    (filename : pystr) (subdirs : list Path) : list Path :=
  match subdirs with
  | [] => []
  | subdir :: rest =>
      if is_dir fs subdir then
        let target_file := joinpath subdir filename in
        if exists_ fs target_file && is_file fs target_file then
          match relative_to (resolve fs target_file) workflows_path with
          | Some _ => target_file :: collect_json_files fs workflows_path filename rest
          | None => collect_json_files fs workflows_path filename rest
          end
        else collect_json_files fs workflows_path filename rest
      else collect_json_files fs workflows_path filename rest
  end.

(** The file lookup of [download_workflow], up to the file it serves. *)
Definition download_workflow_lookup (fs : FileSystem) (filename : pystr)
  : response Path :=
  let workflows_path := resolve fs (of_str (py "workflows")) in
  match iterdir fs workflows_path with
  | None => HTTPException 500
  | Some subdirs =>
      match collect_json_files fs workflows_path filename subdirs with
      | [] => HTTPException 404
      | file_path :: _ =>
          match relative_to (resolve fs file_path) workflows_path with
          | Some _ => Return file_path
          | None => HTTPException 403
          end
      end
  end.

(** A subdirectory whose candidate [subdir / filename] is a regular file
    that resolves to a path under [workflows_path]. *)
Definition contained_candidate (fs : FileSystem) (workflows_path : Path)
    (filename : pystr) (subdir : Path) : bool :=
  is_dir fs subdir
  && (exists_ fs (joinpath subdir filename) && is_file fs (joinpath subdir filename))
  && is_relative_to (resolve fs (joinpath subdir filename)) workflows_path.

(** A subdirectory whose candidate is a regular file that resolves to a path
    outside [workflows_path]. *)
Definition escaping_candidate (fs : FileSystem) (workflows_path : Path)
    (filename : pystr) (subdir : Path) : bool :=
  is_dir fs subdir
  && (exists_ fs (joinpath subdir filename) && is_file fs (joinpath subdir filename))
  && negb (is_relative_to (resolve fs (joinpath subdir filename)) workflows_path).

(** A storage root [/srv/workflows] with the subdirectories [Evil] and
    [Slack], listed in this order.  [Evil/x.json] is a symbolic link to
    [/etc/x.json]; [Slack/x.json] is a regular file. *)
Module PlantedLink.

Definition root : Path := mkPath true [py "srv"; py "workflows"].
Definition evil : Path := child root (py "Evil").
Definition slack : Path := child root (py "Slack").
Definition evil_file : Path := child evil (py "x.json").
Definition slack_file : Path := child slack (py "x.json").
Definition outside : Path := mkPath true [py "etc"; py "x.json"].

Definition fs : FileSystem :=
  {| resolve p :=
       if bool_decide (p = of_str (py "workflows")) then root
       else if bool_decide (p = evil_file) then outside
       else p;
     listdir p :=
       if bool_decide (p = root) then Some [py "Evil"; py "Slack"] else None;
     is_dir p := bool_decide (p = root \/ p = evil \/ p = slack);
     exists_ p :=
       bool_decide (p = root \/ p = evil \/ p = slack
                    \/ p = evil_file \/ p = slack_file \/ p = outside);
     is_file p :=
       bool_decide (p = evil_file \/ p = slack_file \/ p = outside) |}.

(** The same storage root without [Slack]. *)
Definition fs_evil_only : FileSystem :=
  {| resolve := resolve fs;
     listdir p := if bool_decide (p = root) then Some [py "Evil"] else None;
     is_dir p := bool_decide (p = root \/ p = evil);
     exists_ p :=
       bool_decide (p = root \/ p = evil \/ p = evil_file \/ p = outside);
     is_file p := bool_decide (p = evil_file \/ p = outside) |}.

End PlantedLink.

(** ** Workflow documents *)

(** A node of a workflow: a dict whose ["type"] and ["name"] entries, when
    present, are strings.  [None] is an absent key. *)
Record Node : Type := mkNode {
  node_type_field : option pystr;
  node_name_field : option pystr
}.

(** A parsed JSON value. *)
#[warnings="-register-all"]
Inductive json : Type :=
| JNull : json
| JBool : bool -> json
| JNum : Z -> json
| JStr : pystr -> json
| JList : list json -> json
| JDict : list (pystr * json) -> json.

(** [d[key]] on the items of a dict; [None] when [key not in d]. *)
Fixpoint dict_get {A : Type} (d : list (pystr * A)) (key : pystr) : option A :=
  match d with
  | [] => None
  | (k, v) :: rest => if PyStr.eqb k key then Some v else dict_get rest key
  end.

(** ** [determine_workflow_directory] *)

(** The items of [service_mappings], in the order the dict literal gives. *)
Definition service_mappings : list (pystr * pystr) :=
  [ (py "telegram", py "Telegram");
    (py "discord", py "Discord");
    (py "slack", py "Slack");
    (py "gmail", py "Gmail");
    (py "googlesheets", py "Googlesheets");
    (py "googledrive", py "Googledrive");
    (py "webhook", py "Webhook");
    (py "http", py "Http");
    (py "schedule", py "Schedule");
    (py "cron", py "Cron");
    (py "postgres", py "Postgres");
    (py "mysql", py "Mysqltool");
    (py "mongodb", py "Mongodbtool");
    (py "airtable", py "Airtable");
    (py "github", py "Github");
    (py "gitlab", py "Gitlab");
    (py "jira", py "Jira");
    (py "openai", py "Openai");
    (py "notion", py "Notion");
    (py "shopify", py "Shopify");
    (py "stripe", py "Stripe");
    (py "twitter", py "Twitter");
    (py "linkedin", py "Linkedin");
    (py "facebook", py "Facebook");
    (py "instagram", py "Instagram");
    (py "whatsapp", py "Whatsapp");
    (py "trello", py "Trello");
    (py "asana", py "Asana");
    (py "mondaycom", py "Mondaycom");
    (py "dropbox", py "Dropbox");
    (py "onedrive", py "Microsoftonedrive");
    (py "outlook", py "Microsoftoutlook");
    (py "calendly", py "Calendly");
    (py "typeform", py "Typeform");
    (py "youtube", py "Youtube");
    (py "wordpress", py "Wordpress");
    (py "woocommerce", py "Woocommerce") ].

Definition VENDOR_PREFIX : pystr := py "n8n-nodes-base.".
Definition DOT : N := 46%N.

(** [not primary_service]: unset, or the empty string. *)
Definition falsy (primary_service : option pystr) : bool :=
  match primary_service with
  | None => true
  | Some s => PyStr.eqb s []
  end.

(** [primary_service == label] *)
Definition is_label (primary_service : option pystr) (label : pystr) : bool :=
  match primary_service with
  | None => false
  | Some s => PyStr.eqb s label
  end.

(** [primary_service in ["Manual", "Webhook", "Schedule"]] *)
Definition is_generic (primary_service : option pystr) : bool :=
  is_label primary_service (py "Manual")
  || is_label primary_service (py "Webhook")
  || is_label primary_service (py "Schedule").

Section Classifier.

(** [str.lower] and [str.capitalize], which follow the Unicode character
    database. *)
Variable lower : pystr -> pystr.
Variable capitalize : pystr -> pystr.

(** The inner loop over [service_mappings.items()]; it ends ([break]) at
    the first key that is found and whose label is taken. *)
Fixpoint scan_mappings (items : list (pystr * pystr)) (node_type node_name : pystr)
    (primary_service : option pystr) : option pystr :=
  match items with
  | [] => primary_service
  | (key, directory) :: rest =>
      if PyStr.contains key node_type || PyStr.contains key node_name then
        if falsy primary_service || is_generic primary_service
        then Some directory
        else scan_mappings rest node_type node_name primary_service
      else scan_mappings rest node_type node_name primary_service
  end.

(** The body of the loop over the nodes, up to its final test. *)
Definition visit_node (primary_service : option pystr) (node : Node)
  : option pystr :=
  let node_type := lower (default [] (node_type_field node)) in
  let node_name := lower (default [] (node_name_field node)) in
  let primary_service :=
    if PyStr.contains (py "webhook") node_type
       || PyStr.contains (py "webhook") node_name
    then
      if falsy primary_service || is_label primary_service (py "Manual")
      then Some (py "Webhook") else primary_service
    else primary_service in
  let primary_service :=
    if PyStr.contains (py "cron") node_type
       || PyStr.contains (py "schedule") node_type
    then
      if falsy primary_service || is_label primary_service (py "Manual")
      then Some (py "Schedule") else primary_service
    else primary_service in
  scan_mappings service_mappings node_type node_name primary_service.

(** The loop over the nodes, left ([break]) as soon as [primary_service]
    is set to a label outside ["Manual"], ["Webhook"], ["Schedule"];
    [body] is what one iteration does before that test. *)
Fixpoint for_nodes (body : option pystr -> Node -> option pystr)
    (primary_service : option pystr) (nodes : list Node) : option pystr :=
  match nodes with
  | [] => primary_service
  | node :: rest =>
      let primary_service := body primary_service node in
      if negb (falsy primary_service) && negb (is_generic primary_service)
      then primary_service
      else for_nodes body primary_service rest
  end.

Definition scan_nodes : option pystr -> list Node -> option pystr :=
  for_nodes visit_node.

(** The label taken from the first node's type. *)
Definition label_of_first_type (first_node_type : pystr) : pystr :=
  if PyStr.contains VENDOR_PREFIX first_node_type
  then capitalize (PyStr.split_head DOT (PyStr.replace VENDOR_PREFIX [] first_node_type))
  else py "Manual".

Definition determine_workflow_directory (nodes : list Node) : pystr :=
  match nodes with
  | [] => py "Manual"
  | first_node :: _ =>
      let primary_service := scan_nodes None nodes in
      if falsy primary_service || is_label primary_service (py "Manual")
      then label_of_first_type (default [] (node_type_field first_node))
      else default [] primary_service
  end.

End Classifier.

(** The label of the first key of [items] found in the type or in the name. *)
Fixpoint first_mapping (items : list (pystr * pystr)) (node_type node_name : pystr)
  : option pystr :=
  match items with
  | [] => None
  | (key, directory) :: rest =>
      if PyStr.contains key node_type || PyStr.contains key node_name
      then Some directory
      else first_mapping rest node_type node_name
  end.

(** [key in items], for the items of a dict. *)
Definition has_key (key : pystr) (items : list (pystr * pystr)) : bool :=
  existsb (fun item => PyStr.eqb item.1 key) items.

(** [primary_service] is set to a label outside the three placeholders. *)
Definition is_specific (primary_service : option pystr) : bool :=
  negb (falsy primary_service) && negb (is_generic primary_service).

(** *** The classifier as the specification words it

    Each node makes one proposal: ["Webhook"] when its lowercase type or
    name contains ["webhook"]; otherwise ["Schedule"] when it contains
    ["cron"] or ["schedule"]; otherwise the label of the first keyword of the
    table found in it.  A proposal replaces [best] when [best] is unset or
    one of the three placeholders, and the scan stops once [best] is a
    specific label. *)

Section ClassifierAsSpecified.

Variable lower : pystr -> pystr.

Definition spec_proposal (node : Node) : option pystr :=
  let node_type := lower (default [] (node_type_field node)) in
  let node_name := lower (default [] (node_name_field node)) in
  if PyStr.contains (py "webhook") node_type
     || PyStr.contains (py "webhook") node_name
  then Some (py "Webhook")
  else if PyStr.contains (py "cron") node_type
          || PyStr.contains (py "cron") node_name
          || PyStr.contains (py "schedule") node_type
          || PyStr.contains (py "schedule") node_name
  then Some (py "Schedule")
  else first_mapping service_mappings node_type node_name.

Definition spec_visit_node (best : option pystr) (node : Node) : option pystr :=
  match spec_proposal node with
  | Some label => if falsy best || is_generic best then Some label else best
  | None => best
  end.

Definition spec_scan_nodes : option pystr -> list Node -> option pystr :=
  for_nodes spec_visit_node.

End ClassifierAsSpecified.

(** The label of a type as the specification words it: a leading vendor
    prefix stripped, the segment before the next ["."] taken, its first
    letter capitalized. *)
Definition spec_label_of_type (node_type : pystr) : pystr :=
  let stripped :=
    if PyStr.startswith node_type VENDOR_PREFIX
    then drop (length VENDOR_PREFIX) node_type
    else node_type in
  match PyStr.split_head DOT stripped with
  | [] => []
  | c :: r => PyStr.ascii_upper_char c :: r
  end.

(** Nodes of the examples. *)
Definition cron_node : Node :=
  mkNode (Some (py "n8n-nodes-base.cron")) (Some (py "Every morning")).

Definition plain_node : Node := mkNode (Some (py "foo")) (Some (py "Start")).

Definition item_lists_node : Node :=
  mkNode (Some (py "n8n-nodes-base.itemLists")) (Some (py "Start")).

(** ** [generate_mermaid_diagram] *)

Definition DQUOTE : N := 34%N.
Definition SQUOTE : N := 39%N.

(** The text returned for a workflow without nodes. *)
Definition EMPTY_DIAGRAM : pystr :=
  py "graph TD" ++ [LF] ++ py "  EmptyWorkflow[No nodes found in workflow]".

(** The first loop: [mermaid_ids[node_name] = f"node{i}"], a later node
    overwriting an earlier one of the same name. *)
Fixpoint assign_ids (i : nat) (nodes : list Node) (mermaid_ids : gmap pystr pystr)
  : gmap pystr pystr :=
  match nodes with
  | [] => mermaid_ids
  | node :: rest =>
      let node_id := py "node" ++ PyStr.of_nat i in
      let node_name := default (py "Node " ++ PyStr.of_nat i) (node_name_field node) in
      assign_ids (S i) rest (<[node_name := node_id]> mermaid_ids)
  end.

Section Diagram.

Variable lower : pystr -> pystr.

Definition any_in (keywords : list pystr) (s : pystr) : bool :=
  existsb (fun x => PyStr.contains x s) keywords.

Definition node_style (node_type : pystr) : pystr :=
  if any_in [py "trigger"; py "webhook"; py "cron"] (lower node_type)
  then py "fill:#b3e0ff,stroke:#0066cc"
  else if any_in [py "if"; py "switch"] (lower node_type)
  then py "fill:#ffffb3,stroke:#e6e600"
  else if any_in [py "function"; py "code"] (lower node_type)
  then py "fill:#d9b3ff,stroke:#6600cc"
  else if PyStr.contains (py "error") (lower node_type)
  then py "fill:#ffb3b3,stroke:#cc0000"
  else py "fill:#d9d9d9,stroke:#666666".

(** The second loop: two lines per node.  [mermaid_ids[node_name]] raises
    [KeyError] for a name that is not a key: [None]. *)
Fixpoint node_lines (mermaid_ids : gmap pystr pystr) (nodes : list Node)
  : option (list pystr) :=
  match nodes with
  | [] => Some []
  | node :: rest =>
      let node_name := default (py "Unnamed") (node_name_field node) in
      match mermaid_ids !! node_name with
      | None => None
      | Some node_id =>
          let node_type :=
            PyStr.replace VENDOR_PREFIX [] (default [] (node_type_field node)) in
          let style := node_style node_type in
          let clean_name := PyStr.replace [DQUOTE] [SQUOTE] node_name in
          let clean_type := PyStr.replace [DQUOTE] [SQUOTE] node_type in
          let label := clean_name ++ py "<br>(" ++ clean_type ++ py ")" in
          match node_lines mermaid_ids rest with
          | None => None
          | Some lines =>
              Some ((py "  " ++ node_id ++ py "[" ++ [DQUOTE] ++ label
                       ++ [DQUOTE] ++ py "]")
                    :: (py "  style " ++ node_id ++ py " " ++ style)
                    :: lines)
          end
      end
  end.

(** The innermost loop, over the entries of one output port.  A target
    that is a list or a dict cannot be looked up in [mermaid_ids]
    ([TypeError]): [None]. *)
Fixpoint port_lines (mermaid_ids : gmap pystr pystr) (source_id label : pystr)
    (output_connections : list json) : option (list pystr) :=
  match output_connections with
  | [] => Some []
  | connection :: rest =>
      let here : option (list pystr) :=
        match connection with
        | JDict d =>
            match dict_get d (py "node") with
            | Some (JStr target_name) =>
                match mermaid_ids !! target_name with
                | Some target_id => Some [py "  " ++ source_id ++ label ++ target_id]
                | None => Some []
                end
            | Some (JList _) | Some (JDict _) => None
            | _ => Some []
            end
        | _ => Some []
        end in
      match here, port_lines mermaid_ids source_id label rest with
      | Some l1, Some l2 => Some (l1 ++ l2)
      | _, _ => None
      end
  end.

(** The loop over [enumerate(main_connections)]; [many] is
    [len(main_connections) > 1]. *)
Fixpoint main_lines (mermaid_ids : gmap pystr pystr) (source_id : pystr)
    (many : bool) (i : nat) (main_connections : list json) : option (list pystr) :=
  match main_connections with
  | [] => Some []
  | output_connections :: rest =>
      let label :=
        if many then py " -->|" ++ PyStr.of_nat i ++ py "| " else py " --> " in
      let here :=
        match output_connections with
        | JList l => port_lines mermaid_ids source_id label l
        | _ => Some []
        end in
      match here, main_lines mermaid_ids source_id many (S i) rest with
      | Some l1, Some l2 => Some (l1 ++ l2)
      | _, _ => None
      end
  end.

(** The loop over [connections.items()].  A ["main"] entry that is a
    string or a dict is iterated without any of its elements being a
    list; one that cannot be iterated raises [TypeError]: [None]. *)
Fixpoint connection_lines (mermaid_ids : gmap pystr pystr)
    (connections : list (pystr * json)) : option (list pystr) :=
  match connections with
  | [] => Some []
  | (source_name, source_connections) :: rest =>
      let here : option (list pystr) :=
        match mermaid_ids !! source_name with
        | None => Some []
        | Some source_id =>
            match source_connections with
            | JDict d =>
                match dict_get d (py "main") with
                | None => Some []
                | Some (JList main_connections) =>
                    main_lines mermaid_ids source_id
                      (1 <? length main_connections)%nat 0 main_connections
                | Some (JStr _) | Some (JDict _) => Some []
                | Some _ => None
                end
            | _ => Some []
            end
        end in
      match here, connection_lines mermaid_ids rest with
      | Some l1, Some l2 => Some (l1 ++ l2)
      | _, _ => None
      end
  end.

Definition generate_mermaid_diagram (nodes : list Node)
    (connections : list (pystr * json)) : option pystr :=
  match nodes with
  | [] => Some EMPTY_DIAGRAM
  | _ :: _ =>
      let mermaid_ids := assign_ids 0 nodes ∅ in
      match node_lines mermaid_ids nodes with
      | None => None
      | Some declarations =>
          match connection_lines mermaid_ids connections with
          | None => None
          | Some edges =>
              Some (PyStr.join [LF] ([py "graph TD"] ++ declarations ++ edges))
          end
      end
  end.

End Diagram.

(** The number of lines of a text: one more than its line feeds. *)
Definition line_count (s : pystr) : nat := length (PyStr.split LF s).

(* ===================================================================== *)
(** * Part I, continued: the rest of the code *)
(* ===================================================================== *)

(** ** Runs of [check_rate_limit] *)

(** The timestamps of the calls for [client_ip] that were answered [True],
    in the order of the calls. *)
Fixpoint granted_times (client_ip : pystr) (calls : list (pystr * Q))
    (answers : list bool) : list Q :=
  match calls, answers with
  | (k, t) :: calls', a :: answers' =>
      if a && PyStr.eqb k client_ip
      then t :: granted_times client_ip calls' answers'
      else granted_times client_ip calls' answers'
  | _, _ => []
  end.

(** The answers given to the calls for [client_ip]. *)
Fixpoint answers_for (client_ip : pystr) (calls : list (pystr * Q))
    (answers : list bool) : list bool :=
  match calls, answers with
  | (k, _) :: calls', a :: answers' =>
      if PyStr.eqb k client_ip
      then a :: answers_for client_ip calls' answers'
      else answers_for client_ip calls' answers'
  | _, _ => []
  end.

(** The calls for [client_ip]. *)
Definition calls_of (client_ip : pystr) (calls : list (pystr * Q))
  : list (pystr * Q) :=
  List.filter (fun call => PyStr.eqb call.1 client_ip) calls.

(** The clock read by consecutive calls never runs backwards, and starts
    no earlier than [start]. *)
Fixpoint clock_from (start : Q) (calls : list (pystr * Q)) : Prop :=
  match calls with
  | [] => True
  | (_, t) :: calls' => (start <= t)%Q /\ clock_from t calls'
  end.

(** [ts] lies in the window of [width] seconds that ends at [stop], the end
    included and the start excluded. *)
Definition in_window (width stop ts : Q) : bool :=
  (if Qlt_le_dec (stop - width) ts then true else false)
  && (if Qlt_le_dec stop ts then false else true).

(** Two readings of the clock less than 60 seconds apart whose float
    difference is [60.0]. *)
Definition edge_calls : list (pystr * Q) :=
  [(py "10.0.0.1", (1 # 2 ^ 60)%Q); (py "10.0.0.1", 60%Q)].

(** ** The handlers of the file endpoints, up to the file they use

    [get_workflow_detail], [download_workflow], [get_workflow_diagram] and
    [delete_workflow] from the validation of the name to the file that is
    opened, served or unlinked.  The clock, the rate-limit storage and the
    answers of the workflow database are explicit. *)

(** What the handlers ask of [WorkflowDatabase]; [None] is a raised
    exception. *)
Record Database : Type := mkDB {
  (** [db.search_workflows(f'filename:"{filename}"', limit=1)] found a row *)
  db_has_filename : pystr -> option bool;
  (** [db.delete_workflow(filename)] *)
  db_delete_workflow : pystr -> option bool
}.

(** [request.client.host if request.client else "unknown"] *)
Definition client_ip_of (client : option pystr) : pystr :=
  default (py "unknown") client.

(** The file lookup of [get_workflow_diagram]. *)
Definition get_workflow_diagram_lookup (fs : FileSystem) (filename : pystr)
  : response Path :=
  let workflows_path := resolve fs (of_str (py "workflows")) in
  match iterdir fs workflows_path with
  | None => HTTPException 500
  | Some subdirs =>
      match find_matching_file fs workflows_path filename subdirs with
      | None => HTTPException 404
      | Some matching_file => Return matching_file
      end
  end.

Section Handlers.

Variable fs : FileSystem.
Variable db : Database.

(** [get_workflow_detail]: the file it opens. *)
Definition get_workflow_detail_file (current_time : Q)
    (rate_limit_storage : gmap pystr (list Q)) (client : option pystr)
    (filename : pystr) : response Path * gmap pystr (list Q) :=
  if negb (validate_filename filename)
  then (HTTPException 400, rate_limit_storage)
  else
    let '(allowed, rate_limit_storage) :=
      check_rate_limit current_time rate_limit_storage (client_ip_of client) in
    if negb allowed then (HTTPException 429, rate_limit_storage)
    else
      match db_has_filename db filename with
      | None => (HTTPException 500, rate_limit_storage)
      | Some false => (HTTPException 404, rate_limit_storage)
      | Some true => (get_workflow_detail_lookup fs filename, rate_limit_storage)
      end.

(** [download_workflow]: the file it serves. *)
Definition download_workflow_file (current_time : Q)
    (rate_limit_storage : gmap pystr (list Q)) (client : option pystr)
    (filename : pystr) : response Path * gmap pystr (list Q) :=
  if negb (validate_filename filename)
  then (HTTPException 400, rate_limit_storage)
  else
    let '(allowed, rate_limit_storage) :=
      check_rate_limit current_time rate_limit_storage (client_ip_of client) in
    if negb allowed then (HTTPException 429, rate_limit_storage)
    else (download_workflow_lookup fs filename, rate_limit_storage).

(** [get_workflow_diagram]: the file it opens. *)
Definition get_workflow_diagram_file (current_time : Q)
    (rate_limit_storage : gmap pystr (list Q)) (client : option pystr)
    (filename : pystr) : response Path * gmap pystr (list Q) :=
  if negb (validate_filename filename)
  then (HTTPException 400, rate_limit_storage)
  else
    let '(allowed, rate_limit_storage) :=
      check_rate_limit current_time rate_limit_storage (client_ip_of client) in
    if negb allowed then (HTTPException 429, rate_limit_storage)
    else (get_workflow_diagram_lookup fs filename, rate_limit_storage).

(** [delete_workflow]: the file it unlinks, [None] when it finds none; the
    row of the database is deleted before the file is. *)
Definition delete_workflow_file (current_time : Q)
    (rate_limit_storage : gmap pystr (list Q)) (client : option pystr)
    (filename : pystr) : response (option Path) * gmap pystr (list Q) :=
  if negb (validate_filename filename)
  then (HTTPException 400, rate_limit_storage)
  else
    let '(allowed, rate_limit_storage) :=
      check_rate_limit current_time rate_limit_storage (client_ip_of client) in
    if negb allowed then (HTTPException 429, rate_limit_storage)
    else
      match db_has_filename db filename with
      | None => (HTTPException 500, rate_limit_storage)
      | Some false => (HTTPException 404, rate_limit_storage)
      | Some true =>
          let workflows_path := resolve fs (of_str (py "workflows")) in
          match iterdir fs workflows_path with
          | None => (HTTPException 500, rate_limit_storage)
          | Some subdirs =>
              let matching_file :=
                find_matching_file fs workflows_path filename subdirs in
              match db_delete_workflow db filename with
              | Some true => (Return matching_file, rate_limit_storage)
              | _ => (HTTPException 500, rate_limit_storage)
              end
          end
      end.

End Handlers.

(** A database that knows every name and deletes every row. *)
Definition agreeable_db : Database :=
  {| db_has_filename _ := Some true; db_delete_workflow _ := Some true |}.

(** ** More of [generate_mermaid_diagram] *)

(** The key under which the first loop files the node of index [i]. *)
Definition node_key (i : nat) (node : Node) : pystr :=
  default (py "Node " ++ PyStr.of_nat i) (node_name_field node).

(** [f"node{i}"] *)
Definition node_id (i : nat) : pystr := py "node" ++ PyStr.of_nat i.

(** The declaration of a node: its identifier, then its label between
    double quotes and square brackets. *)
Definition declaration_line (node_id label : pystr) : pystr :=
  py "  " ++ node_id ++ py "[" ++ [DQUOTE] ++ label ++ [DQUOTE] ++ py "]".

(** The connections whose source is a key of [mermaid_ids]. *)
Definition known_sources (mermaid_ids : gmap pystr pystr)
    (connections : list (pystr * json)) : list (pystr * json) :=
  List.filter (fun item => bool_decide (is_Some (mermaid_ids !! item.1))) connections.

(** Nodes of the examples. *)
Definition node_a : Node := mkNode (Some (py "webhook")) (Some (py "A")).
Definition node_b : Node := mkNode (Some (py "httpRequest")) (Some (py "B")).
Definition node_a_again : Node := mkNode (Some (py "slack")) (Some (py "A")).
Definition nameless_node : Node := mkNode (Some (py "if")) None.

(** [s.replace(a, b)] for single characters, character by character. *)
Definition replace_char (a b : N) (s : pystr) : pystr :=
  map (fun c => if (a =? c)%N then b else c) s.

(** The label of a node's declaration: its name and its type, every double
    quote replaced by a single one. *)
Definition declaration_label (node : Node) : pystr :=
  replace_char DQUOTE SQUOTE (default (py "Unnamed") (node_name_field node))
  ++ py "<br>("
  ++ replace_char DQUOTE SQUOTE
       (PyStr.replace VENDOR_PREFIX [] (default [] (node_type_field node)))
  ++ py ")".

(** The style command of a node. *)
Definition style_line (lower : pystr -> pystr) (node_id : pystr) (node : Node)
  : pystr :=
  py "  style " ++ node_id ++ py " "
  ++ node_style lower
       (PyStr.replace VENDOR_PREFIX [] (default [] (node_type_field node))).

(** The two entries that the second loop appends for a node whose name is
    a key of [mermaid_ids]. *)
Definition node_entries (lower : pystr -> pystr) (mermaid_ids : gmap pystr pystr)
    (node : Node) : list pystr :=
  let node_id :=
    default [] (mermaid_ids !! default (py "Unnamed") (node_name_field node)) in
  [declaration_line node_id (declaration_label node); style_line lower node_id node].

(** [c] is a line feed or a double quote: a character that none of the
    fixed parts of a diagram holds. *)
Definition special (c : N) : Prop := c = LF \/ c = DQUOTE.

(** The number of double quotes in a text. *)
Definition quote_count (s : pystr) : nat := count_occ N.eq_dec s DQUOTE.

(** A node with double quotes in its name and in its type, and a
    connection from it to [node_b]. *)
Definition quoted_node : Node :=
  mkNode (Some (py "n8n-nodes-base.we" ++ [DQUOTE] ++ py "bhook"))
    (Some (py "say " ++ [DQUOTE] ++ py "hi" ++ [DQUOTE])).

Definition quoted_connections : list (pystr * json) :=
  [(py "say " ++ [DQUOTE] ++ py "hi" ++ [DQUOTE],
    JDict [(py "main", JList [JList [JDict [(py "node", JStr (py "B"))]]])])].

(** A node whose name holds a line feed. *)
Definition two_line_node : Node :=
  mkNode (Some (py "webhook")) (Some (py "A" ++ [LF] ++ py "B")).

(** The diagram of [quoted_node] and [node_b]. *)
Definition quoted_diagram : pystr :=
  PyStr.join [LF]
    [py "graph TD";
     py "  node0[" ++ [DQUOTE] ++ py "say 'hi'<br>(we'bhook)" ++ [DQUOTE] ++ py "]";
     py "  style node0 fill:#d9d9d9,stroke:#666666";
     py "  node1[" ++ [DQUOTE] ++ py "B<br>(httpRequest)" ++ [DQUOTE] ++ py "]";
     py "  style node1 fill:#d9d9d9,stroke:#666666";
     py "  node0 --> node1"].


(** ** The classifier in closed form *)

Section ClassifierClosedForm.

Variable lower : pystr -> pystr.

(** The label the table gives to a node. *)
Definition node_mapping (node : Node) : option pystr :=
  first_mapping service_mappings
    (lower (default [] (node_type_field node)))
    (lower (default [] (node_name_field node))).

(** The label of the first node to which the table gives a specific label,
    or else of the last node to which it gives any. *)
Definition decisive_mapping (nodes : list Node) : option pystr :=
  match List.find (fun node => is_specific (node_mapping node)) nodes with
  | Some node => node_mapping node
  | None => last (omap node_mapping nodes)
  end.

End ClassifierClosedForm.

(** The labels of the table. *)
Definition mapping_labels : list pystr := map snd service_mappings.

(** ** [save_workflow_file] *)

(** The ["id"] entry of a workflow: absent, a string or an integer. *)
Inductive WorkflowId : Type :=
| NoId : WorkflowId
| StrId : pystr -> WorkflowId
| IntId : Z -> WorkflowId.

(** The entries of [workflow_data] that [save_workflow_file] reads. *)
Record WorkflowData : Type := mkWorkflow {
  wf_nodes : list Node;
  wf_name : option pystr;
  wf_id : WorkflowId
}.

(** [bool(workflow_id)], with [""] for an absent entry. *)
Definition id_truthy (workflow_id : WorkflowId) : bool :=
  match workflow_id with
  | NoId => false
  | StrId s => negb (PyStr.eqb s [])
  | IntId z => negb (z =? 0)%Z
  end.

(** [str(workflow_id)] *)
Definition id_text (workflow_id : WorkflowId) : pystr :=
  match workflow_id with
  | NoId => []
  | StrId s => s
  | IntId z => py (pretty z)
  end.

Definition DASH : N := 45%N.
Definition UNDERSCORE : N := 95%N.

(** [\w] on ASCII characters: letters, digits and the underscore. *)
Definition ascii_word (c : N) : bool :=
  ((97 <=? c) && (c <=? 122) || (65 <=? c) && (c <=? 90)
   || (48 <=? c) && (c <=? 57) || (c =? 95))%N.

(** [\s] on ASCII characters. *)
Definition ascii_space (c : N) : bool :=
  ((9 <=? c) && (c <=? 13) || (28 <=? c) && (c <=? 32))%N.

Section SaveWorkflow.

(** [str.lower], [str.capitalize], and the classes [\w] and [\s] of a
    pattern on [str], which follow the Unicode character database. *)
Variable lower : pystr -> pystr.
Variable capitalize : pystr -> pystr.
Variable is_word : N -> bool.
Variable is_space : N -> bool.

(** [s.strip()] *)
Fixpoint lstrip (s : pystr) : pystr :=
  match s with
  | [] => []
  | c :: s' => if is_space c then lstrip s' else s
  end.

Definition strip (s : pystr) : pystr := rev (lstrip (rev (lstrip s))).

(** [re.sub(r'[^\w\s-]', '', s)] *)
Definition drop_symbols (s : pystr) : pystr :=
  List.filter (fun c => is_word c || is_space c || (c =? DASH)%N) s.

(** [re.sub(r'[-\s]+', '_', s)]; [in_run] tells that the previous character
    was part of the run being replaced. *)
Fixpoint collapse_runs (in_run : bool) (s : pystr) : pystr :=
  match s with
  | [] => []
  | c :: s' =>
      if (c =? DASH)%N || is_space c
      then if in_run then collapse_runs true s'
           else UNDERSCORE :: collapse_runs true s'
      else c :: collapse_runs false s'
  end.

(** [re.sub(r'[^\w\-_.]', '_', filename)] *)
Definition sanitize (filename : pystr) : pystr :=
  map (fun c =>
         if is_word c || (c =? DASH)%N || (c =? UNDERSCORE)%N || (c =? DOT)%N
         then c else UNDERSCORE) filename.

(** The name made up when none is provided; [timestamp] is
    [datetime.now().strftime("%Y%m%d_%H%M%S")]. *)
Definition generated_filename (timestamp : pystr) (workflow_data : WorkflowData)
  : pystr :=
  let workflow_name := default (py "workflow") (wf_name workflow_data) in
  let workflow_id := wf_id workflow_data in
  let clean_name := strip (drop_symbols workflow_name) in
  let clean_name := collapse_runs false clean_name in
  if id_truthy workflow_id
  then id_text workflow_id ++ py "_" ++ clean_name ++ py ".json"
  else timestamp ++ py "_" ++ clean_name ++ py ".json".

(** From "Ensure .json extension" to the name the file is written under. *)
Definition final_filename (filename : pystr) : pystr :=
  let filename :=
    if negb (PyStr.endswith filename (py ".json"))
    then filename ++ py ".json" else filename in
  if negb (validate_filename filename)
  then
    let filename := sanitize filename in
    if negb (PyStr.endswith filename (py ".json"))
    then filename ++ py ".json" else filename
  else filename.

(** [save_workflow_file]: the path written and the name returned. *)
Definition save_workflow_file (timestamp : pystr) (workflow_data : WorkflowData)
    (filename : option pystr) : Path * pystr :=
  let workflows_dir := of_str (py "workflows") in
  let subdirectory :=
    determine_workflow_directory lower capitalize (wf_nodes workflow_data) in
  let subdir_path := joinpath workflows_dir subdirectory in
  let filename :=
    match filename with
    | Some provided =>
        if PyStr.eqb provided [] then generated_filename timestamp workflow_data
        else provided
    | None => generated_filename timestamp workflow_data
    end in
  let filename := final_filename filename in
  (joinpath subdir_path filename, filename).

End SaveWorkflow.

(** A workflow whose first node has a type that leads out of the storage
    root. *)
Definition escaping_workflow : WorkflowData :=
  mkWorkflow [mkNode (Some (py "n8n-nodes-base./tmp")) (Some (py "Start"))]
    (Some (py "Report")) (IntId 7).

(** ** [submit_purchase_request] *)

(** [except Exception as e: raise HTTPException(status_code=500, ...)] around
    a body: [HTTPException] is an [Exception], so whatever the body raises
    leaves as a 500. *)
Definition except_exception_500 {A : Type} (body : response A) : response A :=
  match body with
  | Return a => Return a
  | HTTPException _ => HTTPException 500
  end.

Section PurchaseRequest.

(** [str.strip], which follows the Unicode character database. *)
Variable str_strip : pystr -> pystr.

(** [data.get(key, "").strip()]; [None] when the entry is not a string
    ([AttributeError]). *)
Definition stripped_entry (data : list (pystr * json)) (key : pystr)
  : option pystr :=
  match dict_get data key with
  | None => Some (str_strip [])
  | Some (JStr s) => Some (str_strip s)
  | Some _ => None
  end.

(** The body of the [try] of [submit_purchase_request]; [body] is what
    [await request.json()] gives, [None] when it raises.  A raised exception
    that is not an [HTTPException] is given the status 500 that the handler
    turns it into. *)
Definition purchase_request_body (body : option json) : response (pystr * json) :=
  match body with
  | Some (JDict data) =>
      match stripped_entry data (py "email") with
      | None => HTTPException 500
      | Some email =>
          match stripped_entry data (py "description") with
          | None => HTTPException 500
          | Some description =>
              if PyStr.eqb email [] || PyStr.eqb description []
              then HTTPException 400
              else Return (email,
                           default (JStr []) (dict_get data (py "workflowName")))
          end
      end
  | _ => HTTPException 500
  end.

(** [submit_purchase_request]: the email and the workflow name of its
    answer. *)
Definition submit_purchase_request (body : option json) : response (pystr * json) :=
  except_exception_500 (purchase_request_body body).

End PurchaseRequest.

(** ** [reindex_workflows] *)

(** The handler up to [background_tasks.add_task]; [expected_token] is
    [os.environ.get("ADMIN_TOKEN")]. *)
Definition reindex_workflows (current_time : Q)
    (rate_limit_storage : gmap pystr (list Q)) (client : option pystr)
    (expected_token admin_token : option pystr)
  : response pystr * gmap pystr (list Q) :=
  let client_ip := client_ip_of client in
  let '(allowed, rate_limit_storage) :=
    check_rate_limit current_time rate_limit_storage client_ip in
  if negb allowed then (HTTPException 429, rate_limit_storage)
  else if falsy expected_token then (HTTPException 503, rate_limit_storage)
  else if negb (bool_decide (admin_token = expected_token))
  then (HTTPException 401, rate_limit_storage)
  else (Return client_ip, rate_limit_storage).

(** ** Pagination of [search_workflows] *)

(** [offset = (page - 1) * per_page] *)
Definition page_offset (page per_page : Z) : Z := ((page - 1) * per_page)%Z.

(** [pages = (total + per_page - 1) // per_page] *)
Definition page_count (total per_page : Z) : Z :=
  ((total + per_page - 1) `div` per_page)%Z.

(** ** Category mappings *)

(** An item of [search_categories.json]: its ["filename"] and ["category"]
    entries, [None] when absent or [null]. *)
Record CategoryItem : Type := mkItem {
  item_filename : option pystr;
  item_category : option pystr
}.

(** The loop of [get_category_mappings]. *)
Fixpoint category_mappings_from (mappings : gmap pystr pystr)
    (search_data : list CategoryItem) : gmap pystr pystr :=
  match search_data with
  | [] => mappings
  | item :: rest =>
      let filename := item_filename item in
      let category :=
        if falsy (item_category item) then py "Uncategorized"
        else default [] (item_category item) in
      if falsy filename then category_mappings_from mappings rest
      else category_mappings_from (<[default [] filename := category]> mappings) rest
  end.

Definition get_category_mappings (search_data : list CategoryItem)
  : gmap pystr pystr :=
  category_mappings_from ∅ search_data.

(** The comprehension of [delete_workflow]:
    [[item for item in categories if item.get("filename") != filename]]. *)
Definition remove_category_entries (filename : pystr)
    (categories : list CategoryItem) : list CategoryItem :=
  List.filter (fun item => negb (bool_decide (item_filename item = Some filename)))
    categories.


(* ===================================================================== *)
(** * Part II: properties *)
(* ===================================================================== *)

(** ** Strings *)

Lemma startswith_iff (s p : pystr) :
  PyStr.startswith s p = true <-> exists r, s = p ++ r.
Proof.
  revert s. induction p as [|c p IH]; intros s; simpl.
  - split; [intros _; by exists s | done].
  - destruct s as [|d s].
    + split; [done | intros [r Hr]; discriminate].
    + rewrite andb_true_iff, N.eqb_eq, IH. split.
      * intros [-> [r ->]]. by exists r.
      * intros [r Hr]. injection Hr as -> ->. eauto.
Qed.

Lemma contains_iff (p s : pystr) :
  PyStr.contains p s = true <-> exists a b, s = a ++ p ++ b.
Proof.
  induction s as [|d s IH].
  - simpl. rewrite orb_false_r, startswith_iff. split.
    + intros [r Hr]. by exists [], r.
    + intros (a & b & Hab). destruct a as [|x a]; [by exists b | discriminate].
  - cbn [PyStr.contains]. rewrite orb_true_iff, startswith_iff, IH. split.
    + intros [[r Hr] | (a & b & ->)].
      * by exists [], r.
      * by exists (d :: a), b.
    + intros (a & b & Hab). destruct a as [|x a].
      * left. by exists b.
      * right. injection Hab as -> ->. by exists a, b.
Qed.

Lemma contains_false_iff (p s : pystr) :
  PyStr.contains p s = false <-> ~ exists a b, s = a ++ p ++ b.
Proof. rewrite <- contains_iff. by destruct (PyStr.contains p s). Qed.

(** A pattern with a character that the string lacks does not occur in it. *)
Lemma contains_foreign (p s : pystr) (c : N) :
  c ∈ p -> c ∉ s -> PyStr.contains p s = false.
Proof.
  intros Hp Hs. apply contains_false_iff. intros (a & b & ->).
  apply Hs. set_solver.
Qed.

Lemma endswith_iff (s p : pystr) :
  PyStr.endswith s p = true <-> exists r, s = r ++ p.
Proof.
  unfold PyStr.endswith. rewrite startswith_iff. split.
  - intros [r Hr]. exists (rev r).
    rewrite <- (rev_involutive s), Hr, rev_app_distr. by rewrite rev_involutive.
  - intros [r ->]. exists (rev r). apply rev_app_distr.
Qed.

Lemma eqb_iff (s t : pystr) : PyStr.eqb s t = true <-> s = t.
Proof. unfold PyStr.eqb. apply bool_decide_eq_true. Qed.

(** ** Percent-decoding *)

Import Urllib.

Lemma stable_char_spec (c : N) :
  stable_char c = true ->
  (c <? 128)%N = true /\ (c =? PERCENT)%N = false /\ is_hexdig c = false
  /\ is_cont c = false.
Proof.
  unfold stable_char, is_cont. rewrite !andb_true_iff, !negb_true_iff.
  intros [[H1 H2] H3]. repeat split; try done.
  apply N.ltb_lt in H1. apply andb_false_iff. left. apply N.leb_gt. lia.
Qed.

(** A stable character cuts percent-decoding in two. *)
Lemma unquote_to_bytes_app (a b : list N) (c : N) :
  stable_char c = true ->
  unquote_to_bytes (a ++ c :: b) = unquote_to_bytes a ++ c :: unquote_to_bytes b.
Proof.
  intros Hc. destruct (stable_char_spec c Hc) as (_ & Hp & Hh & _).
  assert (Hnil : forall b, unquote_to_bytes (c :: b) = c :: unquote_to_bytes b).
  { intros b'. simpl. by rewrite Hp. }
  remember (length a) as n eqn:Hn.
  revert a Hn. induction n as [n IH] using lt_wf_ind. intros a Hn.
  assert (Hat : forall a', (length a' < n)%nat ->
            unquote_to_bytes (a' ++ c :: b)
            = unquote_to_bytes a' ++ c :: unquote_to_bytes b).
  { intros a' Hlt. by apply (IH (length a') Hlt). }
  destruct a as [|x a]; [apply Hnil|]. simpl in Hn.
  cbn [app unquote_to_bytes]. destruct (x =? PERCENT)%N.
  - destruct a as [|h1 [|h2 a]]; cbn [app].
    + rewrite Hnil, Hh. by destruct b.
    + rewrite Hh, andb_false_r.
      change (h1 :: c :: b) with ([h1] ++ c :: b).
      rewrite Hat by (simpl in *; lia). done.
    + destruct (is_hexdig h1 && is_hexdig h2).
      * rewrite Hat by (simpl in *; lia). done.
      * change (h1 :: h2 :: a ++ c :: b) with ((h1 :: h2 :: a) ++ c :: b).
        rewrite Hat by (simpl in *; lia). done.
  - rewrite Hat by lia. done.
Qed.

(** An ASCII byte cuts UTF-8 decoding in two. *)
Lemma utf8_decode_app (x y : list N) (c : N) (d : pystr) :
  (c <? 128)%N = true ->
  utf8_decode (x ++ c :: y) = Some d ->
  exists x' y', utf8_decode x = Some x' /\ utf8_decode y = Some y'
                /\ d = x' ++ c :: y'.
Proof.
  intros Hc.
  assert (Hcont : is_cont c = false).
  { unfold is_cont. apply N.ltb_lt in Hc. apply andb_false_iff. left.
    apply N.leb_gt. lia. }
  assert (Hlow : forall lo hi, (128 <=? lo)%N = true ->
            ((lo <=? c) && (c <=? hi))%N = false).
  { intros lo hi Hlo. apply N.ltb_lt in Hc. apply N.leb_le in Hlo.
    apply andb_false_iff. left. apply N.leb_gt. lia. }
  assert (Hs3 : forall b0, second_of_3 b0 c = false).
  { intros b0. unfold second_of_3.
    destruct (b0 =? 224)%N; [by apply Hlow|].
    destruct (b0 =? 237)%N; [by apply Hlow | done]. }
  assert (Hs4 : forall b0, second_of_4 b0 c = false).
  { intros b0. unfold second_of_4.
    destruct (b0 =? 240)%N; [by apply Hlow|].
    destruct (b0 =? 244)%N; [by apply Hlow | done]. }
  remember (length x) as n eqn:Hn.
  revert x d Hn. induction n as [n IH] using lt_wf_ind. intros x d Hn.
  assert (Hrec : forall (k : N) x0 d0, (length x0 < n)%nat ->
            cons k <$> utf8_decode (x0 ++ c :: y) = Some d0 ->
            exists x' y', cons k <$> utf8_decode x0 = Some x'
                          /\ utf8_decode y = Some y' /\ d0 = x' ++ c :: y').
  { intros k x0 d0 Hlt H0.
    destruct (utf8_decode (x0 ++ c :: y)) as [t|] eqn:Ht; [|discriminate].
    injection H0 as <-.
    destruct (IH (length x0) Hlt x0 t eq_refl Ht) as (x' & y' & -> & Hy & ->).
    by exists (k :: x'), y'. }
  destruct x as [|b0 x]; cbn [app utf8_decode].
  - rewrite Hc. intros H0.
    destruct (utf8_decode y) as [t|]; [|discriminate].
    injection H0 as <-. by exists [], t.
  - simpl in Hn.
    destruct (b0 <? 128)%N; [apply Hrec; lia|].
    destruct ((194 <=? b0) && (b0 <=? 223))%N.
    { destruct x as [|b1 x]; cbn [app].
      - by rewrite Hcont.
      - destruct (is_cont b1); [apply Hrec; simpl in *; lia | done]. }
    destruct ((224 <=? b0) && (b0 <=? 239))%N.
    { destruct x as [|b1 [|b2 x]]; cbn [app].
      - rewrite Hs3. by destruct y.
      - by rewrite Hcont, andb_false_r.
      - destruct (second_of_3 b0 b1 && is_cont b2);
          [apply Hrec; simpl in *; lia | done]. }
    destruct ((240 <=? b0) && (b0 <=? 244))%N; [|done].
    destruct x as [|b1 [|b2 [|b3 x]]]; cbn [app].
    + rewrite Hs4. by destruct y as [|? [|? ?]].
    + rewrite Hcont, andb_false_r. by destruct y.
    + by rewrite Hcont, andb_false_r.
    + destruct (second_of_4 b0 b1 && is_cont b2 && is_cont b3);
        [apply Hrec; simpl in *; lia | done].
Qed.

Lemma decode_run_app (a b : list N) (c : N) (d : pystr) :
  stable_char c = true ->
  decode_run (a ++ c :: b) = Some d ->
  exists a' b', decode_run a = Some a' /\ decode_run b = Some b'
                /\ d = a' ++ c :: b'.
Proof.
  intros Hc. unfold decode_run. rewrite unquote_to_bytes_app by done.
  apply utf8_decode_app. by destruct (stable_char_spec c Hc).
Qed.

Lemma unquote_parts_run (run acc s : pystr) (c : N) (d : pystr) :
  stable_char c = true ->
  unquote_parts (run ++ c :: acc) s = Some d ->
  exists r t, decode_run run = Some r /\ unquote_parts acc s = Some t
              /\ d = r ++ c :: t.
Proof.
  intros Hc. revert acc d. induction s as [|e s IH]; intros acc d; simpl.
  - apply decode_run_app, Hc.
  - destruct (e <? 128)%N.
    + rewrite <- app_assoc. apply IH.
    + destruct (decode_run (run ++ c :: acc)) as [r|] eqn:Hr; [|done].
      destruct (unquote_parts [] s) as [t|]; [|done].
      intros [= <-].
      destruct (decode_run_app _ _ _ _ Hc Hr) as (r' & a' & -> & -> & ->).
      exists r', (a' ++ e :: t). by rewrite <- app_assoc.
Qed.

Lemma unquote_parts_app (run a b : pystr) (c : N) (d : pystr) :
  stable_char c = true ->
  unquote_parts run (a ++ c :: b) = Some d ->
  exists a' b', unquote_parts run a = Some a' /\ unquote_parts [] b = Some b'
                /\ d = a' ++ c :: b'.
Proof.
  intros Hc. destruct (stable_char_spec c Hc) as (Hlt & _).
  revert run d. induction a as [|e a IH]; intros run d; cbn [app unquote_parts].
  - rewrite Hlt. intros H.
    destruct (unquote_parts_run run [] b c d Hc H) as (r & t & Hr & Ht & ->).
    by exists r, t.
  - destruct (e <? 128)%N; [apply IH|].
    destruct (decode_run run) as [r|]; [|done].
    destruct (unquote_parts [] (a ++ c :: b)) as [t|] eqn:Ht; [|done].
    intros [= <-]. destruct (IH [] t Ht) as (a' & b' & -> & -> & ->).
    exists (r ++ e :: a'), b'. by rewrite <- app_assoc.
Qed.

Lemma unquote_to_bytes_plain (s : pystr) :
  has_percent s = false -> unquote_to_bytes s = s.
Proof.
  induction s as [|c s IH]; [done|]. unfold has_percent in *.
  cbn [existsb unquote_to_bytes]. rewrite orb_false_iff, N.eqb_sym.
  intros [-> Hs]. by rewrite IH.
Qed.

Lemma utf8_decode_ascii (s : pystr) :
  all_ascii s = true -> utf8_decode s = Some s.
Proof.
  induction s as [|c s IH]; [done|]. unfold all_ascii in *.
  cbn [forallb utf8_decode]. rewrite andb_true_iff.
  intros [-> Hs]. by rewrite IH.
Qed.

Lemma unquote_parts_plain (run s : pystr) :
  all_ascii run = true -> has_percent run = false -> has_percent s = false ->
  unquote_parts run s = Some (run ++ s).
Proof.
  revert run. induction s as [|c s IH]; intros run Ha Hr Hs.
  - simpl. unfold decode_run. rewrite unquote_to_bytes_plain by done.
    rewrite app_nil_r. by apply utf8_decode_ascii.
  - unfold has_percent in Hs. cbn [existsb] in Hs.
    apply orb_false_iff in Hs as [Hc Hs].
    cbn [unquote_parts]. destruct (c <? 128)%N eqn:Hlt.
    + rewrite IH, <- app_assoc; try done.
      * unfold all_ascii in *. rewrite forallb_app, Ha.
        cbn [forallb]. by rewrite Hlt.
      * unfold has_percent in *. rewrite existsb_app, Hr.
        cbn [existsb]. by rewrite Hc.
    + unfold decode_run. rewrite unquote_to_bytes_plain by done.
      rewrite utf8_decode_ascii by done. by rewrite (IH []).
Qed.

(** The shortcut taken for a string without ["%"] changes no result. *)
Lemma unquote_unfold (s : pystr) : unquote s = unquote_parts [] s.
Proof.
  unfold unquote.
  destruct (has_percent s) eqn:Hs; [done|].
  by rewrite unquote_parts_plain.
Qed.

Lemma unquote_app (a b : pystr) (c : N) (d : pystr) :
  stable_char c = true ->
  unquote (a ++ c :: b) = Some d ->
  exists a' b', unquote a = Some a' /\ unquote b = Some b' /\ d = a' ++ c :: b'.
Proof. rewrite !unquote_unfold. apply unquote_parts_app. Qed.

Lemma unquote_stable_prefix (p b t : pystr) :
  forallb stable_char p = true ->
  unquote (p ++ b) = Some t -> exists b', t = p ++ b'.
Proof.
  revert t. induction p as [|c p IH]; intros t Hp H; [by exists t|].
  simpl in Hp. apply andb_true_iff in Hp as [Hc Hp].
  destruct (unquote_app [] (p ++ b) c t Hc H) as (x & y & Hx & Hy & ->).
  injection Hx as <-. destruct (IH y Hp Hy) as [b' ->]. by exists b'.
Qed.

(** One pass of decoding keeps every occurrence of a pattern of stable
    characters. *)
Lemma unquote_keeps (p s d : pystr) :
  forallb stable_char p = true ->
  PyStr.contains p s = true -> unquote s = Some d -> PyStr.contains p d = true.
Proof.
  intros Hp Hs Hd. apply contains_iff in Hs as (a & b & ->). apply contains_iff.
  destruct p as [|c p]; [by exists [], d|].
  simpl in Hp. apply andb_true_iff in Hp as [Hc Hp].
  destruct (unquote_app a (p ++ b) c d Hc Hd) as (a' & y & _ & Hy & ->).
  destruct (unquote_stable_prefix p b y Hp Hy) as [b' ->]. by exists a', b'.
Qed.

Lemma decode_passes_keeps (n : nat) (p s d : pystr) :
  forallb stable_char p = true ->
  PyStr.contains p s = true -> decode_passes n s = Some d ->
  PyStr.contains p d = true.
Proof.
  intros Hp. revert s. induction n as [|n IH]; intros s Hs; simpl.
  - by intros [= <-].
  - destruct (unquote s) as [t|] eqn:Ht; [|done].
    apply IH. by apply (unquote_keeps p s t).
Qed.

(** Decoding in [j] passes and then in [k] is decoding in [j + k]. *)
Lemma decode_passes_add (j k : nat) (s t : pystr) :
  decode_passes j s = Some t -> decode_passes (j + k) s = decode_passes k t.
Proof.
  revert s. induction j as [|j IH]; intros s; simpl.
  - by intros [= ->].
  - destruct (unquote s); [apply IH | done].
Qed.

(** ** Regular expressions *)

Import Re.

Lemma nullable_iff (r : regex) : nullable r = true <-> lang r [].
Proof.
  split.
  - induction r; simpl; try done.
    + constructor.
    + rewrite andb_true_iff. intros [H1 H2].
      change (@nil N) with (@nil N ++ []). constructor; auto.
    + rewrite orb_true_iff. intros [H|H]; [apply lang_alt_l | apply lang_alt_r]; auto.
    + constructor.
  - remember [] as s eqn:Hs. induction 1; simpl; try done.
    + apply app_eq_nil in Hs as [-> ->]. by rewrite IHlang1, IHlang2.
    + by rewrite IHlang.
    + rewrite IHlang; [apply orb_true_r | done].
Qed.

Lemma deriv_sound (c : N) (r : regex) (s : pystr) :
  lang (deriv c r) s -> lang r (c :: s).
Proof.
  revert s. induction r as [| |f|r1 IH1 r2 IH2|r1 IH1 r2 IH2|r IH]; intros s; simpl.
  - inversion 1.
  - inversion 1.
  - destruct (f c) eqn:Hf; inversion 1; subst. by constructor.
  - assert (Hcat : lang (Cat (deriv c r1) r2) s -> lang (Cat r1 r2) (c :: s)).
    { inversion 1; subst. change (c :: s1 ++ s2) with ((c :: s1) ++ s2).
      constructor; auto. }
    destruct (nullable r1) eqn:Hn; [|done].
    inversion 1; subst; [auto|].
    change (c :: s) with ([] ++ c :: s). constructor; [|auto].
    by apply nullable_iff.
  - inversion 1; subst; [apply lang_alt_l | apply lang_alt_r]; auto.
  - inversion 1; subst. change (c :: s1 ++ s2) with ((c :: s1) ++ s2).
    constructor; auto.
Qed.

Lemma deriv_complete (c : N) (r : regex) (s : pystr) :
  lang r (c :: s) -> lang (deriv c r) s.
Proof.
  remember (c :: s) as cs eqn:Hcs. intros H. revert s Hcs.
  induction H as [|f x Hf|r1 r2 s1 s2 H1 IH1 H2 IH2|r1 r2 s0 H1 IH1
                  |r1 r2 s0 H2 IH2|r|r s1 s2 H1 IH1 H2 IH2]; intros s Hcs; simpl.
  - done.
  - injection Hcs as -> <-. rewrite Hf. constructor.
  - destruct s1 as [|x s1].
    + simpl in Hcs. subst s2. apply nullable_iff in H1. rewrite H1.
      apply lang_alt_r. by apply IH2.
    + injection Hcs as -> <-.
      assert (lang (Cat (deriv c r1) r2) (s1 ++ s2)) by (constructor; auto).
      destruct (nullable r1); [by apply lang_alt_l | done].
  - apply lang_alt_l. by apply IH1.
  - apply lang_alt_r. by apply IH2.
  - done.
  - destruct s1 as [|x s1].
    + by apply IH2.
    + injection Hcs as -> <-. constructor; auto.
Qed.

(** The matcher decides membership in the language. *)
Lemma matches_iff (r : regex) (s : pystr) : matches r s = true <-> lang r s.
Proof.
  revert r. induction s as [|c s IH]; intros r; simpl.
  - apply nullable_iff.
  - rewrite IH. split; [apply deriv_sound | apply deriv_complete].
Qed.

Lemma lang_lit (p s : pystr) : lang (Lit p) s <-> s = p.
Proof.
  revert s. induction p as [|c p IH]; intros s; simpl.
  - split; [by inversion 1 | intros ->; constructor].
  - split.
    + inversion 1 as [| |? ? s1 s2 H1 H2| | | |]; subst.
      inversion H1; subst. apply IH in H2 as ->.
      match goal with E : (_ =? _)%N = true |- _ => apply N.eqb_eq in E as -> end.
      done.
    + intros ->. change (c :: p) with ([c] ++ p). constructor.
      * constructor. apply N.eqb_refl.
      * by apply IH.
Qed.

Lemma lang_star_class (f : N -> bool) (s : pystr) :
  lang (Star (Class f)) s <-> forallb f s = true.
Proof.
  split.
  - remember (Star (Class f)) as r eqn:Hr. induction 1; try done.
    injection Hr as ->. rewrite forallb_app, IHlang2 by done.
    match goal with
    | E : lang (Class _) _ |- _ => inversion E as [|? c Hc| | | | |]; subst
    end.
    simpl. by rewrite Hc.
  - induction s as [|c s IH]; simpl; [constructor|].
    rewrite andb_true_iff. intros [Hc Hs].
    change (c :: s) with ([c] ++ s). constructor; [by constructor | auto].
Qed.

Lemma lang_cat_inv (r1 r2 : regex) (s : pystr) :
  lang (Cat r1 r2) s -> exists s1 s2, s = s1 ++ s2 /\ lang r1 s1 /\ lang r2 s2.
Proof. inversion 1; subst. eauto. Qed.

Lemma lang_alt_inv (r1 r2 : regex) (s : pystr) :
  lang (Alt r1 r2) s -> lang r1 s \/ lang r2 s.
Proof. inversion 1; subst; auto. Qed.

Lemma lang_class_inv (f : N -> bool) (s : pystr) :
  lang (Class f) s -> exists c, s = [c] /\ f c = true.
Proof. inversion 1; subst. eauto. Qed.

Lemma lang_eps_inv (s : pystr) : lang Eps s -> s = [].
Proof. by inversion 1. Qed.

(** What [re.match] accepts for the pattern of [validate_filename]: a safe
    name, possibly followed by one line feed. *)
Lemma filename_re_iff (d : pystr) :
  matches filename_re d = true <->
  exists body, body <> [] /\ forallb safe_char body = true
               /\ (d = body ++ py ".json" \/ d = body ++ py ".json" ++ [LF]).
Proof.
  rewrite matches_iff. unfold filename_re, Plus, Dollar. split.
  - intros H.
    apply lang_cat_inv in H as (s1 & s2 & -> & H1 & H2).
    apply lang_cat_inv in H1 as (x & xs & -> & Hx & Hxs).
    apply lang_class_inv in Hx as (c & -> & Hc).
    apply lang_star_class in Hxs.
    apply lang_cat_inv in H2 as (l & t & -> & Hl & Ht).
    apply lang_lit in Hl as ->.
    exists ([c] ++ xs). split; [done|].
    split; [cbn [app forallb]; by rewrite Hc, Hxs|].
    apply lang_alt_inv in Ht as [He | He].
    + apply lang_eps_inv in He as ->. left. by rewrite app_nil_r.
    + apply lang_class_inv in He as (e & -> & Heq).
      apply N.eqb_eq in Heq as <-. by right.
  - intros (body & Hne & Hsafe & Hd).
    destruct body as [|c xs]; [done|]. cbn [forallb] in Hsafe.
    apply andb_true_iff in Hsafe as [Hc Hxs].
    assert (Hbody : lang (Cat (Class safe_char) (Star (Class safe_char))) (c :: xs)).
    { change (c :: xs) with ([c] ++ xs).
      constructor; [by constructor | by apply lang_star_class]. }
    destruct Hd as [-> | ->].
    + constructor; [done|]. rewrite <- (app_nil_r (py ".json")).
      constructor; [by apply lang_lit | apply lang_alt_l; constructor].
    + constructor; [done|].
      constructor; [by apply lang_lit | apply lang_alt_r; constructor].
      apply N.eqb_refl.
Qed.

(** ** [validate_filename] *)

Lemma validate_filename_error (filename : pystr) :
  decode_passes 3 filename = None -> validate_filename filename = false.
Proof. intros H. unfold validate_filename. by rewrite H. Qed.

Lemma validate_filename_dangerous (filename decoded p : pystr) :
  decode_passes 3 filename = Some decoded ->
  p ∈ dangerous_patterns -> PyStr.contains p decoded = true ->
  validate_filename filename = false.
Proof.
  intros H Hp Hc. unfold validate_filename. rewrite H.
  assert (existsb (fun pattern => PyStr.contains pattern decoded)
            dangerous_patterns = true) as ->; [|done].
  apply existsb_exists. exists p. split; [by apply list_elem_of_In | done].
Qed.

(** What an accepted name went through. *)
Lemma validate_filename_true (filename : pystr) :
  validate_filename filename = true ->
  exists decoded,
    decode_passes 3 filename = Some decoded
    /\ (forall p, p ∈ dangerous_patterns -> PyStr.contains p decoded = false)
    /\ Re.matches filename_re decoded = true.
Proof.
  unfold validate_filename.
  destruct (decode_passes 3 filename) as [decoded|]; [|done].
  destruct (existsb _ dangerous_patterns) eqn:Hd; [done|].
  destruct (_ || _); [done|]. destruct (_ && _); [done|].
  destruct (Re.matches filename_re decoded) eqn:Hm; [|by cbn [negb]]. intros _.
  exists decoded. split; [done|]. split; [|done].
  intros p Hp. destruct (PyStr.contains p decoded) eqn:Hc; [|done].
  rewrite <- Hd. symmetry. apply existsb_exists.
  exists p. split; [by apply list_elem_of_In | done].
Qed.

Lemma safe_char_neq (c x : N) : safe_char c = false -> safe_char x = true -> c <> x.
Proof. intros Hc Hx ->. congruence. Qed.

(** A pattern that starts with an unsafe character cannot start inside a
    run of safe characters. *)
Lemma contains_skip_safe (c : N) (p body rest : pystr) :
  safe_char c = false -> forallb safe_char body = true ->
  PyStr.contains (c :: p) (body ++ rest) = PyStr.contains (c :: p) rest.
Proof.
  intros Hc. induction body as [|x body IH]; [done|]. cbn [forallb app].
  rewrite andb_true_iff. intros [Hx Hb]. cbn [PyStr.contains PyStr.startswith].
  apply (safe_char_neq c x Hc) in Hx. apply N.eqb_neq in Hx. rewrite Hx.
  by apply IH.
Qed.

Lemma dangerous_skip_safe (pats : list pystr) (body rest : pystr) :
  forallb starts_unsafe pats = true -> forallb safe_char body = true ->
  existsb (fun p => PyStr.contains p (body ++ rest)) pats
  = existsb (fun p => PyStr.contains p rest) pats.
Proof.
  intros Hp Hb. induction pats as [|p pats IH]; [done|]. cbn [forallb] in Hp.
  apply andb_true_iff in Hp as [Hp Hps]. cbn [existsb]. rewrite IH by done.
  destruct p as [|c p]; [done|]. unfold starts_unsafe in Hp.
  apply negb_true_iff in Hp. by rewrite contains_skip_safe.
Qed.

Lemma safe_json_name_accepted (filename decoded : pystr) :
  decode_passes 3 filename = Some decoded -> safe_json_name decoded ->
  validate_filename filename = true.
Proof.
  intros H (body & Hne & Hsafe & ->). unfold validate_filename. rewrite H.
  rewrite dangerous_skip_safe by done.
  assert (Hm : Re.matches filename_re (body ++ py ".json") = true).
  { apply filename_re_iff. exists body. auto. }
  assert (He : PyStr.endswith (body ++ py ".json") (py ".json") = true).
  { apply endswith_iff. by exists body. }
  rewrite Hm, He.
  destruct body as [|x body]; [done|]. cbn [forallb] in Hsafe.
  apply andb_true_iff in Hsafe as [Hx Hb].
  assert (Hs1 : (47 =? x)%N = false).
  { apply N.eqb_neq, (safe_char_neq 47 x); done. }
  assert (Hs2 : (92 =? x)%N = false).
  { apply N.eqb_neq, (safe_char_neq 92 x); done. }
  assert (Hcolon : bool_decide (((x :: body) ++ py ".json") !! 1%nat = Some 58%N)
                   = false).
  { apply bool_decide_eq_false. destruct body as [|y body]; [done|].
    cbn [forallb] in Hb. apply andb_true_iff in Hb as [Hy _].
    intros [= ->]. done. }
  rewrite Hcolon, andb_false_r.
  change (PyStr.startswith ((x :: body) ++ py ".json") (py "/"))
    with ((47 =? x)%N && true).
  change (PyStr.startswith ((x :: body) ++ py ".json") (py "\"))
    with ((92 =? x)%N && true).
  by rewrite Hs1, Hs2.
Qed.

Lemma validate_filename_iff (filename : pystr) :
  validate_filename filename = true <->
  exists decoded, decode_passes 3 filename = Some decoded /\ safe_json_name decoded.
Proof.
  split.
  - intros H. apply validate_filename_true in H as (decoded & Hd & Hclean & Hm).
    exists decoded. split; [done|].
    apply filename_re_iff in Hm as (body & Hne & Hsafe & [-> | ->]).
    + by exists body.
    + assert (Hlf : PyStr.contains [LF] (body ++ py ".json" ++ [LF]) = false).
      { apply Hclean. unfold dangerous_patterns. set_solver. }
      apply contains_false_iff in Hlf. destruct Hlf.
      exists (body ++ py ".json"), []. by rewrite <- !app_assoc.
  - intros (decoded & Hd & Hs). by apply (safe_json_name_accepted filename decoded).
Qed.

Lemma split_without_sep (sep : N) (s : pystr) :
  PyStr.contains [sep] s = false -> PyStr.split sep s = [s].
Proof.
  induction s as [|c s IH]; [done|]. cbn [PyStr.contains PyStr.startswith PyStr.split].
  rewrite andb_true_r, orb_false_iff, N.eqb_sym. intros [-> Hs]. by rewrite IH.
Qed.

Lemma startswith_contains (s p : pystr) :
  PyStr.startswith s p = true -> PyStr.contains p s = true.
Proof. destruct s; cbn [PyStr.contains]; by intros ->. Qed.

(** C2: a name that, after any number of decoding passes up to three,
    contains [".."], ["/"] or ["\"] is rejected, and so is a name for which
    one of the three passes fails to decode. *)
Theorem validate_filename_rejects_traversal (filename decoded : pystr) (k : nat) :
  (k <= 3)%nat ->
  decode_passes k filename = Some decoded ->
  PyStr.contains (py "..") decoded = true
  \/ PyStr.contains (py "/") decoded = true
  \/ PyStr.contains (py "\") decoded = true
  \/ ((k < 3)%nat /\ Urllib.unquote decoded = None) ->
  validate_filename filename = false.
Proof.
  intros Hk Hd Hbad.
  assert (H3 : decode_passes 3 filename = decode_passes (3 - k) decoded).
  { rewrite <- (decode_passes_add k (3 - k) filename decoded Hd). f_equal. lia. }
  assert (Hpat : forall p, p ∈ dangerous_patterns ->
            forallb stable_char p = true -> PyStr.contains p decoded = true ->
            validate_filename filename = false).
  { intros p Hp Hst Hc.
    destruct (decode_passes (3 - k) decoded) as [final|] eqn:Hf.
    - apply (validate_filename_dangerous filename final p); try done.
      by apply (decode_passes_keeps (3 - k) p decoded final).
    - by apply validate_filename_error. }
  destruct Hbad as [H | [H | [H | [Hlt H]]]].
  - apply (Hpat (py "..")); [unfold dangerous_patterns; set_solver | done | done].
  - apply (Hpat (py "/")); [unfold dangerous_patterns; set_solver | done | done].
  - apply (Hpat (py "\")); [unfold dangerous_patterns; set_solver | done | done].
  - apply validate_filename_error. rewrite H3.
    destruct (3 - k)%nat as [|n] eqn:Hn; [lia|]. cbn [decode_passes]. by rewrite H.
Qed.

Lemma validate_filename_rejects_traversal_witness :
  (3 <= 3)%nat
  /\ decode_passes 3 (py "%252e%252e%252fetc") = Some (py "../etc")
  /\ validate_filename (py "%252e%252e%252fetc") = false.
Proof.
  split; [lia|]. split; [reflexivity|].
  apply (validate_filename_rejects_traversal _ (py "../etc") 3);
    [lia | reflexivity | left; reflexivity].
Defined.

(** ** Percent-decoding as specified, against [urllib]'s *)

Lemma spec_hex_digit_hexval (c : N) :
  spec_hex_digit c = if is_hexdig c then Some (hexval c) else None.
Proof.
  unfold spec_hex_digit, is_hexdig, hexval.
  destruct (N.leb_spec 48 c), (N.leb_spec c 57), (N.leb_spec 65 c),
    (N.leb_spec c 70), (N.leb_spec 97 c), (N.leb_spec c 102);
    cbn [andb orb]; try done; lia.
Qed.

(** On the characters of one run, the specified decoding yields the bytes
    that [urllib] decodes as UTF-8. *)
Lemma spec_percent_decode_bytes (s : pystr) :
  spec_percent_decode s = unquote_to_bytes s.
Proof.
  remember (length s) as n eqn:Hn.
  revert s Hn. induction n as [n IH] using lt_wf_ind. intros s Hn.
  assert (Hrec : forall s', (length s' < n)%nat ->
            spec_percent_decode s' = unquote_to_bytes s').
  { intros s' Hlt. by apply (IH (length s') Hlt). }
  destruct s as [|c r]; [done|]. simpl in Hn.
  cbn [spec_percent_decode unquote_to_bytes].
  change 37%N with PERCENT.
  destruct r as [|x [|y r']].
  - by destruct (c =? PERCENT)%N eqn:Hc; [apply N.eqb_eq in Hc as ->|].
  - destruct (c =? PERCENT)%N eqn:Hc; [apply N.eqb_eq in Hc as ->|];
      by rewrite (Hrec [x]) by (simpl in *; lia).
  - rewrite !spec_hex_digit_hexval.
    destruct (c =? PERCENT)%N eqn:Hc.
    + apply N.eqb_eq in Hc as ->.
      destruct (is_hexdig x), (is_hexdig y); cbn [andb];
        rewrite Hrec by (simpl in *; lia); done.
    + by rewrite Hrec by (simpl in *; lia).
Qed.

(** The bytes of a run are ASCII only if its characters are. *)
Lemma unquote_to_bytes_ascii (s : pystr) :
  all_ascii (unquote_to_bytes s) = true -> all_ascii s = true.
Proof.
  remember (length s) as n eqn:Hn.
  revert s Hn. induction n as [n IH] using lt_wf_ind. intros s Hn.
  assert (Hrec : forall s', (length s' < n)%nat ->
            all_ascii (unquote_to_bytes s') = true -> all_ascii s' = true).
  { intros s' Hlt. by apply (IH (length s') Hlt). }
  assert (Hhex : forall h, is_hexdig h = true -> (h <? 128)%N = true).
  { intros h. unfold is_hexdig.
    rewrite !orb_true_iff, !andb_true_iff, !N.leb_le, N.ltb_lt. lia. }
  destruct s as [|c r]; [done|]. simpl in Hn.
  cbn [unquote_to_bytes]. destruct (c =? PERCENT)%N eqn:Hc.
  - apply N.eqb_eq in Hc as ->.
    assert (Hplain : all_ascii (PERCENT :: unquote_to_bytes r) = true ->
              all_ascii (PERCENT :: r) = true).
    { unfold all_ascii. cbn [forallb]. rewrite !andb_true_iff.
      intros [_ H]. split; [done|]. apply Hrec; [lia | done]. }
    destruct r as [|h1 [|h2 r']]; [done | exact Hplain |].
    destruct (is_hexdig h1 && is_hexdig h2) eqn:Hh; [|exact Hplain].
    apply andb_true_iff in Hh as [H1 H2].
    unfold all_ascii. cbn [forallb]. rewrite !andb_true_iff.
    intros [_ H]. rewrite (Hhex h1 H1), (Hhex h2 H2).
    repeat split. apply Hrec; [simpl in *; lia | done].
  - unfold all_ascii. cbn [forallb]. rewrite !andb_true_iff.
    intros [H1 H2]. split; [done|]. apply Hrec; [lia | done].
Qed.

(** Strict UTF-8 decoding yields ASCII only from ASCII, unchanged. *)
Lemma utf8_decode_ascii_inv (bs t : list N) :
  utf8_decode bs = Some t -> all_ascii t = true -> bs = t.
Proof.
  revert t. induction bs as [|b0 r0 IH]; intros t; cbn [utf8_decode].
  - by intros [= <-].
  - assert (Hhigh : forall (c : N) (x : option pystr),
              (128 <= c)%N -> cons c <$> x = Some t -> all_ascii t = true -> False).
    { intros c x Hc Hx Ht. destruct x as [t'|]; [|done]. injection Hx as <-.
      unfold all_ascii in Ht. cbn [forallb] in Ht.
      apply andb_true_iff in Ht as [Ht _]. apply N.ltb_lt in Ht. lia. }
    destruct (N.ltb_spec b0 128) as [Hlt|Hge].
    { destruct (utf8_decode r0) as [t'|] eqn:Hr; [|done]. intros [= <-].
      unfold all_ascii. cbn [forallb]. rewrite andb_true_iff. intros [_ Ht].
      f_equal. by apply IH. }
    destruct ((194 <=? b0) && (b0 <=? 223))%N eqn:H2.
    { apply andb_true_iff in H2 as [Ha Hb]. apply N.leb_le in Ha, Hb.
      destruct r0 as [|b1 r1]; [done|].
      destruct (is_cont b1) eqn:Hc1; [|done]. intros Hd Ht. exfalso.
      refine (Hhigh _ _ _ Hd Ht). lia. }
    destruct ((224 <=? b0) && (b0 <=? 239))%N eqn:H3.
    { apply andb_true_iff in H3 as [Ha Hb]. apply N.leb_le in Ha, Hb.
      destruct r0 as [|b1 [|b2 r2]]; [done | done |].
      destruct (second_of_3 b0 b1 && is_cont b2) eqn:Hc; [|done].
      apply andb_true_iff in Hc as [Hs _]. intros Hd Ht. exfalso.
      refine (Hhigh _ _ _ Hd Ht).
      unfold second_of_3, is_cont in Hs.
      destruct (N.eqb_spec b0 224) as [->|Hne].
      - apply andb_true_iff in Hs as [Hs _]. apply N.leb_le in Hs. lia.
      - lia. }
    destruct ((240 <=? b0) && (b0 <=? 244))%N eqn:H4; [|done].
    apply andb_true_iff in H4 as [Ha Hb]. apply N.leb_le in Ha, Hb.
    destruct r0 as [|b1 [|b2 [|b3 r3]]]; [done | done | done |].
    destruct (second_of_4 b0 b1 && is_cont b2 && is_cont b3) eqn:Hc; [|done].
    apply andb_true_iff in Hc as [Hc _]. apply andb_true_iff in Hc as [Hs _].
    intros Hd Ht. exfalso. refine (Hhigh _ _ _ Hd Ht).
    unfold second_of_4, is_cont in Hs.
    destruct (N.eqb_spec b0 240) as [->|Hne].
    + apply andb_true_iff in Hs as [Hs _]. apply N.leb_le in Hs. lia.
    + lia.
Qed.

(** A string of ASCII characters is one run. *)
Lemma unquote_parts_one_run (run s : pystr) :
  all_ascii s = true -> unquote_parts run s = decode_run (run ++ s).
Proof.
  revert run. induction s as [|c s IH]; intros run.
  - by rewrite app_nil_r.
  - unfold all_ascii. cbn [forallb unquote_parts]. rewrite andb_true_iff.
    intros [-> Hs]. rewrite IH by done. by rewrite <- app_assoc.
Qed.

(** Decoding yields ASCII only from ASCII. *)
Lemma unquote_parts_from_ascii (run s t : pystr) :
  unquote_parts run s = Some t -> all_ascii t = true -> all_ascii s = true.
Proof.
  revert run t. induction s as [|c s IH]; intros run t; [done|].
  cbn [unquote_parts]. unfold all_ascii at 2. cbn [forallb].
  destruct (c <? 128)%N eqn:Hc; [apply IH|].
  destruct (decode_run run) as [r|]; [|done].
  destruct (unquote_parts [] s) as [t'|]; [|done]. intros [= <-].
  unfold all_ascii. rewrite forallb_app. cbn [forallb]. rewrite Hc.
  by rewrite andb_false_r.
Qed.

(** One pass of [urllib]'s decoding and one round of the specified
    decoding agree whenever either yields ASCII characters only. *)
Lemma unquote_as_specified (s t : pystr) :
  all_ascii t = true ->
  unquote s = Some t <-> spec_percent_decode s = t.
Proof.
  intros Ht. rewrite spec_percent_decode_bytes, unquote_unfold. split.
  - intros Hu. pose proof (unquote_parts_from_ascii [] s t Hu Ht) as Hs.
    rewrite unquote_parts_one_run in Hu by done.
    by apply utf8_decode_ascii_inv.
  - intros <-. rewrite unquote_parts_one_run by by apply unquote_to_bytes_ascii.
    by apply utf8_decode_ascii.
Qed.

Lemma unquote_source_ascii (s t : pystr) :
  all_ascii t = true -> unquote s = Some t -> all_ascii s = true.
Proof.
  intros Ht Hu. rewrite unquote_unfold in Hu.
  by apply (unquote_parts_from_ascii [] s t).
Qed.

Lemma safe_json_name_ascii (d : pystr) : safe_json_name d -> all_ascii d = true.
Proof.
  intros (body & _ & Hsafe & ->). unfold all_ascii. rewrite forallb_app.
  apply andb_true_iff. split; [|done].
  rewrite forallb_forall in *. intros c Hc. specialize (Hsafe c Hc).
  unfold safe_char in Hsafe.
  rewrite !orb_true_iff, !andb_true_iff, !N.leb_le, !N.eqb_eq in Hsafe.
  apply N.ltb_lt. lia.
Qed.

(** The three passes of the code yield an accepted form exactly when three
    rounds of the specified decoding do, and then the same one. *)
Lemma decode_passes_as_specified (filename decoded : pystr) :
  safe_json_name decoded ->
  decode_passes 3 filename = Some decoded <-> spec_fully_decoded filename = decoded.
Proof.
  intros Hname. apply safe_json_name_ascii in Hname as H3.
  unfold spec_fully_decoded. cbn [decode_passes]. split.
  - destruct (unquote filename) as [t1|] eqn:E1; [|done].
    destruct (unquote t1) as [t2|] eqn:E2; [|done].
    destruct (unquote t2) as [t3|] eqn:E3; [|done]. intros [= ->].
    pose proof (unquote_source_ascii t2 decoded H3 E3) as H2.
    pose proof (unquote_source_ascii t1 t2 H2 E2) as H1.
    apply unquote_as_specified in E1, E2, E3; try done. by subst.
  - intros Hd.
    set (t1 := spec_percent_decode filename) in *.
    set (t2 := spec_percent_decode t1) in *.
    assert (E3 : unquote t2 = Some decoded) by by apply unquote_as_specified.
    pose proof (unquote_source_ascii t2 decoded H3 E3) as H2.
    assert (E2 : unquote t1 = Some t2) by by apply unquote_as_specified.
    pose proof (unquote_source_ascii t1 t2 H2 E2) as H1.
    assert (E1 : unquote filename = Some t1) by by apply unquote_as_specified.
    by rewrite E1, E2, E3.
Qed.

(** C4: [validate_filename] accepts a name exactly when its fully decoded
    form, the result of three rounds of percent-decoding as specified, is one
    or more characters of [[A-Za-z0-9_-]] followed by [".json"] and nothing
    else; the three passes of the code then succeed and yield that form.
    The listed names are accepted or rejected as stated; a name that needs
    one, two or three rounds of decoding is accepted, one that needs four is
    not, nor is one with an escaped character outside ASCII or an escape
    that is not UTF-8. *)
Theorem validate_filename_accepts_exactly :
  (forall filename,
      validate_filename filename = true
      <-> safe_json_name (spec_fully_decoded filename))
  /\ (forall filename,
        validate_filename filename = true <->
        exists decoded,
          decode_passes 3 filename = Some decoded /\ safe_json_name decoded)
  /\ validate_filename (py "report.json") = true
  /\ validate_filename (py "My-File_1.json") = true
  /\ validate_filename (py "../../etc/passwd") = false
  /\ validate_filename (py "a%2e%2e%2fb.json") = false
  /\ validate_filename (py "bad name.json") = false
  /\ validate_filename (py "") = false
  /\ validate_filename (py ".json") = false
  /\ validate_filename (py "%72eport.json") = true
  /\ validate_filename (py "%2572eport.json") = true
  /\ validate_filename (py "%252572eport%252ejson") = true
  /\ spec_fully_decoded (py "%252572eport%252ejson") = py "report.json"
  /\ validate_filename (py "%25252572eport.json") = false
  /\ validate_filename (py "%C3%A9.json") = false
  /\ validate_filename (py "%FF.json") = false.
Proof.
  split.
  { intros filename. rewrite validate_filename_iff. split.
    - intros (decoded & Hd & Hname).
      apply decode_passes_as_specified in Hd; [by subst | done].
    - intros Hname. exists (spec_fully_decoded filename). split; [|done].
      by apply decode_passes_as_specified. }
  split; [apply validate_filename_iff|]. repeat split; by vm_compute.
Qed.

(** C10: a raw name that [validate_filename] accepts holds no [".."], no
    ["/"], no ["\"] and no NUL, and starts with neither ["/"] nor ["\"];
    joined to a subdirectory it is that subdirectory's entry of this very
    name, which is not [".."]. *)
Theorem accepted_filename_is_one_component (filename : pystr) (subdir : Path) :
  validate_filename filename = true ->
  PyStr.contains (py "..") filename = false
  /\ PyStr.contains (py "/") filename = false
  /\ PyStr.contains (py "\") filename = false
  /\ PyStr.contains [NUL] filename = false
  /\ PyStr.startswith filename (py "/") = false
  /\ PyStr.startswith filename (py "\") = false
  /\ joinpath subdir filename = child subdir filename
  /\ filename <> py "..".
Proof.
  intros Hv.
  destruct (validate_filename_true filename Hv) as (decoded & Hd & Hclean & _).
  assert (Hraw : forall p, p ∈ dangerous_patterns ->
            forallb stable_char p = true -> PyStr.contains p filename = false).
  { intros p Hp Hst. destruct (PyStr.contains p filename) eqn:Hc; [|done].
    rewrite <- (Hclean p Hp). symmetry.
    by apply (decode_passes_keeps 3 p filename decoded). }
  assert (H1 : PyStr.contains (py "..") filename = false).
  { apply Hraw; [unfold dangerous_patterns; set_solver | done]. }
  assert (H2 : PyStr.contains (py "/") filename = false).
  { apply Hraw; [unfold dangerous_patterns; set_solver | done]. }
  assert (H3 : PyStr.contains (py "\") filename = false).
  { apply Hraw; [unfold dangerous_patterns; set_solver | done]. }
  assert (H4 : PyStr.contains [NUL] filename = false).
  { apply Hraw; [unfold dangerous_patterns; set_solver | done]. }
  assert (H5 : PyStr.startswith filename (py "/") = false).
  { destruct (PyStr.startswith filename (py "/")) eqn:E; [|done].
    apply startswith_contains in E. congruence. }
  assert (H6 : PyStr.startswith filename (py "\") = false).
  { destruct (PyStr.startswith filename (py "\")) eqn:E; [|done].
    apply startswith_contains in E. congruence. }
  repeat (split; [done|]). split.
  - unfold joinpath, child. change [SLASH] with (py "/"). rewrite H5.
    f_equal. f_equal. unfold parse_parts.
    rewrite (split_without_sep SLASH filename H2). cbn [List.filter].
    assert (PyStr.eqb filename [] = false) as ->.
    { apply bool_decide_eq_false. intros ->. by vm_compute in Hv. }
    assert (PyStr.eqb filename (py ".") = false) as ->.
    { apply bool_decide_eq_false. intros ->. by vm_compute in Hv. }
    done.
  - intros ->. by vm_compute in H1.
Qed.

Lemma accepted_filename_is_one_component_witness :
  validate_filename (py "%61.json") = true
  /\ joinpath (mkPath true [py "workflows"; py "Slack"]) (py "%61.json")
     = mkPath true [py "workflows"; py "Slack"; py "%61.json"].
Proof.
  split; [reflexivity|].
  by destruct (accepted_filename_is_one_component (py "%61.json")
                 (mkPath true [py "workflows"; py "Slack"]) eq_refl)
    as (_ & _ & _ & _ & _ & _ & -> & _).
Defined.

(** ** Binary64 rounding *)

Import Float64.

Lemma round_half_even_bounds (y : Q) :
  (y - (1 # 2) <= inject_Z (round_half_even y) <= y + (1 # 2))%Q.
Proof.
  unfold round_half_even.
  pose proof (Qfloor_le y) as Hlo. pose proof (Qlt_floor y) as Hhi.
  rewrite inject_Z_plus in Hhi. change (inject_Z 1) with 1%Q in Hhi.
  destruct (Qcompare_spec (y - inject_Z (Qfloor y)) (1 # 2)) as [H|H|H].
  - destruct (Z.even (Qfloor y)); rewrite ?inject_Z_plus;
      change (inject_Z 1) with 1%Q; lra.
  - lra.
  - rewrite inject_Z_plus. change (inject_Z 1) with 1%Q. lra.
Qed.

Lemma inject_Z_le (a b : Z) : (a <= b)%Z -> (inject_Z a <= inject_Z b)%Q.
Proof. intros H. by rewrite <- Zle_Qle. Qed.

Lemma inject_Z_lt_inv (a b : Z) : (inject_Z a < inject_Z b)%Q -> (a < b)%Z.
Proof. intros H. by rewrite Zlt_Qlt. Qed.

Ltac push_inject :=
  unfold Z.sub in *;
  rewrite ?inject_Z_plus, ?inject_Z_opp, ?inject_Z_mult in *;
  change (inject_Z 1) with 1%Q in *; change (inject_Z 2) with 2%Q in *.

Lemma round_half_even_lt_even (y : Q) (m : Z) :
  Z.even m = true ->
  (round_half_even y < m)%Z <-> (y < inject_Z m - (1 # 2))%Q.
Proof.
  intros Hm. apply Z.even_spec in Hm as [m' ->].
  unfold round_half_even.
  pose proof (Qfloor_le y) as Hlo. pose proof (Qlt_floor y) as Hhi.
  set (f := Qfloor y) in *. push_inject.
  destruct (Qcompare_spec (y - inject_Z f) (1 # 2)) as [H|H|H].
  - destruct (Z.even f) eqn:Hf; split.
    + intros Hlt. apply Z.even_spec in Hf as [f' Hf'].
      assert (Hle : (f <= 2 * m' + - (2))%Z) by lia.
      apply inject_Z_le in Hle. push_inject. lra.
    + intros Hlt. apply inject_Z_lt_inv. push_inject. lra.
    + intros Hlt. assert (Hle : (f <= 2 * m' + - (2))%Z) by lia.
      apply inject_Z_le in Hle. push_inject. lra.
    + intros Hlt.
      assert (Hf1 : (f < 2 * m' + - (1))%Z).
      { apply inject_Z_lt_inv. push_inject. lra. }
      lia.
  - split.
    + intros Hlt. assert (Hle : (f <= 2 * m' + - (1))%Z) by lia.
      apply inject_Z_le in Hle. push_inject. lra.
    + intros Hlt. apply inject_Z_lt_inv. push_inject. lra.
  - split.
    + intros Hlt. assert (Hle : (f <= 2 * m' + - (2))%Z) by lia.
      apply inject_Z_le in Hle. push_inject. lra.
    + intros Hlt.
      assert (Hf1 : (f < 2 * m' + - (1))%Z).
      { apply inject_Z_lt_inv. push_inject. lra. }
      lia.
Qed.

Lemma pow2_pos (k : Z) : (0 < 2 ^ k)%Q.
Proof. by apply Qpower_0_lt. Qed.

Lemma pow2_succ (k : Z) : (2 ^ (k + 1) == 2 * 2 ^ k)%Q.
Proof. rewrite Qpower_plus by done. change (2 ^ 1)%Q with 2%Q. ring. Qed.

Lemma pow2_log2 (n : Z) :
  (0 < n)%Z ->
  (2 ^ Z.log2 n <= inject_Z n)%Q /\ (inject_Z n < 2 * 2 ^ Z.log2 n)%Q.
Proof.
  intros Hn. destruct (Z.log2_spec n Hn) as [Hlo Hhi].
  pose proof (Z.log2_nonneg n) as H0.
  rewrite <- pow2_succ.
  change 2%Q with (inject_Z 2). rewrite <- !Zpower_Qpower by lia.
  split; [by apply inject_Z_le|]. rewrite <- Zlt_Qlt. exact Hhi.
Qed.

(** The binade brackets the magnitude. *)
Lemma binade_spec (x : Q) :
  ~ (x == 0)%Q ->
  (2 ^ binade x <= Qabs x)%Q /\ (Qabs x < 2 * 2 ^ binade x)%Q.
Proof.
  intros Hx. unfold binade.
  set (n := Z.abs (Qnum x)). set (d := Z.pos (Qden x)).
  assert (Hn : (0 < n)%Z).
  { subst n. destruct x as [[|p|p] q]; first [done | exfalso; by apply Hx]. }
  assert (Habs : (Qabs x * inject_Z d == inject_Z n)%Q).
  { subst n d. destruct x as [xn xd]. cbn [Qabs Qnum Qden].
    rewrite (Qmake_Qdiv (Z.abs xn) xd). field; done. }
  destruct (pow2_log2 n Hn) as [Hn1 Hn2].
  destruct (pow2_log2 d) as [Hd1 Hd2]; [done|].
  pose proof (pow2_pos (Z.log2 n)) as Ha. pose proof (pow2_pos (Z.log2 d)) as Hb.
  set (k := (Z.log2 n - Z.log2 d)%Z).
  assert (Hk : (2 ^ k * 2 ^ Z.log2 d == 2 ^ Z.log2 n)%Q).
  { rewrite <- Qpower_plus by done. subst k. by replace (Z.log2 n - Z.log2 d + Z.log2 d)%Z with (Z.log2 n) by lia. }
  assert (Hk1 : (2 ^ k == 2 * 2 ^ (k - 1))%Q).
  { rewrite <- pow2_succ. by replace (k - 1 + 1)%Z with k by lia. }
  pose proof (pow2_pos k) as Hp. pose proof (pow2_pos (k - 1)) as Hp1.
  pose proof (Qabs_nonneg x) as HX.
  set (X := Qabs x) in *. set (N := inject_Z n) in *. set (D := inject_Z d) in *.
  set (a := (2 ^ Z.log2 n)%Q) in *. set (b := (2 ^ Z.log2 d)%Q) in *.
  set (P := (2 ^ k)%Q) in *. set (P1 := (2 ^ (k - 1))%Q) in *.
  destruct (Qle_bool P X) eqn:Hc.
  - apply Qle_bool_iff in Hc. fold P. split; [done|].
    destruct (Qlt_le_dec X (2 * P)) as [|Hge]; [done|]. exfalso.
    assert (H1 : (0 <= P * (D - b))%Q) by (apply Qmult_le_0_compat; lra).
    assert (H2 : (0 <= (X - 2 * P) * D)%Q) by (apply Qmult_le_0_compat; lra).
    lra.
  - assert (Hlt : (X < P)%Q).
    { apply Qnot_le_lt. intros H. apply Qle_bool_iff in H. congruence. }
    fold P1. split; [|lra].
    destruct (Qlt_le_dec X P1) as [Hsmall|]; [|done]. exfalso.
    assert (H1 : (0 < P1 * (2 * b - D))%Q) by (apply Qmult_lt_0_compat; lra).
    assert (H2 : (0 <= (P1 - X) * D)%Q) by (apply Qmult_le_0_compat; lra).
    assert (H3 : (P * b == 2 * P1 * b)%Q) by (rewrite Hk1; ring).
    lra.
Qed.

(** The rounded value is within half a spacing of the exact one. *)
Lemma round64_near (x : Q) :
  ~ (x == 0)%Q ->
  (x - quantum x * (1 # 2) <= round64 x)%Q
  /\ (round64 x <= x + quantum x * (1 # 2))%Q.
Proof.
  intros Hx. unfold round64.
  destruct (Qeq_bool x 0) eqn:E; [apply Qeq_bool_iff in E; done|].
  pose proof (pow2_pos (Z.max (binade x) (-1022) - 52)) as Hu. fold (quantum x) in Hu.
  set (u := quantum x) in *.
  destruct (round_half_even_bounds (x / u)) as [Hlo Hhi].
  set (m := inject_Z (round_half_even (x / u))) in *.
  assert (Hy : (x / u * u == x)%Q) by (field; lra).
  assert (H1 : (0 <= (m - (x / u - (1 # 2))) * u)%Q) by (apply Qmult_le_0_compat; lra).
  assert (H2 : (0 <= (x / u + (1 # 2) - m) * u)%Q) by (apply Qmult_le_0_compat; lra).
  set (y := (x / u)%Q) in *. split; lra.
Qed.

(** The spacing around a positive [x]: at most [x * 2^-52] in the normal
    range, at most 1 below it. *)
Lemma quantum_small (x : Q) :
  (0 < x)%Q -> (quantum x <= x * (1 # 2 ^ 52))%Q \/ (quantum x <= 1)%Q.
Proof.
  intros Hx. destruct (binade_spec x) as [Hlo _]; [lra|].
  rewrite Qabs_pos in Hlo by lra. unfold quantum.
  destruct (Z.max_spec (binade x) (-1022)) as [[_ ->] | [_ ->]].
  - right. change 1%Q with (2 ^ 0)%Q. by apply Qpower_le_compat_l.
  - left. replace (binade x - 52)%Z with (binade x + -52)%Z by lia.
    rewrite Qpower_plus by done.
    change (2 ^ (-52))%Q with (1 # 2 ^ 52)%Q.
    assert (H : (0 <= (x - 2 ^ binade x) * (1 # 2 ^ 52))%Q)
      by (apply Qmult_le_0_compat; [lra | done]).
    lra.
Qed.

(** A difference is rounded below [60.0] exactly when it is less than
    [60 - 2^-48]: the spacing just below 60 is [2^-47], and 60 is the even
    one of the two neighbours of the midpoint. *)
Lemma round64_lt_60 (x : Q) :
  (round64 x < 60)%Q <-> (x < 60 - (1 # 2 ^ 48))%Q.
Proof.
  change (1 # 2 ^ 48)%Q with (1 # 281474976710656)%Q.
  pose proof (quantum_small x) as Hq.
  change (1 # 2 ^ 52)%Q with (1 # 4503599627370496)%Q in Hq.
  destruct (Qeq_dec x 0) as [Hz|Hnz].
  { unfold round64. apply Qeq_bool_iff in Hz as Hb. rewrite Hb. split; intros _; lra. }
  destruct (round64_near x Hnz) as [Hlo Hhi].
  pose proof (pow2_pos (Z.max (binade x) (-1022) - 52)) as Hu. fold (quantum x) in Hu.
  destruct (Qlt_le_dec x 0) as [Hneg|Hpos].
  { (* a negative difference stays negative *)
    assert (Hr : (round64 x <= 0)%Q); [|split; intros _; lra].
    unfold round64.
    destruct (Qeq_bool x 0) eqn:E; [lra|].
    set (u := quantum x) in *.
    destruct (round_half_even_bounds (x / u)) as [_ Hm].
    assert (Hy : (x / u < 0)%Q) by (apply Qlt_shift_div_r; lra).
    assert (Hm0 : (round_half_even (x / u) < 1)%Z).
    { apply inject_Z_lt_inv. change (inject_Z 1) with 1%Q. lra. }
    assert (Hm1 : (inject_Z (round_half_even (x / u)) <= 0)%Q).
    { change 0%Q with (inject_Z 0). apply inject_Z_le. lia. }
    assert (H : (0 <= (0 - inject_Z (round_half_even (x / u))) * u)%Q)
      by (apply Qmult_le_0_compat; lra).
    lra. }
  assert (Hx : (0 < x)%Q).
  { destruct (Qlt_le_dec 0 x) as [|H]; [done|]. exfalso. apply Hnz. lra. }
  destruct (Qlt_le_dec x 32) as [Hsmall|H32].
  { destruct (Hq Hx); split; intros _; lra. }
  destruct (Qlt_le_dec x 64) as [H64|Hbig]; [|destruct (Hq Hx); split; intros; lra].
  (* the binade of 60 *)
  destruct (binade_spec x Hnz) as [Hb1 Hb2]. rewrite Qabs_pos in Hb1, Hb2 by lra.
  assert (He : binade x = 5%Z).
  { assert (H1 : (binade x < 6)%Z).
    { apply (Qpower_lt_compat_l_inv 2); [|done]. change (2 ^ 6)%Q with 64%Q. lra. }
    assert (H2 : (5 < binade x + 1)%Z).
    { apply (Qpower_lt_compat_l_inv 2); [|done]. rewrite pow2_succ.
      change (2 ^ 5)%Q with 32%Q. lra. }
    lia. }
  clear Hlo Hhi Hu. unfold round64.
  destruct (Qeq_bool x 0) eqn:E; [apply Qeq_bool_iff in E; lra|].
  unfold quantum. rewrite He.
  change (2 ^ (Z.max 5 (-1022) - 52))%Q with (1 # 140737488355328)%Q.
  set (m := round_half_even (x / (1 # 140737488355328))).
  assert (Hm : (m < 8444249301319680)%Z
               <-> (x / (1 # 140737488355328)
                    < inject_Z 8444249301319680 - (1 # 2))%Q).
  { apply round_half_even_lt_even. reflexivity. }
  assert (Hy : (x / (1 # 140737488355328) == x * (140737488355328 # 1))%Q)
    by (field; done).
  rewrite Hy in Hm. rewrite Zlt_Qlt in Hm.
  set (mq := inject_Z m) in *.
  change (inject_Z 8444249301319680) with (8444249301319680 # 1)%Q in Hm.
  split; intros H.
  - assert (H' : (mq < 8444249301319680 # 1)%Q) by lra. apply Hm in H'. lra.
  - assert (H' : (mq < 8444249301319680 # 1)%Q) by (apply Hm; lra). lra.
Qed.

(** ** [check_rate_limit] *)

Lemma within_window_rounded (current_time timestamp : Q) :
  within_window current_time timestamp = true
  <-> (round64 (current_time - timestamp) < 60)%Q.
Proof.
  unfold within_window, sub. destruct (Qlt_le_dec _ _) as [H|H]; split; try done.
  intros H'. exfalso. by apply (Qlt_not_le _ _ H').
Qed.

(** A timestamp passes the filter exactly when it is less than
    [60 - 2^-48] seconds old. *)
Lemma within_window_iff (current_time timestamp : Q) :
  within_window current_time timestamp = true
  <-> (current_time - timestamp < 60 - (1 # 2 ^ 48))%Q.
Proof. rewrite within_window_rounded. apply round64_lt_60. Qed.

Ltac window_norm :=
  change (1 # 2 ^ 48)%Q with (1 # 281474976710656)%Q in *.

Lemma record_of_insert (st : gmap pystr (list Q)) (k : pystr) (l : list Q) :
  record_of (<[k := l]> st) k = l.
Proof. unfold record_of. by rewrite lookup_insert_eq. Qed.

Lemma record_of_insert_ne (st : gmap pystr (list Q)) (k k' : pystr) (l : list Q) :
  k <> k' -> record_of (<[k := l]> st) k' = record_of st k'.
Proof. intros H. unfold record_of. by rewrite lookup_insert_ne. Qed.

(** One call, with the two writes to the key's entry merged. *)
Lemma check_rate_limit_at_unfold (limit : nat) (now : Q)
    (st : gmap pystr (list Q)) (k : pystr) :
  check_rate_limit_at limit now st k
  = let kept := List.filter (within_window now) (record_of st k) in
    if (limit <=? length kept)%nat
    then (false, <[k := kept]> st)
    else (true, <[k := kept ++ [now]]> st).
Proof.
  unfold check_rate_limit_at. cbv zeta. rewrite record_of_insert.
  destruct (limit <=? _)%nat; [done|]. by rewrite insert_insert_eq.
Qed.

(** C5: a call prunes the key's record to the timestamps whose age, the
    float difference [now - ts], is below 60: none older than [now - 60]
    stays and every one less than [60 - 2^-48] seconds old does (an age
    within [2^-48] of 60 is rounded to [60.0]).  The call answers [true]
    exactly when fewer than [limit] timestamps remain, appending [now] in
    that case only, and leaves other keys alone.  With a limit of 3, four
    calls within one second on a fresh key answer true, true, true, false,
    and a fifth more than 60 seconds after the first answers true. *)
Theorem check_rate_limit_sliding_window :
  (forall (limit : nat) (now : Q) (st : gmap pystr (list Q)) (k : pystr),
      let kept := List.filter (within_window now) (record_of st k) in
      let result := check_rate_limit_at limit now st k in
      (forall ts, In ts kept
                  <-> In ts (record_of st k) /\ (Float64.sub now ts < 60)%Q)
      /\ (forall ts, In ts (record_of st k) -> (ts < now - 60)%Q -> ~ In ts kept)
      /\ (forall ts, In ts (record_of st k) ->
                     (now - ts < 60 - (1 # 2 ^ 48))%Q -> In ts kept)
      /\ (result.1 = true <-> (length kept < limit)%nat)
      /\ record_of result.2 k = (if result.1 then kept ++ [now] else kept)
      /\ (forall k', k <> k' -> result.2 !! k' = st !! k'))
  /\ (forall (st : gmap pystr (list Q)) (k : pystr) (t1 t2 t3 t4 t5 : Q),
        record_of st k = [] ->
        (t1 <= t2)%Q -> (t2 <= t3)%Q -> (t3 <= t4)%Q -> (t4 < t1 + 1)%Q ->
        (t1 + 60 < t5)%Q ->
        (run_checks 3 [(k, t1); (k, t2); (k, t3); (k, t4); (k, t5)] st).1
        = [true; true; true; false; true]).
Proof.
  split.
  - intros limit now st k kept result. subst result.
    rewrite check_rate_limit_at_unfold. fold kept. cbv zeta.
    assert (Hkept : forall ts,
              In ts kept
              <-> In ts (record_of st k) /\ (Float64.sub now ts < 60)%Q).
    { intros ts. unfold kept. by rewrite filter_In, within_window_rounded. }
    split; [done|]. split.
    { intros ts _ Hold Hin. apply Hkept in Hin as [_ Hin].
      apply round64_lt_60 in Hin. window_norm. lra. }
    split.
    { intros ts Hin Hnew. apply Hkept. split; [done|]. by apply round64_lt_60. }
    destruct (Nat.leb_spec limit (length kept)) as [Hle|Hlt]; cbn [fst snd].
    + split; [split; [done | lia]|].
      split; [apply record_of_insert|]. intros k' Hk. by apply lookup_insert_ne.
    + split; [done|].
      split; [apply record_of_insert|]. intros k' Hk. by apply lookup_insert_ne.
  - intros st k t1 t2 t3 t4 t5 Hfresh H12 H23 H34 H41 H15.
    assert (Hin : forall a b, (b - a < 2)%Q -> within_window b a = true).
    { intros a b Hab. apply within_window_iff. window_norm. lra. }
    assert (Hout : within_window t5 t1 = false).
    { destruct (within_window t5 t1) eqn:E; [|done].
      apply within_window_iff in E. window_norm. lra. }
    cbn [run_checks].
    rewrite check_rate_limit_at_unfold, Hfresh. cbn.
    rewrite check_rate_limit_at_unfold, record_of_insert. cbn.
    rewrite (Hin t1 t2) by lra. cbn.
    rewrite check_rate_limit_at_unfold, record_of_insert. cbn.
    rewrite (Hin t1 t3), (Hin t2 t3) by lra. cbn.
    rewrite check_rate_limit_at_unfold, record_of_insert. cbn.
    rewrite (Hin t1 t4), (Hin t2 t4), (Hin t3 t4) by lra. cbn.
    rewrite check_rate_limit_at_unfold, record_of_insert. cbn.
    rewrite Hout. by destruct (within_window t5 t2), (within_window t5 t3).
Qed.

Lemma check_rate_limit_sliding_window_witness :
  (run_checks 3
     [(py "10.0.0.1", 0%Q); (py "10.0.0.1", (1 # 4)%Q); (py "10.0.0.1", (1 # 2)%Q);
      (py "10.0.0.1", (3 # 4)%Q); (py "10.0.0.1", (121 # 2)%Q)] ∅).1
  = [true; true; true; false; true].
Proof.
  apply (proj2 check_rate_limit_sliding_window ∅ (py "10.0.0.1")
           0%Q (1 # 4)%Q (1 # 2)%Q (3 # 4)%Q (121 # 2)%Q);
    [reflexivity | | | | | ]; by vm_compute.
Defined.

(** ** The file lookup of the endpoints *)

Lemma is_relative_to_iff (p other : Path) :
  is_relative_to p other = true <->
  is_absolute p = is_absolute other /\ exists rest, parts p = parts other ++ rest.
Proof.
  unfold is_relative_to.
  rewrite andb_true_iff, !bool_decide_eq_true. split.
  - intros [Ha Ht]. split; [done|]. exists (drop (length (parts other)) (parts p)).
    rewrite <- Ht at 1. by rewrite take_drop.
  - intros [Ha [rest ->]]. split; [done|]. by rewrite take_app_length.
Qed.

(** Both loops look at a subdirectory in the same way. *)
Lemma find_matching_file_find (fs : FileSystem) (root : Path) (filename : pystr)
    (subdirs : list Path) :
  find_matching_file fs root filename subdirs
  = (fun subdir => joinpath subdir filename)
      <$> List.find (contained_candidate fs root filename) subdirs.
Proof.
  induction subdirs as [|subdir rest IH]; [done|].
  cbn [find_matching_file List.find]. unfold contained_candidate at 1, relative_to.
  destruct (is_dir fs subdir); [|done].
  destruct (exists_ fs (joinpath subdir filename)
            && is_file fs (joinpath subdir filename)); [|done].
  by destruct (is_relative_to _ root).
Qed.

Lemma collect_json_files_filter (fs : FileSystem) (root : Path) (filename : pystr)
    (subdirs : list Path) :
  collect_json_files fs root filename subdirs
  = map (fun subdir => joinpath subdir filename)
      (List.filter (contained_candidate fs root filename) subdirs).
Proof.
  induction subdirs as [|subdir rest IH]; [done|].
  cbn [collect_json_files List.filter]. unfold contained_candidate at 1, relative_to.
  destruct (is_dir fs subdir); [|done].
  destruct (exists_ fs (joinpath subdir filename)
            && is_file fs (joinpath subdir filename)); [|done].
  destruct (is_relative_to _ root); [|done]. cbn [map]. by rewrite IH.
Qed.

Lemma contained_candidate_relative (fs : FileSystem) (root : Path)
    (filename : pystr) (subdir : Path) :
  contained_candidate fs root filename subdir = true ->
  is_relative_to (resolve fs (joinpath subdir filename)) root = true.
Proof. unfold contained_candidate. rewrite !andb_true_iff. tauto. Qed.

Lemma filter_head_find {A : Type} (f : A -> bool) (l : list A) :
  head (List.filter f l) = List.find f l.
Proof.
  induction l as [|x l IH]; [done|]. cbn [List.filter List.find].
  by destruct (f x).
Qed.

(** What the two lookups answer, in one state of the file system. *)
Lemma lookup_unfold (fs : FileSystem) (filename : pystr) :
  let workflows_path := resolve fs (of_str (py "workflows")) in
  let answer :=
    match iterdir fs workflows_path with
    | None => HTTPException 500
    | Some subdirs =>
        match List.find (contained_candidate fs workflows_path filename) subdirs with
        | Some subdir => Return (joinpath subdir filename)
        | None => HTTPException 404
        end
    end in
  get_workflow_detail_lookup fs filename = answer
  /\ download_workflow_lookup fs filename = answer.
Proof.
  intros root answer. subst answer.
  unfold get_workflow_detail_lookup, download_workflow_lookup. fold root.
  destruct (iterdir fs root) as [subdirs|]; [|done].
  rewrite find_matching_file_find, collect_json_files_filter.
  rewrite <- filter_head_find.
  destruct (List.filter _ subdirs) as [|subdir others] eqn:Hf; [done|].
  cbn [head fmap option_fmap option_map map]. split; [done|].
  assert (Hc : contained_candidate fs root filename subdir = true).
  { assert (Hin : In subdir (List.filter (contained_candidate fs root filename)
                               subdirs)) by (rewrite Hf; by left).
    by apply filter_In in Hin as [_ Hin]. }
  apply contained_candidate_relative in Hc. unfold relative_to. by rewrite Hc.
Qed.

(** C1: a file returned by the lookup of [get_workflow_detail] or of
    [download_workflow] resolves, symbolic links followed, to a path that
    has the resolved storage root as a prefix of its components, whatever
    the file system answers. *)
Theorem lookup_returns_contained (fs : FileSystem) (filename : pystr) (file : Path) :
  get_workflow_detail_lookup fs filename = Return file
  \/ download_workflow_lookup fs filename = Return file ->
  let workflows_path := resolve fs (of_str (py "workflows")) in
  is_relative_to (resolve fs file) workflows_path = true
  /\ is_absolute (resolve fs file) = is_absolute workflows_path
  /\ exists rest, parts (resolve fs file) = parts workflows_path ++ rest.
Proof.
  intros H root.
  assert (Hrel : is_relative_to (resolve fs file) root = true).
  { destruct (lookup_unfold fs filename) as [H1 H2]. fold root in H1, H2.
    assert (Hanswer :
              match iterdir fs root with
              | None => HTTPException 500
              | Some subdirs =>
                  match List.find (contained_candidate fs root filename) subdirs with
                  | Some subdir => Return (joinpath subdir filename)
                  | None => HTTPException 404
                  end
              end = Return file).
    { destruct H as [H|H]; congruence. }
    destruct (iterdir fs root) as [subdirs|]; [|done].
    destruct (List.find _ subdirs) as [subdir|] eqn:Hfind; [|done].
    injection Hanswer as <-. apply find_some in Hfind as [_ Hc].
    by apply contained_candidate_relative in Hc. }
  split; [done|]. by apply is_relative_to_iff.
Qed.

Lemma lookup_returns_contained_witness :
  get_workflow_detail_lookup PlantedLink.fs (py "x.json")
  = Return PlantedLink.slack_file
  /\ is_relative_to (resolve PlantedLink.fs PlantedLink.slack_file)
       (resolve PlantedLink.fs (of_str (py "workflows"))) = true.
Proof.
  split; [reflexivity|].
  apply (lookup_returns_contained PlantedLink.fs (py "x.json")
           PlantedLink.slack_file).
  left. reflexivity.
Defined.

(** C3, as the code has it: a candidate that fails the containment check is
    skipped and the scan goes on.  Both lookups answer with the candidate of
    the first subdirectory, in listing order, whose candidate is a regular
    file resolving under the root, and with 404 when there is none, be it
    that no subdirectory holds the name or that every candidate escapes the
    root; neither ever answers 403. *)
Theorem lookup_skips_escaping (fs : FileSystem) (filename : pystr) :
  let workflows_path := resolve fs (of_str (py "workflows")) in
  let answer :=
    match iterdir fs workflows_path with
    | None => HTTPException 500
    | Some subdirs =>
        match List.find (contained_candidate fs workflows_path filename) subdirs with
        | Some subdir => Return (joinpath subdir filename)
        | None => HTTPException 404
        end
    end in
  get_workflow_detail_lookup fs filename = answer
  /\ download_workflow_lookup fs filename = answer
  /\ get_workflow_detail_lookup fs filename <> HTTPException 403
  /\ download_workflow_lookup fs filename <> HTTPException 403.
Proof.
  intros root answer. destruct (lookup_unfold fs filename) as [H1 H2].
  fold root in H1, H2. fold answer in H1, H2.
  assert (Hne : answer <> HTTPException 403).
  { subst answer. destruct (iterdir fs root) as [subdirs|]; [|done].
    by destruct (List.find _ subdirs). }
  rewrite H1, H2. done.
Qed.

(** C3, as stated, fails: with a symbolic link planted in the first
    subdirectory, no lookup answers 403.  The scan goes on to the next
    subdirectory and returns its file; when there is no other candidate the
    answer is the 404 of a missing file. *)
Lemma lookup_forbidden_counterexample :
  ~ (forall (fs : FileSystem) (filename : pystr) (name : pystr) (names : list pystr),
        let workflows_path := resolve fs (of_str (py "workflows")) in
        listdir fs workflows_path = Some (name :: names) ->
        escaping_candidate fs workflows_path filename (child workflows_path name)
        = true ->
        get_workflow_detail_lookup fs filename = HTTPException 403
        /\ download_workflow_lookup fs filename = HTTPException 403)
  /\ get_workflow_detail_lookup PlantedLink.fs (py "x.json")
     = Return PlantedLink.slack_file
  /\ download_workflow_lookup PlantedLink.fs (py "x.json")
     = Return PlantedLink.slack_file
  /\ get_workflow_detail_lookup PlantedLink.fs_evil_only (py "x.json")
     = HTTPException 404
  /\ download_workflow_lookup PlantedLink.fs_evil_only (py "x.json")
     = HTTPException 404.
Proof.
  split; [|by vm_compute].
  intros H.
  destruct (H PlantedLink.fs (py "x.json") (py "Evil") [py "Slack"]
              eq_refl eq_refl) as [H1 _].
  by vm_compute in H1.
Qed.

(** ** [determine_workflow_directory] *)

Lemma for_nodes_cons (body : option pystr -> Node -> option pystr)
    (best : option pystr) (node : Node) (rest : list Node) :
  for_nodes body best (node :: rest)
  = if is_specific (body best node) then body best node
    else for_nodes body (body best node) rest.
Proof. reflexivity. Qed.

Section ClassifierFacts.

Variable lower : pystr -> pystr.
Variable capitalize : pystr -> pystr.

Lemma scan_mappings_open (items : list (pystr * pystr)) (ty nm : pystr)
    (best : option pystr) :
  falsy best || is_generic best = true ->
  scan_mappings items ty nm best
  = match first_mapping items ty nm with
    | Some label => Some label
    | None => best
    end.
Proof.
  intros Hb. induction items as [|[key directory] rest IH]; [done|].
  cbn [scan_mappings first_mapping].
  destruct (PyStr.contains key ty || PyStr.contains key nm); [|done].
  by rewrite Hb.
Qed.

Lemma scan_mappings_closed (items : list (pystr * pystr)) (ty nm : pystr)
    (best : option pystr) :
  falsy best || is_generic best = false ->
  scan_mappings items ty nm best = best.
Proof.
  intros Hb. induction items as [|[key directory] rest IH]; [done|].
  cbn [scan_mappings]. rewrite Hb.
  by destruct (PyStr.contains key ty || PyStr.contains key nm).
Qed.

(** A key of the table that is found makes the table answer. *)
Lemma first_mapping_has_key (items : list (pystr * pystr)) (key ty nm : pystr) :
  has_key key items = true ->
  PyStr.contains key ty || PyStr.contains key nm = true ->
  is_Some (first_mapping items ty nm).
Proof.
  intros Hk Hc. induction items as [|[k d] rest IH]; [done|].
  unfold has_key in Hk. cbn [existsb fst] in Hk. cbn [first_mapping].
  destruct (PyStr.contains k ty || PyStr.contains k nm) eqn:Hh; [by eexists|].
  apply orb_true_iff in Hk as [Hk|Hk]; [|by apply IH].
  apply eqb_iff in Hk as ->. congruence.
Qed.

Lemma first_mapping_none_webhook (ty nm : pystr) :
  first_mapping service_mappings ty nm = None ->
  PyStr.contains (py "webhook") ty || PyStr.contains (py "webhook") nm = false.
Proof.
  intros Hn. destruct (_ || _) eqn:Hc; [|done].
  destruct (first_mapping_has_key service_mappings (py "webhook") ty nm) as [l Hl];
    [by vm_compute | done | congruence].
Qed.

Lemma first_mapping_none_schedule (ty nm : pystr) :
  first_mapping service_mappings ty nm = None ->
  PyStr.contains (py "cron") ty || PyStr.contains (py "schedule") ty = false.
Proof.
  intros Hn. destruct (_ || _) eqn:Hc; [|done].
  apply orb_true_iff in Hc as [Hc|Hc].
  - destruct (first_mapping_has_key service_mappings (py "cron") ty nm) as [l Hl];
      [by vm_compute | by rewrite Hc | congruence].
  - destruct (first_mapping_has_key service_mappings (py "schedule") ty nm)
      as [l Hl]; [by vm_compute | by rewrite Hc | congruence].
Qed.

Lemma is_generic_manual (best : option pystr) :
  is_label best (py "Manual") = true -> is_generic best = true.
Proof. unfold is_generic. by intros ->. Qed.

(** What one iteration does to [primary_service]. *)
Lemma visit_node_eq (best : option pystr) (node : Node) :
  visit_node lower best node
  = if falsy best || is_generic best
    then match first_mapping service_mappings
                 (lower (default [] (node_type_field node)))
                 (lower (default [] (node_name_field node))) with
         | Some label => Some label
         | None => best
         end
    else best.
Proof.
  unfold visit_node. cbv zeta.
  set (ty := lower (default [] (node_type_field node))).
  set (nm := lower (default [] (node_name_field node))).
  destruct (falsy best || is_generic best) eqn:Hb.
  - set (b1 := if PyStr.contains (py "webhook") ty
                  || PyStr.contains (py "webhook") nm
               then if falsy best || is_label best (py "Manual")
                    then Some (py "Webhook") else best
               else best).
    assert (H1 : falsy b1 || is_generic b1 = true).
    { subst b1. destruct (_ || PyStr.contains (py "webhook") nm); [|done].
      by destruct (falsy best || is_label best (py "Manual")). }
    set (b2 := if PyStr.contains (py "cron") ty
                  || PyStr.contains (py "schedule") ty
               then if falsy b1 || is_label b1 (py "Manual")
                    then Some (py "Schedule") else b1
               else b1).
    assert (H2 : falsy b2 || is_generic b2 = true).
    { subst b2. destruct (_ || PyStr.contains (py "schedule") ty); [|done].
      by destruct (falsy b1 || is_label b1 (py "Manual")). }
    rewrite scan_mappings_open by done.
    destruct (first_mapping service_mappings ty nm) eqn:Hf; [done|].
    subst b2 b1.
    rewrite (first_mapping_none_webhook ty nm Hf).
    by rewrite (first_mapping_none_schedule ty nm Hf).
  - apply orb_false_iff in Hb as [Hf Hg].
    assert (Hm : is_label best (py "Manual") = false).
    { destruct (is_label best (py "Manual")) eqn:E; [|done].
      apply is_generic_manual in E. congruence. }
    rewrite Hf, Hm. cbn [orb].
    assert ((if PyStr.contains (py "webhook") ty
                || PyStr.contains (py "webhook") nm then best else best) = best)
      as -> by (by destruct (_ || _)).
    rewrite Hf, Hm. cbn [orb].
    assert ((if PyStr.contains (py "cron") ty
                || PyStr.contains (py "schedule") ty then best else best) = best)
      as -> by (by destruct (_ || _)).
    apply scan_mappings_closed. by rewrite Hf, Hg.
Qed.

(** C6, as the code has it: nodes are visited in declaration order; at a
    node, while [primary_service] is unset or one of the placeholders
    ["Manual"], ["Webhook"], ["Schedule"], the label of the first keyword
    of the table found in the lowercase type or name replaces it, and the
    table, which holds ["webhook"], ["schedule"] and ["cron"] itself,
    answers for every node that the separate ["webhook"] and
    ["cron"]/["schedule"] tests catch; a specific label is never
    replaced, and the scan stops as soon as one is held. *)
Theorem visit_node_takes_first_mapping :
  (forall (best : option pystr) (node : Node),
      visit_node lower best node
      = if falsy best || is_generic best
        then match first_mapping service_mappings
                     (lower (default [] (node_type_field node)))
                     (lower (default [] (node_name_field node))) with
             | Some label => Some label
             | None => best
             end
        else best)
  /\ (forall (ty nm : pystr),
         PyStr.contains (py "webhook") ty || PyStr.contains (py "webhook") nm
         = true ->
         is_Some (first_mapping service_mappings ty nm))
  /\ (forall (ty nm : pystr),
         PyStr.contains (py "cron") ty || PyStr.contains (py "schedule") ty
         = true ->
         is_Some (first_mapping service_mappings ty nm))
  /\ (forall (best : option pystr) (node : Node) (rest : list Node),
         is_specific (visit_node lower best node) = true ->
         scan_nodes lower best (node :: rest) = visit_node lower best node)
  /\ (forall (best : option pystr) (node : Node) (rest : list Node),
         is_specific (visit_node lower best node) = false ->
         scan_nodes lower best (node :: rest)
         = scan_nodes lower (visit_node lower best node) rest).
Proof.
  split; [apply visit_node_eq|]. split; [|split; [|split]].
  - intros ty nm H.
    destruct (first_mapping service_mappings ty nm) eqn:Hf; [by eexists|].
    apply first_mapping_none_webhook in Hf. congruence.
  - intros ty nm H.
    destruct (first_mapping service_mappings ty nm) eqn:Hf; [by eexists|].
    apply first_mapping_none_schedule in Hf. congruence.
  - intros best node rest H. unfold scan_nodes.
    by rewrite for_nodes_cons, H.
  - intros best node rest H. unfold scan_nodes.
    by rewrite for_nodes_cons, H.
Qed.

(** C7, as the code has it: when the scan leaves [primary_service] unset
    or ["Manual"], the first node's type gives the label only if it
    contains ["n8n-nodes-base."]: every occurrence of that prefix is
    removed, the segment before the first ["."] is taken and passed to
    [str.capitalize]; any other type, the empty one included, gives
    ["Manual"]. *)
Theorem first_type_fallback (first_node : Node) (rest : list Node) :
  let nodes := first_node :: rest in
  let first_node_type := default [] (node_type_field first_node) in
  falsy (scan_nodes lower None nodes)
  || is_label (scan_nodes lower None nodes) (py "Manual") = true ->
  determine_workflow_directory lower capitalize nodes
  = (if PyStr.contains VENDOR_PREFIX first_node_type
     then capitalize
            (PyStr.split_head DOT (PyStr.replace VENDOR_PREFIX [] first_node_type))
     else py "Manual")
  /\ (first_node_type = [] ->
      determine_workflow_directory lower capitalize nodes = py "Manual").
Proof.
  intros nodes ty H.
  assert (Heq : determine_workflow_directory lower capitalize nodes
                = label_of_first_type capitalize ty).
  { unfold determine_workflow_directory, nodes. fold nodes. by rewrite H. }
  split; [by rewrite Heq|]. intros Hty. rewrite Heq, Hty. done.
Qed.

End ClassifierFacts.

(** C6, as stated, fails: a node of type ["n8n-nodes-base.cron"] contains
    ["cron"] and no ["webhook"], so the scan as specified ends with
    ["Schedule"]; the code ends with ["Cron"], the label the table gives to
    the keyword ["cron"]. *)
Lemma scan_nodes_counterexample :
  spec_scan_nodes PyStr.ascii_lower None [cron_node] = Some (py "Schedule")
  /\ scan_nodes PyStr.ascii_lower None [cron_node] = Some (py "Cron")
  /\ scan_nodes PyStr.ascii_lower None [cron_node]
     <> spec_scan_nodes PyStr.ascii_lower None [cron_node]
  /\ determine_workflow_directory PyStr.ascii_lower PyStr.ascii_capitalize [cron_node]
     = py "Cron".
Proof. by vm_compute. Qed.

(** C7, as stated, fails: the first node's type ["foo"] is not empty and
    the scan leaves [primary_service] unset, yet the code returns ["Manual"]
    and not the label ["Foo"] derived from the type. *)
Lemma first_type_fallback_counterexample :
  node_type_field plain_node <> Some []
  /\ scan_nodes PyStr.ascii_lower None [plain_node] = None
  /\ spec_label_of_type (py "foo") = py "Foo"
  /\ determine_workflow_directory PyStr.ascii_lower PyStr.ascii_capitalize [plain_node]
     = py "Manual"
  /\ determine_workflow_directory PyStr.ascii_lower PyStr.ascii_capitalize [plain_node]
     <> spec_label_of_type (py "foo").
Proof. by vm_compute. Qed.

Lemma first_type_fallback_witness :
  determine_workflow_directory PyStr.ascii_lower PyStr.ascii_capitalize
    [item_lists_node]
  = py "Itemlists".
Proof.
  destruct (first_type_fallback PyStr.ascii_lower PyStr.ascii_capitalize
              item_lists_node [] eq_refl) as [-> _].
  reflexivity.
Defined.

(** ** [generate_mermaid_diagram] *)

(** C8, as the code has it: for an empty node sequence the renderer
    returns, whatever the connections, one fixed text of two lines, the
    header [graph TD] and a placeholder node. *)
Theorem empty_diagram_is_placeholder (lower : pystr -> pystr)
    (connections : list (pystr * json)) :
  generate_mermaid_diagram lower [] connections = Some EMPTY_DIAGRAM
  /\ PyStr.split LF EMPTY_DIAGRAM
     = [py "graph TD"; py "  EmptyWorkflow[No nodes found in workflow]"]
  /\ line_count EMPTY_DIAGRAM = 2%nat.
Proof. repeat split. Qed.

(** C8, as stated, fails: the text returned for an empty node sequence is
    not a single line. *)
Lemma empty_diagram_counterexample :
  ~ (forall (lower : pystr -> pystr) (connections : list (pystr * json)),
        exists diagram,
          generate_mermaid_diagram lower [] connections = Some diagram
          /\ line_count diagram = 1%nat).
Proof.
  intros H. destruct (H PyStr.ascii_lower []) as (diagram & Hd & Hl).
  injection Hd as <-. by vm_compute in Hl.
Qed.

(** The two-node example: one edge, two styled declarations. *)
Example two_node_diagram :
  generate_mermaid_diagram PyStr.ascii_lower
    [mkNode (Some (py "webhook")) (Some (py "A"));
     mkNode (Some (py "httpRequest")) (Some (py "B"))]
    [(py "A", JDict [(py "main", JList [JList [JDict [(py "node", JStr (py "B"))]]])])]
  = Some (PyStr.join [LF]
            [py "graph TD";
             py "  node0[" ++ [DQUOTE] ++ py "A<br>(webhook)" ++ [DQUOTE] ++ py "]";
             py "  style node0 fill:#b3e0ff,stroke:#0066cc";
             py "  node1[" ++ [DQUOTE] ++ py "B<br>(httpRequest)" ++ [DQUOTE] ++ py "]";
             py "  style node1 fill:#d9d9d9,stroke:#666666";
             py "  node0 --> node1"]).
Proof. by vm_compute. Qed.

(** ** Further examples *)

(** A single node of type ["n8n-nodes-base.slack"] is classified as
    ["Slack"], and a document without nodes as ["Manual"]. *)
Example classify_slack :
  determine_workflow_directory PyStr.ascii_lower PyStr.ascii_capitalize
    [mkNode (Some (py "n8n-nodes-base.slack")) (Some (py "Post"))]
  = py "Slack"
  /\ determine_workflow_directory PyStr.ascii_lower PyStr.ascii_capitalize []
     = py "Manual".
Proof. by vm_compute. Qed.

(** A keyword of the table in the name wins over the ["webhook"] of the
    type, and a later placeholder replaces an earlier one. *)
Example classify_precedence :
  determine_workflow_directory PyStr.ascii_lower PyStr.ascii_capitalize
    [mkNode (Some (py "n8n-nodes-base.webhook")) (Some (py "Slack Webhook"))]
  = py "Slack"
  /\ determine_workflow_directory PyStr.ascii_lower PyStr.ascii_capitalize
       [mkNode (Some (py "n8n-nodes-base.scheduleTrigger")) (Some (py "s"));
        mkNode (Some (py "n8n-nodes-base.webhook")) (Some (py "w"))]
     = py "Webhook".
Proof. by vm_compute. Qed.

(** Percent-decoding of multi-byte UTF-8, of a stray ["%"], and of an
    invalid sequence. *)
Example unquote_examples :
  Urllib.unquote (py "%C3%A9%zz%4") = Some (233%N :: py "%zz%4")
  /\ Urllib.unquote (py "%ff.json") = None
  /\ decode_passes 3 (py "%25252e") = Some (py ".").
Proof. by vm_compute. Qed.

Lemma visit_node_takes_first_mapping_witness :
  visit_node PyStr.ascii_lower None cron_node = Some (py "Cron")
  /\ scan_nodes PyStr.ascii_lower None [cron_node; plain_node] = Some (py "Cron").
Proof.
  destruct (visit_node_takes_first_mapping PyStr.ascii_lower)
    as (Hvisit & _ & _ & Hstop & _).
  split.
  - rewrite Hvisit. reflexivity.
  - rewrite Hstop; [rewrite Hvisit; reflexivity|].
    rewrite Hvisit. reflexivity.
Defined.

(* ===================================================================== *)
(** * Part II, continued: properties of the rest of the code *)
(* ===================================================================== *)

(** ** Runs of [check_rate_limit] *)

Lemma run_checks_cons (limit : nat) (k : pystr) (t : Q) (calls : list (pystr * Q))
    (st : gmap pystr (list Q)) :
  run_checks limit ((k, t) :: calls) st
  = ((check_rate_limit_at limit t st k).1
       :: (run_checks limit calls (check_rate_limit_at limit t st k).2).1,
     (run_checks limit calls (check_rate_limit_at limit t st k).2).2).
Proof.
  cbn [run_checks]. destruct (check_rate_limit_at limit t st k) as [a st1].
  cbn [fst snd]. by destruct (run_checks limit calls st1).
Qed.

(** The answer and the new record of the key, from its old record alone. *)
Lemma check_rate_limit_at_record (limit : nat) (now : Q)
    (st : gmap pystr (list Q)) (k : pystr) :
  let kept := List.filter (within_window now) (record_of st k) in
  (check_rate_limit_at limit now st k).1 = negb (limit <=? length kept)%nat
  /\ record_of (check_rate_limit_at limit now st k).2 k
     = (if (limit <=? length kept)%nat then kept else kept ++ [now])
  /\ forall k', k <> k' ->
       record_of (check_rate_limit_at limit now st k).2 k' = record_of st k'.
Proof.
  intros kept. rewrite check_rate_limit_at_unfold. fold kept. cbv zeta.
  destruct (limit <=? length kept)%nat; cbn [fst snd negb];
    (split; [done|]; split; [apply record_of_insert|]);
    intros k' Hk; by apply record_of_insert_ne.
Qed.

Lemma filter_length_le {A : Type} (f : A -> bool) (l : list A) :
  (length (List.filter f l) <= length l)%nat.
Proof.
  induction l as [|x l IH]; [done|]. cbn [List.filter].
  destruct (f x); simpl; lia.
Qed.

Lemma filter_length_mono {A : Type} (f g : A -> bool) (l : list A) :
  (forall x, In x l -> f x = true -> g x = true) ->
  (length (List.filter f l) <= length (List.filter g l))%nat.
Proof.
  induction l as [|x l IH]; [done|]. intros H. cbn [List.filter].
  assert (IH' := IH (fun y Hy => H y (or_intror Hy))).
  destruct (f x) eqn:Hf.
  - rewrite (H x (or_introl eq_refl) Hf). simpl. lia.
  - destruct (g x); simpl; lia.
Qed.

Lemma filter_filter_implied {A : Type} (f g : A -> bool) (l : list A) :
  (forall x, f x = true -> g x = true) ->
  List.filter f (List.filter g l) = List.filter f l.
Proof.
  intros H. induction l as [|x l IH]; [done|]. cbn [List.filter].
  destruct (g x) eqn:Hg; cbn [List.filter].
  - by rewrite IH.
  - destruct (f x) eqn:Hf; [|done]. apply H in Hf. congruence.
Qed.

Lemma in_window_iff (width stop ts : Q) :
  in_window width stop ts = true <-> (stop - width < ts)%Q /\ (ts <= stop)%Q.
Proof.
  unfold in_window. destruct (Qlt_le_dec (stop - width) ts), (Qlt_le_dec stop ts);
    cbn [andb]; split; try done; try (intros [? ?]; lra).
Qed.

(** The stored records never exceed the limit, whatever the clock does. *)
Lemma run_checks_bounded (limit : nat) (calls : list (pystr * Q))
    (st : gmap pystr (list Q)) :
  (forall k, (length (record_of st k) <= limit)%nat) ->
  forall k, (length (record_of (run_checks limit calls st).2 k) <= limit)%nat.
Proof.
  revert st. induction calls as [|[k0 t] calls IH]; intros st Hst k; [apply Hst|].
  rewrite run_checks_cons. cbn [snd]. apply IH. clear k. intros k.
  destruct (check_rate_limit_at_record limit t st k0) as (_ & Hrec & Hother).
  destruct (decide (k0 = k)) as [<-|Hne]; [|rewrite Hother by done; apply Hst].
  rewrite Hrec.
  destruct (Nat.leb_spec limit
              (length (List.filter (within_window t) (record_of st k0)))) as [Hle|Hlt].
  - pose proof (filter_length_le (within_window t) (record_of st k0)).
    specialize (Hst k0). lia.
  - rewrite length_app. simpl. lia.
Qed.

(** X1: starting from an empty store, no key ever has more than [limit]
    timestamps on record, for any calls and any readings of the clock. *)
Theorem stored_record_bounded (limit : nat) (calls : list (pystr * Q)) (k : pystr) :
  (length (record_of (run_checks limit calls ∅).2 k) <= limit)%nat.
Proof.
  apply run_checks_bounded. intros k'. unfold record_of.
  rewrite lookup_empty. simpl. lia.
Qed.

Lemma within_window_later (t now ts : Q) :
  (t <= now)%Q -> within_window now ts = true -> within_window t ts = true.
Proof. rewrite !within_window_iff. lra. Qed.

(** The invariant of a run whose clock never runs backwards: at any later
    moment, the timestamps of a key still in its window are on record
    exactly when they were granted. *)
Lemma run_checks_window (limit : nat) (width : Q) (calls : list (pystr * Q)) :
  (width <= 60 - (1 # 2 ^ 48))%Q ->
  forall (st : gmap pystr (list Q)) (start : Q) (granted : pystr -> list Q),
    clock_from start calls ->
    (forall k now, (start <= now)%Q ->
        List.filter (within_window now) (granted k)
        = List.filter (within_window now) (record_of st k)) ->
    (forall k stop,
        (length (List.filter (in_window width stop) (granted k)) <= limit)%nat) ->
    forall k stop,
      (length (List.filter (in_window width stop)
                 (granted k
                  ++ granted_times k calls (run_checks limit calls st).1))
       <= limit)%nat.
Proof.
  intros Hwidth.
  induction calls as [|[k0 t] calls IH]; intros st start granted Hclock Hinv Hbound k stop.
  - cbn [run_checks fst granted_times]. rewrite app_nil_r. apply Hbound.
  - destruct Hclock as [Hstart Hclock]. rewrite run_checks_cons. cbn [fst granted_times].
    destruct (check_rate_limit_at_record limit t st k0) as (Hans & Hrec & Hother).
    set (a := (check_rate_limit_at limit t st k0).1) in *.
    set (st1 := (check_rate_limit_at limit t st k0).2) in *.
    set (kept := List.filter (within_window t) (record_of st k0)) in *.
    set (granted1 := fun k' =>
           if a && PyStr.eqb k0 k' then granted k' ++ [t] else granted k').
    assert (Hkept : forall now, (t <= now)%Q ->
              List.filter (within_window now) kept
              = List.filter (within_window now) (granted k0)).
    { intros now Hnow. unfold kept. rewrite filter_filter_implied.
      - symmetry. apply Hinv. lra.
      - intros ts. by apply within_window_later. }
    assert (Hgoal : (length (List.filter (in_window width stop)
                       (granted1 k
                        ++ granted_times k calls (run_checks limit calls st1).1))
                     <= limit)%nat).
    { apply (IH st1 t granted1 Hclock).
      - intros k' now Hnow. unfold granted1.
        destruct (decide (k0 = k')) as [<-|Hne].
        + assert (PyStr.eqb k0 k0 = true) as -> by by apply eqb_iff.
          rewrite andb_true_r, Hrec, Hans.
          destruct (limit <=? length kept)%nat; cbn [negb].
          * by rewrite Hkept.
          * by rewrite !List.filter_app, Hkept.
        + assert (PyStr.eqb k0 k' = false) as ->.
          { apply bool_decide_eq_false. done. }
          rewrite andb_false_r, Hother by done. apply Hinv. lra.
      - intros k' stop'. unfold granted1.
        destruct (a && PyStr.eqb k0 k') eqn:Ha; [|apply Hbound].
        apply andb_true_iff in Ha as [Ha Hk]. apply eqb_iff in Hk as <-.
        rewrite List.filter_app, length_app. cbn [List.filter].
        destruct (in_window width stop' t) eqn:Hw;
          [|cbn [length]; specialize (Hbound k0 stop'); lia].
        apply in_window_iff in Hw as [Hw1 Hw2].
        assert (Hmono : (length (List.filter (in_window width stop') (granted k0))
                         <= length (List.filter (within_window t) (granted k0)))%nat).
        { apply filter_length_mono. intros ts _ Hts.
          apply in_window_iff in Hts as [Hts1 Hts2]. apply within_window_iff. lra. }
        rewrite <- (Hkept t) in Hmono by lra.
        assert (Hidem : List.filter (within_window t) kept = kept).
        { unfold kept. by apply filter_filter_implied. }
        rewrite Hidem in Hmono.
        rewrite Hans in Ha. apply negb_true_iff, Nat.leb_gt in Ha.
        cbn [length]. lia. }
    unfold granted1 in Hgoal.
    destruct (a && PyStr.eqb k0 k); [by rewrite <- app_assoc in Hgoal | done].
Qed.

(** X2: in a run that starts from an empty store and whose clock never runs
    backwards, at most [limit] calls of a key are granted within any window
    of [60 - 2^-48] seconds or less (start excluded, end included).  The
    bound does not hold for a window of 60 seconds: with a limit of 1, the
    readings [2^-60] and [60.0] are both granted, their float difference
    being [60.0]. *)
Theorem granted_within_any_window :
  (forall (limit : nat) (calls : list (pystr * Q)) (k : pystr)
          (start stop width : Q),
      clock_from start calls ->
      (width <= 60 - (1 # 2 ^ 48))%Q ->
      (length (List.filter (in_window width stop)
                 (granted_times k calls (run_checks limit calls ∅).1))
       <= limit)%nat)
  /\ (clock_from 0 edge_calls
      /\ (run_checks 1 edge_calls ∅).1 = [true; true]
      /\ List.filter (in_window 60 60)
           (granted_times (py "10.0.0.1") edge_calls (run_checks 1 edge_calls ∅).1)
         = [(1 # 2 ^ 60)%Q; 60%Q]).
Proof.
  split.
  - intros limit calls k start stop width Hclock Hwidth.
    apply (run_checks_window limit width calls Hwidth ∅ start (fun _ => []) Hclock).
    + intros k' now _. unfold record_of. by rewrite lookup_empty.
    + intros k' stop'. simpl. lia.
  - split; [|split]; by vm_compute.
Qed.

Lemma granted_within_any_window_witness :
  (length (List.filter (in_window 59 59)
             (granted_times (py "10.0.0.1")
                [(py "10.0.0.1", 1%Q); (py "10.0.0.2", 2%Q);
                 (py "10.0.0.1", 30%Q); (py "10.0.0.1", 59%Q);
                 (py "10.0.0.1", 60%Q)]
                (run_checks 2
                   [(py "10.0.0.1", 1%Q); (py "10.0.0.2", 2%Q);
                    (py "10.0.0.1", 30%Q); (py "10.0.0.1", 59%Q);
                    (py "10.0.0.1", 60%Q)] ∅).1))
   <= 2)%nat.
Proof.
  apply (proj1 granted_within_any_window 2 _ (py "10.0.0.1") 0%Q 59%Q 59%Q).
  - repeat split; by vm_compute.
  - by vm_compute.
Defined.

Lemma run_checks_one_key (limit : nat) (k : pystr) (calls : list (pystr * Q)) :
  forall st1 st2 : gmap pystr (list Q),
    record_of st1 k = record_of st2 k ->
    answers_for k calls (run_checks limit calls st1).1
    = (run_checks limit (calls_of k calls) st2).1
    /\ record_of (run_checks limit calls st1).2 k
       = record_of (run_checks limit (calls_of k calls) st2).2 k.
Proof.
  induction calls as [|[k0 t] calls IH]; intros st1 st2 Hst; [done|].
  rewrite run_checks_cons. cbn [fst snd answers_for]. unfold calls_of.
  cbn [List.filter fst]. fold (calls_of k calls).
  destruct (check_rate_limit_at_record limit t st1 k0) as (Hans1 & Hrec1 & Hother1).
  destruct (decide (k0 = k)) as [->|Hne].
  - assert (PyStr.eqb k k = true) as -> by by apply eqb_iff.
    rewrite run_checks_cons. cbn [fst snd].
    destruct (check_rate_limit_at_record limit t st2 k) as (Hans2 & Hrec2 & _).
    assert (Hrec : record_of (check_rate_limit_at limit t st1 k).2 k
                   = record_of (check_rate_limit_at limit t st2 k).2 k).
    { by rewrite Hrec1, Hrec2, Hst. }
    destruct (IH _ _ Hrec) as [IH1 IH2]. split; [|done].
    f_equal; [|done]. by rewrite Hans1, Hans2, Hst.
  - assert (PyStr.eqb k0 k = false) as -> by by apply bool_decide_eq_false.
    apply IH. by rewrite Hother1.
Qed.

(** X3: the calls of other keys change neither the answers given to a key
    nor its record: both are what the calls of that key alone produce. *)
Theorem keys_are_independent (limit : nat) (calls : list (pystr * Q))
    (st : gmap pystr (list Q)) (k : pystr) :
  answers_for k calls (run_checks limit calls st).1
  = (run_checks limit (calls_of k calls) st).1
  /\ record_of (run_checks limit calls st).2 k
     = record_of (run_checks limit (calls_of k calls) st).2 k.
Proof. by apply run_checks_one_key. Qed.

(** ** The handlers of the file endpoints *)

(** An accepted name joins a directory as one entry of that very name. *)
Lemma accepted_joinpath (filename : pystr) (subdir : Path) :
  validate_filename filename = true ->
  joinpath subdir filename = child subdir filename.
Proof.
  intros Hv.
  destruct (validate_filename_true filename Hv) as (decoded & Hd & Hclean & _).
  assert (Hslash : PyStr.contains (py "/") filename = false).
  { destruct (PyStr.contains (py "/") filename) eqn:Hc; [|done].
    rewrite <- (Hclean (py "/")); [|unfold dangerous_patterns; set_solver].
    symmetry. by apply (decode_passes_keeps 3 (py "/") filename decoded). }
  assert (Hstart : PyStr.startswith filename [SLASH] = false).
  { destruct (PyStr.startswith filename [SLASH]) eqn:E; [|done].
    apply startswith_contains in E. change [SLASH] with (py "/") in E. congruence. }
  unfold joinpath, child. rewrite Hstart. f_equal. f_equal. unfold parse_parts.
  rewrite (split_without_sep SLASH filename Hslash). cbn [List.filter].
  assert (PyStr.eqb filename [] = false) as ->.
  { apply bool_decide_eq_false. intros ->. by vm_compute in Hv. }
  assert (PyStr.eqb filename (py ".") = false) as ->.
  { apply bool_decide_eq_false. intros ->. by vm_compute in Hv. }
  done.
Qed.

(** What the loop of the lookups finds is the candidate of a listed entry
    and resolves under the root. *)
Lemma find_matching_file_entry (fs : FileSystem) (root : Path) (filename : pystr)
    (names : list pystr) (p : Path) :
  find_matching_file fs root filename (map (child root) names) = Some p ->
  exists name, In name names /\ p = joinpath (child root name) filename
               /\ is_relative_to (resolve fs p) root = true.
Proof.
  rewrite find_matching_file_find.
  destruct (List.find _ _) as [subdir|] eqn:Hf; [|done]. intros [= <-].
  apply find_some in Hf as [Hin Hc]. apply in_map_iff in Hin as (name & <- & Hin).
  exists name. split; [done|]. split; [done|].
  by apply contained_candidate_relative in Hc.
Qed.

Lemma lookup_entry (fs : FileSystem) (filename : pystr) (p : Path) :
  get_workflow_detail_lookup fs filename = Return p
  \/ download_workflow_lookup fs filename = Return p
  \/ get_workflow_diagram_lookup fs filename = Return p ->
  let root := resolve fs (of_str (py "workflows")) in
  exists names name,
    listdir fs root = Some names /\ In name names
    /\ p = joinpath (child root name) filename
    /\ is_relative_to (resolve fs p) root = true.
Proof.
  intros H root.
  assert (Hfind : exists names,
            listdir fs root = Some names
            /\ find_matching_file fs root filename (map (child root) names) = Some p).
  { destruct (lookup_unfold fs filename) as [H1 H2]. fold root in H1, H2.
    assert (Hd : get_workflow_detail_lookup fs filename = Return p).
    { destruct H as [H | [H | H]]; [done | by rewrite H1, <- H2 |].
      unfold get_workflow_diagram_lookup in H. by unfold get_workflow_detail_lookup. }
    unfold get_workflow_detail_lookup, iterdir in Hd. fold root in Hd.
    destruct (listdir fs root) as [names|]; [|done]. exists names. split; [done|].
    cbn [fmap option_fmap option_map] in Hd.
    destruct (find_matching_file fs root filename (map (child root) names));
      [by injection Hd as -> | done]. }
  destruct Hfind as (names & Hl & Hf). exists names.
  destruct (find_matching_file_entry fs root filename names p Hf) as (name & ? & ? & ?).
  by exists name.
Qed.

(** X4: whatever the file system, the database and the rate-limit storage
    answer, a file that [get_workflow_detail] opens, [download_workflow]
    serves, [get_workflow_diagram] opens or [delete_workflow] unlinks is the
    entry, named exactly as the accepted request name, of a listed
    subdirectory of the resolved storage root, and it resolves under that
    root. *)
Theorem handlers_use_listed_entry (fs : FileSystem) (db : Database) (now : Q)
    (st : gmap pystr (list Q)) (client : option pystr) (filename : pystr) (p : Path) :
  (get_workflow_detail_file fs db now st client filename).1 = Return p
  \/ (download_workflow_file fs now st client filename).1 = Return p
  \/ (get_workflow_diagram_file fs now st client filename).1 = Return p
  \/ (delete_workflow_file fs db now st client filename).1 = Return (Some p) ->
  let root := resolve fs (of_str (py "workflows")) in
  validate_filename filename = true
  /\ exists names name,
       listdir fs root = Some names /\ In name names
       /\ p = child (child root name) filename
       /\ is_relative_to (resolve fs p) root = true.
Proof.
  intros H root.
  assert (Hv : validate_filename filename = true).
  { destruct (validate_filename filename) eqn:Hv; [done|]. exfalso.
    unfold get_workflow_detail_file, download_workflow_file,
      get_workflow_diagram_file, delete_workflow_file in H.
    rewrite Hv in H. cbn [negb fst] in H. by destruct H as [H | [H | [H | H]]]. }
  split; [done|].
  assert (Hentry : exists names name,
            listdir fs root = Some names /\ In name names
            /\ p = joinpath (child root name) filename
            /\ is_relative_to (resolve fs p) root = true).
  { unfold get_workflow_detail_file, download_workflow_file,
      get_workflow_diagram_file, delete_workflow_file in H.
    rewrite Hv in H. cbn [negb] in H.
    destruct (check_rate_limit now st (client_ip_of client)) as [allowed st1].
    destruct allowed; cbn [negb fst] in H;
      [|by destruct H as [H | [H | [H | H]]]].
    destruct H as [H | [H | [H | H]]].
    - destruct (db_has_filename db filename) as [[|]|]; try done.
      apply (lookup_entry fs filename p). by left.
    - apply (lookup_entry fs filename p). right. by left.
    - apply (lookup_entry fs filename p). right. by right.
    - destruct (db_has_filename db filename) as [[|]|]; try done.
      fold root in H. unfold iterdir in H.
      destruct (listdir fs root) as [names|] eqn:Hl; [|done].
      cbn [fmap option_fmap option_map] in H.
      destruct (db_delete_workflow db filename) as [[|]|]; try done.
      cbn [fst] in H. injection H as H. exists names.
      destruct (find_matching_file_entry fs root filename names p H)
        as (name & ? & ? & ?).
      by exists name. }
  destruct Hentry as (names & name & Hl & Hin & -> & Hrel).
  rewrite (accepted_joinpath filename (child root name) Hv) in Hrel.
  exists names, name. by rewrite (accepted_joinpath filename (child root name) Hv).
Qed.

Lemma handlers_use_listed_entry_witness :
  (delete_workflow_file PlantedLink.fs agreeable_db 0 ∅ None (py "x.json")).1
  = Return (Some PlantedLink.slack_file)
  /\ PlantedLink.slack_file
     = child (child PlantedLink.root (py "Slack")) (py "x.json").
Proof.
  split; [reflexivity|].
  destruct (handlers_use_listed_entry PlantedLink.fs agreeable_db 0 ∅ None
              (py "x.json") PlantedLink.slack_file)
    as (_ & names & name & _ & _ & _ & _).
  - right. right. right. reflexivity.
  - reflexivity.
Defined.

(** X5: a request whose name [validate_filename] rejects is answered 400 by
    the four handlers before the rate limiter is called: the rate-limit
    storage is left as it was. *)
Theorem invalid_name_costs_no_budget (fs : FileSystem) (db : Database) (now : Q)
    (st : gmap pystr (list Q)) (client : option pystr) (filename : pystr) :
  validate_filename filename = false ->
  get_workflow_detail_file fs db now st client filename = (HTTPException 400, st)
  /\ download_workflow_file fs now st client filename = (HTTPException 400, st)
  /\ get_workflow_diagram_file fs now st client filename = (HTTPException 400, st)
  /\ delete_workflow_file fs db now st client filename = (HTTPException 400, st).
Proof.
  intros Hv. unfold get_workflow_detail_file, download_workflow_file,
    get_workflow_diagram_file, delete_workflow_file. by rewrite Hv.
Qed.

Lemma invalid_name_costs_no_budget_witness :
  get_workflow_detail_file PlantedLink.fs agreeable_db 0 ∅ None (py "../x.json")
  = (HTTPException 400, ∅).
Proof.
  by destruct (invalid_name_costs_no_budget PlantedLink.fs agreeable_db 0 ∅ None
                 (py "../x.json") eq_refl) as [-> _].
Defined.

(** ** More of [generate_mermaid_diagram] *)

Lemma py_inj (s t : string) : py s = py t -> s = t.
Proof.
  revert t. induction s as [|a s IH]; intros [|b t]; simpl; try done.
  intros [= Hab Hst]. f_equal; [|by apply IH].
  rewrite <- (ascii_N_embedding a), <- (ascii_N_embedding b). by rewrite Hab.
Qed.

Lemma node_id_inj (i j : nat) : node_id i = node_id j -> i = j.
Proof.
  unfold node_id, PyStr.of_nat. intros H. apply app_inv_head in H.
  apply py_inj in H. by apply (inj pretty).
Qed.

Lemma assign_ids_unfold (i : nat) (node : Node) (rest : list Node)
    (m : gmap pystr pystr) :
  assign_ids i (node :: rest) m
  = assign_ids (S i) rest (<[node_key i node := node_id i]> m).
Proof. reflexivity. Qed.

(** A key that no node is filed under keeps what it had. *)
Lemma assign_ids_absent (nodes : list Node) (i : nat) (m : gmap pystr pystr)
    (key : pystr) :
  (forall k nk, nodes !! k = Some nk -> node_key (i + k) nk <> key) ->
  assign_ids i nodes m !! key = m !! key.
Proof.
  revert i m. induction nodes as [|node rest IH]; intros i m H; [done|].
  rewrite assign_ids_unfold, IH.
  - apply lookup_insert_ne. specialize (H 0%nat node eq_refl).
    by rewrite Nat.add_0_r in H.
  - intros k nk Hk. replace (S i + k)%nat with (i + S k)%nat by lia. by apply H.
Qed.

(** The last node filed under a key decides its identifier. *)
Lemma assign_ids_last (nodes : list Node) (i : nat) (m : gmap pystr pystr)
    (j : nat) (nj : Node) :
  nodes !! j = Some nj ->
  (forall k nk, (j < k)%nat -> nodes !! k = Some nk ->
                node_key (i + k) nk <> node_key (i + j) nj) ->
  assign_ids i nodes m !! node_key (i + j) nj = Some (node_id (i + j)).
Proof.
  revert i m j. induction nodes as [|node rest IH]; intros i m j Hj Hlast; [done|].
  rewrite assign_ids_unfold. destruct j as [|j].
  - injection Hj as ->. rewrite Nat.add_0_r in *. rewrite assign_ids_absent.
    + apply lookup_insert_eq.
    + intros k nk Hk. replace (S i + k)%nat with (i + S k)%nat by lia.
      apply Hlast; [lia | done].
  - replace (i + S j)%nat with (S i + j)%nat in * by lia. apply IH; [done|].
    intros k nk Hlt Hk. replace (S i + k)%nat with (i + S k)%nat by lia.
    apply Hlast; [lia | done].
Qed.

(** Every identifier on file is the one the map had, when no node is filed
    under the key, or that of the last node filed under it. *)
Lemma assign_ids_origin (nodes : list Node) (i : nat) (m : gmap pystr pystr)
    (key id : pystr) :
  assign_ids i nodes m !! key = Some id ->
  (m !! key = Some id
   /\ forall k nk, nodes !! k = Some nk -> node_key (i + k) nk <> key)
  \/ exists j nj, nodes !! j = Some nj /\ node_key (i + j) nj = key
                  /\ id = node_id (i + j)
                  /\ forall k nk, (j < k)%nat -> nodes !! k = Some nk ->
                                  node_key (i + k) nk <> key.
Proof.
  revert i m. induction nodes as [|node rest IH]; intros i m H; [by left|].
  rewrite assign_ids_unfold in H.
  apply IH in H as [[H Hnone] | (j & nj & Hj & Hkey & Hid & Hlast)].
  - assert (Hrest : forall k nk, (0 < k)%nat -> (node :: rest) !! k = Some nk ->
              node_key (i + k) nk <> key).
    { intros k nk Hlt Hk. destruct k as [|k]; [lia|].
      replace (i + S k)%nat with (S i + k)%nat by lia. by apply Hnone. }
    destruct (decide (node_key i node = key)) as [Heq|Hne].
    + rewrite Heq, lookup_insert_eq in H. injection H as <-. right.
      exists 0%nat, node. rewrite Nat.add_0_r. done.
    + rewrite lookup_insert_ne in H by done. left. split; [done|].
      intros k nk Hk. destruct k as [|k]; [|apply Hrest; [lia | done]].
      injection Hk as <-. by rewrite Nat.add_0_r.
  - right. exists (S j), nj. replace (i + S j)%nat with (S i + j)%nat by lia.
    split; [done|]. split; [done|]. split; [done|].
    intros k nk Hlt Hk. destruct k as [|k]; [lia|].
    replace (i + S k)%nat with (S i + k)%nat by lia. apply Hlast; [lia | done].
Qed.

Lemma assign_ids_keeps (nodes : list Node) (i : nat) (m : gmap pystr pystr)
    (key : pystr) :
  is_Some (m !! key) -> is_Some (assign_ids i nodes m !! key).
Proof.
  revert i m. induction nodes as [|node rest IH]; intros i m H; [done|].
  rewrite assign_ids_unfold. apply IH. rewrite lookup_insert_is_Some.
  destruct (decide (node_key i node = key)); [by left | by right].
Qed.

Lemma assign_ids_present (nodes : list Node) (i : nat) (m : gmap pystr pystr)
    (j : nat) (nj : Node) :
  nodes !! j = Some nj -> is_Some (assign_ids i nodes m !! node_key (i + j) nj).
Proof.
  revert i m j. induction nodes as [|node rest IH]; intros i m j Hj; [done|].
  rewrite assign_ids_unfold. destruct j as [|j].
  - injection Hj as ->. rewrite Nat.add_0_r. apply assign_ids_keeps.
    rewrite lookup_insert_eq. by eexists.
  - replace (i + S j)%nat with (S i + j)%nat by lia. by apply IH.
Qed.

(** X6: when several nodes are filed under one name, the identifier of
    the name is that of the last of them. *)
Theorem identifier_of_last_node (nodes : list Node) (j : nat) (nj : Node) :
  nodes !! j = Some nj ->
  (forall k nk, (j < k)%nat -> nodes !! k = Some nk ->
                node_key k nk <> node_key j nj) ->
  assign_ids 0 nodes ∅ !! node_key j nj = Some (node_id j).
Proof. intros Hj Hlast. by apply (assign_ids_last nodes 0 ∅ j nj). Qed.

Lemma identifier_of_last_node_witness :
  assign_ids 0 [node_a; node_b; node_a_again] ∅ !! py "A" = Some (py "node2").
Proof.
  apply (identifier_of_last_node [node_a; node_b; node_a_again] 2 node_a_again).
  - reflexivity.
  - intros k nk Hlt Hk. destruct k as [|[|[|k]]]; try lia. discriminate Hk.
Defined.

(** X7: two different names never share an identifier. *)
Theorem identifiers_are_distinct (nodes : list Node) (key1 key2 id : pystr) :
  assign_ids 0 nodes ∅ !! key1 = Some id ->
  assign_ids 0 nodes ∅ !! key2 = Some id ->
  key1 = key2.
Proof.
  intros H1 H2.
  apply assign_ids_origin in H1 as [[H1 _] | (j1 & n1 & Hj1 & Hk1 & Hid1 & _)];
    [by rewrite lookup_empty in H1|].
  apply assign_ids_origin in H2 as [[H2 _] | (j2 & n2 & Hj2 & Hk2 & Hid2 & _)];
    [by rewrite lookup_empty in H2|].
  rewrite Hid1 in Hid2. apply node_id_inj in Hid2. simpl in Hid2. subst j2.
  rewrite Hj1 in Hj2. injection Hj2 as <-. congruence.
Qed.

Lemma identifiers_are_distinct_witness :
  assign_ids 0 [node_a; node_b] ∅ !! py "A" = Some (py "node0")
  /\ forall key, assign_ids 0 [node_a; node_b] ∅ !! key = Some (py "node0") ->
                 py "A" = key.
Proof.
  split; [reflexivity|]. intros key Hkey.
  by apply (identifiers_are_distinct [node_a; node_b] (py "A") key (py "node0")).
Defined.

Section DiagramFacts.

Variable lower : pystr -> pystr.

Lemma node_lines_fails (ids : gmap pystr pystr) (nodes : list Node) (node : Node) :
  In node nodes ->
  ids !! default (py "Unnamed") (node_name_field node) = None ->
  node_lines lower ids nodes = None.
Proof.
  intros Hin Hnone. induction nodes as [|n rest IH]; [done|].
  cbn [node_lines]. destruct Hin as [->|Hin].
  - by rewrite Hnone.
  - destruct (ids !! default (py "Unnamed") (node_name_field n)); [|done].
    by rewrite IH.
Qed.

(** X8: a node without a ["name"] entry makes the renderer raise
    ([KeyError]), unless some node is named ["Unnamed"]: the first loop files
    it under ["Node <i>"], the second looks it up under ["Unnamed"]. *)
Theorem nameless_node_raises (nodes : list Node) (connections : list (pystr * json)) :
  (exists node, In node nodes /\ node_name_field node = None) ->
  (forall node, In node nodes -> node_name_field node <> Some (py "Unnamed")) ->
  generate_mermaid_diagram lower nodes connections = None.
Proof.
  intros (node & Hin & Hname) Hnone.
  assert (Hids : assign_ids 0 nodes ∅ !! py "Unnamed" = None).
  { rewrite assign_ids_absent; [apply lookup_empty|].
    intros k nk Hk. unfold node_key.
    destruct (node_name_field nk) as [name|] eqn:Hn; intros Heq; simpl in Heq.
    - subst name. apply (Hnone nk); [|exact Hn].
      apply list_elem_of_In, list_elem_of_lookup. by exists k.
    - discriminate Heq. }
  unfold generate_mermaid_diagram. destruct nodes as [|n0 rest]; [done|].
  rewrite (node_lines_fails _ _ node Hin); [done|]. rewrite Hname. exact Hids.
Qed.

Lemma connection_lines_known (ids : gmap pystr pystr)
    (connections : list (pystr * json)) :
  connection_lines ids (known_sources ids connections)
  = connection_lines ids connections.
Proof.
  induction connections as [|[source sc] rest IH]; [done|].
  unfold known_sources. cbn [List.filter fst]. fold (known_sources ids rest).
  destruct (ids !! source) as [id|] eqn:Hs.
  - rewrite bool_decide_eq_true_2 by by eexists.
    cbn [connection_lines]. by rewrite Hs, IH.
  - rewrite bool_decide_eq_false_2 by (by intros [? ?]).
    cbn [connection_lines]. rewrite Hs, IH.
    by destruct (connection_lines ids rest).
Qed.

(** X10: connections whose source is not the name of a node are skipped:
    the diagram is that of the remaining connections. *)
Theorem unknown_sources_are_skipped (nodes : list Node)
    (connections : list (pystr * json)) :
  generate_mermaid_diagram lower nodes connections
  = generate_mermaid_diagram lower nodes
      (known_sources (assign_ids 0 nodes ∅) connections).
Proof.
  unfold generate_mermaid_diagram. destruct nodes as [|n0 rest]; [done|].
  by rewrite connection_lines_known.
Qed.

End DiagramFacts.

Lemma nameless_node_raises_witness :
  generate_mermaid_diagram PyStr.ascii_lower [node_a; nameless_node] [] = None.
Proof.
  apply (nameless_node_raises PyStr.ascii_lower).
  - exists nameless_node. split; [right; by left | reflexivity].
  - intros node [<- | [<- | []]]; discriminate.
Defined.

Lemma replace_single (a b : N) (s : pystr) :
  PyStr.replace [a] [b] s = replace_char a b s.
Proof.
  unfold PyStr.replace. remember (length s) as fuel eqn:Hf.
  assert (Hle : (length s <= fuel)%nat) by lia. clear Hf.
  revert s Hle. induction fuel as [|fuel IH]; intros s Hle.
  - destruct s; [done | simpl in Hle; lia].
  - destruct s as [|c s]; [done|]. cbn [PyStr.replace_from PyStr.startswith].
    unfold replace_char. cbn [map]. fold (replace_char a b s).
    rewrite andb_true_r. simpl in Hle.
    destruct (a =? c)%N; cbn [length drop app]; rewrite ?drop_0, IH by lia; done.
Qed.

Lemma replace_char_clean (a b : N) (s : pystr) :
  a <> b -> a ∉ replace_char a b s.
Proof.
  intros Hab Hin. unfold replace_char in Hin.
  apply list_elem_of_fmap in Hin as (c & Hc & _).
  destruct (a =? c)%N eqn:E; [congruence|].
  apply N.eqb_neq in E. congruence.
Qed.

(** Replacing one character by another brings in no third one. *)
Lemma replace_char_without (a b c : N) (s : pystr) :
  c <> b -> c ∉ s -> c ∉ replace_char a b s.
Proof.
  intros Hb Hs Hin. unfold replace_char in Hin.
  apply list_elem_of_fmap in Hin as (x & Hx & Hin).
  destruct (a =? x)%N; [congruence|]. by subst.
Qed.

(** A replacement brings in no character outside the string and the
    replacement text. *)
Lemma replace_from_subset (fuel : nat) (old new s : pystr) (c : N) :
  c ∈ PyStr.replace_from fuel old new s -> c ∈ s \/ c ∈ new.
Proof.
  revert s. induction fuel as [|fuel IH]; intros s; [by left|].
  cbn [PyStr.replace_from]. destruct s as [|x s]; [by left|].
  destruct (PyStr.startswith (x :: s) old).
  - rewrite elem_of_app. intros [H|H]; [by right|].
    destruct (IH _ H) as [H'|H']; [left | by right].
    by apply (subseteq_drop (length old) (x :: s)).
  - rewrite !elem_of_cons. intros [->|H]; [by left; left|].
    destruct (IH _ H) as [H'|H']; [left; by right | by right].
Qed.

Lemma replace_empty_without (old s : pystr) (c : N) :
  c ∉ s -> c ∉ PyStr.replace old [] s.
Proof.
  intros Hs Hin. apply replace_from_subset in Hin as [H|H]; [done|].
  by apply elem_of_nil in H.
Qed.

(** The decimal digits of a number. *)
Lemma pretty_N_go_digits (x : N) (s : string) :
  Forall (fun c => (48 <= c <= 57)%N) (py s) ->
  Forall (fun c => (48 <= c <= 57)%N) (py (pretty_N_go x s)).
Proof.
  revert s. induction (N.lt_wf_0 x) as [x _ IH]; intros s Hs.
  destruct (N.eq_dec x 0%N) as [->|Hx]; [by rewrite pretty_N_go_0|].
  rewrite pretty_N_go_step by lia. apply IH.
  - apply N.div_lt; lia.
  - cbn [py]. apply Forall_cons. split; [|done].
    unfold pretty_N_char. repeat case_match; cbn; lia.
Qed.

Lemma of_nat_digits (i : nat) :
  Forall (fun c => (48 <= c <= 57)%N) (PyStr.of_nat i).
Proof.
  unfold PyStr.of_nat, pretty, pretty_nat, pretty, pretty_N.
  destruct (decide (N.of_nat i = 0%N)).
  - cbn. apply Forall_cons. split; [lia | done].
  - by apply pretty_N_go_digits.
Qed.

(** An identifier holds letters and digits only. *)
Lemma node_id_chars (i : nat) (c : N) : c ∈ node_id i -> (48 <= c)%N.
Proof.
  unfold node_id. rewrite elem_of_app. intros [H|H].
  - cbn [py] in H. repeat (apply elem_of_cons in H as [->|H]; [cbn; lia|]).
    by apply elem_of_nil in H.
  - pose proof (of_nat_digits i) as Hd. rewrite Forall_forall in Hd.
    apply Hd in H. lia.
Qed.

Lemma assigned_id_chars (nodes : list Node) (key id : pystr) (c : N) :
  assign_ids 0 nodes ∅ !! key = Some id -> c ∈ id -> (48 <= c)%N.
Proof.
  intros H Hc.
  apply assign_ids_origin in H as [[H _] | (j & nj & _ & _ & -> & _)];
    [by rewrite lookup_empty in H|].
  by apply (node_id_chars (0 + j)).
Qed.

Ltac absent_from_literal :=
  match goal with |- ?P => apply (bool_decide_unpack P); by vm_compute end.

Section LabelFacts.

Variable lower : pystr -> pystr.

Lemma node_style_plain (c : N) (node_type : pystr) :
  special c -> c ∉ node_style lower node_type.
Proof.
  intros Hc. unfold node_style.
  repeat (match goal with |- context [if ?b then _ else _] => destruct b end);
    destruct Hc as [-> | ->]; absent_from_literal.
Qed.

Lemma style_line_plain (c : N) (id : pystr) (node : Node) :
  special c -> c ∉ id -> c ∉ style_line lower id node.
Proof.
  intros Hc Hid. unfold style_line. rewrite !not_elem_of_app.
  split; [destruct Hc as [-> | ->]; absent_from_literal|].
  split; [done|].
  split; [destruct Hc as [-> | ->]; absent_from_literal|].
  by apply node_style_plain.
Qed.

Lemma declaration_label_clean (node : Node) : DQUOTE ∉ declaration_label node.
Proof.
  unfold declaration_label. rewrite !not_elem_of_app.
  split; [by apply replace_char_clean|].
  split; [absent_from_literal|].
  split; [by apply replace_char_clean | absent_from_literal].
Qed.

Lemma declaration_label_one_line (node : Node) :
  LF ∉ default [] (node_name_field node) ->
  is_Some (node_name_field node) ->
  LF ∉ default [] (node_type_field node) ->
  LF ∉ declaration_label node.
Proof.
  intros Hn [name Hname] Ht. rewrite Hname in Hn.
  unfold declaration_label. rewrite Hname, !not_elem_of_app.
  split; [by apply replace_char_without|].
  split; [absent_from_literal|].
  split; [|absent_from_literal].
  apply replace_char_without; [done|]. by apply replace_empty_without.
Qed.

Lemma declaration_line_one_line (id label : pystr) :
  LF ∉ id -> LF ∉ label -> LF ∉ declaration_line id label.
Proof.
  intros Hid Hl. unfold declaration_line. rewrite !not_elem_of_app.
  repeat split; try done; absent_from_literal.
Qed.

Lemma quote_count_app (x y : pystr) :
  quote_count (x ++ y) = (quote_count x + quote_count y)%nat.
Proof. apply count_occ_app. Qed.

Lemma quote_count_none (x : pystr) : DQUOTE ∉ x -> quote_count x = 0%nat.
Proof. intros H. apply count_occ_not_In. by rewrite <- list_elem_of_In. Qed.

(** A declaration holds two double quotes: those around its label. *)
Lemma declaration_line_quotes (id : pystr) (node : Node) :
  DQUOTE ∉ id ->
  quote_count (declaration_line id (declaration_label node)) = 2%nat.
Proof.
  intros Hid. unfold declaration_line. rewrite !quote_count_app.
  rewrite (quote_count_none id) by done.
  rewrite (quote_count_none (declaration_label node))
    by apply declaration_label_clean.
  reflexivity.
Qed.

(** The second loop in closed form. *)
Lemma node_lines_entries (ids : gmap pystr pystr) (nodes : list Node) :
  (forall node, In node nodes ->
     is_Some (ids !! default (py "Unnamed") (node_name_field node))) ->
  node_lines lower ids nodes = Some (flat_map (node_entries lower ids) nodes).
Proof.
  induction nodes as [|n rest IH]; intros H; [done|].
  destruct (H n (or_introl eq_refl)) as [id Hid].
  cbn [node_lines flat_map]. rewrite Hid, (IH (fun node Hin => H node (or_intror Hin))).
  unfold node_entries, declaration_label, style_line, declaration_line.
  rewrite Hid, !replace_single. reflexivity.
Qed.

Lemma node_entries_length (ids : gmap pystr pystr) (nodes : list Node) :
  length (flat_map (node_entries lower ids) nodes) = (2 * length nodes)%nat.
Proof.
  induction nodes as [|n rest IH]; [done|].
  cbn [flat_map]. rewrite length_app, IH. cbn [node_entries length]. lia.
Qed.

Lemma node_lines_defined (ids : gmap pystr pystr) (nodes : list Node)
    (lines : list pystr) (node : Node) :
  node_lines lower ids nodes = Some lines -> In node nodes ->
  is_Some (ids !! default (py "Unnamed") (node_name_field node)).
Proof.
  intros Hl Hin.
  destruct (ids !! default (py "Unnamed") (node_name_field node)) eqn:E;
    [by eexists|].
  by rewrite (node_lines_fails lower ids nodes node Hin E) in Hl.
Qed.

(** Text and lines *)

Lemma split_one_line (s : pystr) : LF ∉ s -> PyStr.split LF s = [s].
Proof.
  induction s as [|c s IH]; [done|]. rewrite not_elem_of_cons. intros [Hc Hs].
  cbn [PyStr.split]. rewrite IH by done.
  by assert ((c =? LF)%N = false) as -> by (apply N.eqb_neq; congruence).
Qed.

Lemma split_first_line (p rest : pystr) :
  LF ∉ p -> PyStr.split LF (p ++ LF :: rest) = p :: PyStr.split LF rest.
Proof.
  induction p as [|c p IH]; [done|]. rewrite not_elem_of_cons. intros [Hc Hp].
  cbn [PyStr.split app]. rewrite IH by done.
  by assert ((c =? LF)%N = false) as -> by (apply N.eqb_neq; congruence).
Qed.

(** Lines without a line feed, joined by line feeds, are the lines of the
    text. *)
Lemma split_join (p : pystr) (parts : list pystr) :
  Forall (fun l => LF ∉ l) (p :: parts) ->
  PyStr.split LF (PyStr.join [LF] (p :: parts)) = p :: parts.
Proof.
  revert p. induction parts as [|q parts IH]; intros p Hall.
  - apply Forall_cons in Hall as [Hp _]. by apply split_one_line.
  - apply Forall_cons in Hall as [Hp Hall].
    change (PyStr.join [LF] (p :: q :: parts))
      with (p ++ LF :: PyStr.join [LF] (q :: parts)).
    rewrite split_first_line by done. by rewrite IH.
Qed.

Lemma quote_count_join (p : pystr) (parts : list pystr) :
  quote_count (PyStr.join [LF] (p :: parts)) = quote_count (concat (p :: parts)).
Proof.
  revert p. induction parts as [|q parts IH]; intros p.
  - cbn [PyStr.join concat]. by rewrite app_nil_r.
  - change (PyStr.join [LF] (p :: q :: parts))
      with (p ++ [LF] ++ PyStr.join [LF] (q :: parts)).
    change (concat (p :: q :: parts)) with (p ++ concat (q :: parts)).
    rewrite !quote_count_app, IH. change (quote_count [LF]) with 0%nat. lia.
Qed.

Lemma quote_count_plain_lines (lines : list pystr) :
  Forall (fun l => DQUOTE ∉ l) lines -> quote_count (concat lines) = 0%nat.
Proof.
  induction 1 as [|l lines Hl _ IH]; [done|]. cbn [concat].
  rewrite quote_count_app, quote_count_none by done. lia.
Qed.

(** The double quotes of the declarations: two for each node. *)
Lemma node_entries_quotes (ids : gmap pystr pystr) (nodes : list Node) :
  (forall key id, ids !! key = Some id -> DQUOTE ∉ id) ->
  (forall node, In node nodes ->
     is_Some (ids !! default (py "Unnamed") (node_name_field node))) ->
  quote_count (concat (flat_map (node_entries lower ids) nodes))
  = (2 * length nodes)%nat.
Proof.
  intros Hids. induction nodes as [|n rest IH]; intros H; [done|].
  destruct (H n (or_introl eq_refl)) as [id Hid].
  cbn [flat_map]. rewrite concat_app, quote_count_app.
  rewrite (IH (fun node Hin => H node (or_intror Hin))).
  unfold node_entries. rewrite Hid.
  change (default [] (Some id)) with id. cbn [concat length].
  rewrite app_nil_r, quote_count_app.
  rewrite declaration_line_quotes by by apply (Hids _ _ Hid).
  rewrite (quote_count_none (style_line lower id n)).
  - lia.
  - apply style_line_plain; [by right | by apply (Hids _ _ Hid)].
Qed.

(** The lines of the connections hold identifiers, arrows and indices. *)
Lemma port_lines_plain (ids : gmap pystr pystr) (source_id label : pystr)
    (output_connections : list json) (lines : list pystr) :
  (forall key id, ids !! key = Some id -> DQUOTE ∉ id) ->
  DQUOTE ∉ source_id -> DQUOTE ∉ label ->
  port_lines ids source_id label output_connections = Some lines ->
  Forall (fun l => DQUOTE ∉ l) lines.
Proof.
  intros Hids Hs Hl. revert lines.
  induction output_connections as [|connection rest IH]; intros lines.
  - intros [= <-]. constructor.
  - cbn [port_lines].
    set (here := match connection with
                 | JDict d => _
                 | _ => Some []
                 end).
    assert (Hhere : forall l1, here = Some l1 -> Forall (fun l => DQUOTE ∉ l) l1).
    { subst here. intros l1. destruct connection as [| | | | |d];
        try (intros [= <-]; constructor).
      destruct (dict_get d (py "node")) as [[| | |target| |]|];
        try (intros [= <-]; constructor); try done.
      destruct (ids !! target) as [target_id|] eqn:Ht;
        intros [= <-]; constructor; [|constructor].
      rewrite !not_elem_of_cons, !not_elem_of_app.
      repeat split; try done; try (by vm_compute). by apply (Hids _ _ Ht). }
    destruct here as [l1|]; [|done].
    destruct (port_lines ids source_id label rest) as [l2|]; [|done].
    intros [= <-]. apply Forall_app. split; [by apply Hhere | by apply IH].
Qed.

Lemma main_lines_plain (ids : gmap pystr pystr) (source_id : pystr) (many : bool)
    (i : nat) (main_connections : list json) (lines : list pystr) :
  (forall key id, ids !! key = Some id -> DQUOTE ∉ id) ->
  DQUOTE ∉ source_id ->
  main_lines ids source_id many i main_connections = Some lines ->
  Forall (fun l => DQUOTE ∉ l) lines.
Proof.
  intros Hids Hs. revert i lines.
  induction main_connections as [|oc rest IH]; intros i lines.
  - intros [= <-]. constructor.
  - cbn [main_lines].
    set (label := if many then py " -->|" ++ PyStr.of_nat i ++ py "| "
                  else py " --> ").
    assert (Hlabel : DQUOTE ∉ label).
    { subst label. destruct many; [|absent_from_literal].
      rewrite !not_elem_of_app. repeat split; try absent_from_literal.
      intros Hin. pose proof (of_nat_digits i) as Hd. rewrite Forall_forall in Hd.
      apply Hd in Hin. unfold DQUOTE in Hin. lia. }
    set (here := match oc with
                 | JList l => port_lines ids source_id label l
                 | _ => Some []
                 end).
    assert (Hhere : forall l1, here = Some l1 -> Forall (fun l => DQUOTE ∉ l) l1).
    { subst here. intros l1. destruct oc as [| | | |l|];
        try (intros [= <-]; constructor).
      by apply port_lines_plain. }
    destruct here as [l1|]; [|done].
    destruct (main_lines ids source_id many (S i) rest) as [l2|] eqn:E; [|done].
    intros [= <-]. apply Forall_app. split; [by apply Hhere | by apply (IH (S i))].
Qed.

Lemma connection_lines_plain (ids : gmap pystr pystr)
    (connections : list (pystr * json)) (lines : list pystr) :
  (forall key id, ids !! key = Some id -> DQUOTE ∉ id) ->
  connection_lines ids connections = Some lines ->
  Forall (fun l => DQUOTE ∉ l) lines.
Proof.
  intros Hids. revert lines.
  induction connections as [|[source sc] rest IH]; intros lines.
  - intros [= <-]. constructor.
  - cbn [connection_lines].
    set (here := match ids !! source with
                 | None => Some []
                 | Some source_id => _
                 end).
    assert (Hhere : forall l1, here = Some l1 -> Forall (fun l => DQUOTE ∉ l) l1).
    { subst here. intros l1. destruct (ids !! source) as [source_id|] eqn:Hs;
        [|intros [= <-]; constructor].
      destruct sc as [| | | | |d]; try (intros [= <-]; constructor).
      destruct (dict_get d (py "main")) as [[| | | |mc|]|];
        try (intros [= <-]; constructor); try done.
      apply main_lines_plain; [done | by apply (Hids _ _ Hs)]. }
    destruct here as [l1|]; [|done].
    destruct (connection_lines ids rest) as [l2|]; [|done].
    intros [= <-]. apply Forall_app. split; [by apply Hhere | by apply IH].
Qed.

Lemma assigned_id_plain (nodes : list Node) (key id : pystr) (c : N) :
  special c -> assign_ids 0 nodes ∅ !! key = Some id -> c ∉ id.
Proof.
  intros Hc H Hin. pose proof (assigned_id_chars nodes key id c H Hin) as Hge.
  destruct Hc as [-> | ->]; unfold LF, DQUOTE in Hge; lia.
Qed.

(** X9: when every node has a name, the declarations never raise: without
    connections the renderer returns the header followed, for each node in
    turn, by its declaration and its style command, joined by line feeds.
    When no name and no type holds a line feed, these are the lines of the
    text, two for each node after the header. *)
Theorem named_nodes_are_declared (nodes : list Node) :
  nodes <> [] ->
  (forall node, In node nodes -> is_Some (node_name_field node)) ->
  let mermaid_ids := assign_ids 0 nodes ∅ in
  let entries := flat_map (node_entries lower mermaid_ids) nodes in
  let text := PyStr.join [LF] (py "graph TD" :: entries) in
  generate_mermaid_diagram lower nodes [] = Some text
  /\ (forall node, In node nodes ->
        is_Some (mermaid_ids !! default (py "Unnamed") (node_name_field node)))
  /\ ((forall node, In node nodes ->
         (LF ∉ default [] (node_name_field node))
         /\ (LF ∉ default [] (node_type_field node))) ->
      PyStr.split LF text = py "graph TD" :: entries
      /\ line_count text = S (2 * length nodes)).
Proof.
  intros Hne Hnamed mermaid_ids entries text.
  assert (Hids : forall node, In node nodes ->
            is_Some (mermaid_ids !! default (py "Unnamed") (node_name_field node))).
  { intros node Hin. destruct (Hnamed node Hin) as [name Hname].
    apply list_elem_of_In, list_elem_of_lookup in Hin as [j Hj].
    pose proof (assign_ids_present nodes 0 ∅ j node Hj) as Hp.
    unfold node_key in Hp. by rewrite Hname in Hp |- *. }
  split; [|split; [done|]].
  - unfold generate_mermaid_diagram. destruct nodes as [|n0 rest]; [done|].
    fold mermaid_ids. rewrite (node_lines_entries mermaid_ids (n0 :: rest) Hids).
    cbn [connection_lines]. by rewrite app_nil_r.
  - intros Hplain.
    assert (Hsplit : PyStr.split LF text = py "graph TD" :: entries).
    { apply split_join. apply Forall_cons. split; [absent_from_literal|].
      subst entries. clear Hne text. apply Forall_forall. intros l Hl.
      apply list_elem_of_In, in_flat_map in Hl as (node & Hin & Hl).
      destruct (Hids node Hin) as [id Hid]. destruct (Hplain node Hin) as [Hn Ht].
      assert (Hfree : LF ∉ id) by by apply (assigned_id_plain nodes _ id LF (or_introl eq_refl) Hid).
      unfold node_entries in Hl. rewrite Hid in Hl.
      change (default [] (Some id)) with id in Hl.
      destruct Hl as [<- | [<- | []]].
      - apply declaration_line_one_line; [done|].
        by apply declaration_label_one_line; [|apply Hnamed|].
      - apply style_line_plain; [by left | done]. }
    split; [done|]. unfold line_count. rewrite Hsplit. cbn [length]. f_equal.
    apply node_entries_length.
Qed.

(** X11: a double quote in a name or in a type never reaches the diagram:
    the text returned for a workflow with nodes holds two double quotes for
    each node, those that delimit the label of its declaration; the label
    is the name and the type with every double quote replaced by a single
    one. *)
Theorem declared_label_has_no_quote (nodes : list Node)
    (connections : list (pystr * json)) (text : pystr) :
  nodes <> [] ->
  generate_mermaid_diagram lower nodes connections = Some text ->
  quote_count text = (2 * length nodes)%nat
  /\ exists edges,
       connection_lines (assign_ids 0 nodes ∅) connections = Some edges
       /\ text = PyStr.join [LF]
                   (py "graph TD"
                    :: flat_map (node_entries lower (assign_ids 0 nodes ∅)) nodes
                    ++ edges)
       /\ Forall (fun l => DQUOTE ∉ l) edges
       /\ forall node, In node nodes ->
            (DQUOTE ∉ declaration_label node)
            /\ exists id,
                 assign_ids 0 nodes ∅ !! default (py "Unnamed") (node_name_field node)
                 = Some id
                 /\ quote_count (declaration_line id (declaration_label node))
                    = 2%nat
                 /\ quote_count (style_line lower id node) = 0%nat.
Proof.
  intros Hne Hgen. unfold generate_mermaid_diagram in Hgen.
  destruct nodes as [|n0 rest]; [done|].
  set (nodes := n0 :: rest) in *. set (ids := assign_ids 0 nodes ∅) in *.
  destruct (node_lines lower ids nodes) as [declarations|] eqn:Hd; [|done].
  destruct (connection_lines ids connections) as [edges|] eqn:He; [|done].
  apply (inj Some) in Hgen. subst text.
  assert (Hplain : forall key id, ids !! key = Some id -> DQUOTE ∉ id).
  { intros key id. apply assigned_id_plain. by right. }
  assert (Hdef : forall node, In node nodes ->
            is_Some (ids !! default (py "Unnamed") (node_name_field node))).
  { intros node. by apply (node_lines_defined ids nodes declarations). }
  rewrite (node_lines_entries ids nodes Hdef) in Hd.
  apply (inj Some) in Hd. subst declarations.
  pose proof (connection_lines_plain ids connections edges Hplain He) as Hedges.
  split.
  - change ([py "graph TD"] ++ flat_map (node_entries lower ids) nodes ++ edges)
      with (py "graph TD" :: flat_map (node_entries lower ids) nodes ++ edges).
    rewrite quote_count_join. cbn [concat].
    rewrite quote_count_app, concat_app, quote_count_app.
    rewrite (node_entries_quotes ids nodes Hplain Hdef).
    rewrite (quote_count_plain_lines edges Hedges).
    change (quote_count (py "graph TD")) with 0%nat. lia.
  - exists edges. split; [done|]. split; [done|]. split; [done|].
    intros node Hin. split; [apply declaration_label_clean|].
    destruct (Hdef node Hin) as [id Hid]. exists id. split; [done|].
    split; [apply declaration_line_quotes; by apply (Hplain _ _ Hid)|].
    apply quote_count_none, style_line_plain; [by right | by apply (Hplain _ _ Hid)].
Qed.

End LabelFacts.

Lemma named_nodes_are_declared_witness :
  generate_mermaid_diagram PyStr.ascii_lower [node_a; node_b] []
  = Some (PyStr.join [LF]
            [py "graph TD";
             py "  node0[" ++ [DQUOTE] ++ py "A<br>(webhook)" ++ [DQUOTE] ++ py "]";
             py "  style node0 fill:#b3e0ff,stroke:#0066cc";
             py "  node1[" ++ [DQUOTE] ++ py "B<br>(httpRequest)" ++ [DQUOTE] ++ py "]";
             py "  style node1 fill:#d9d9d9,stroke:#666666"])
  /\ line_count
       (PyStr.join [LF]
          (py "graph TD"
           :: flat_map (node_entries PyStr.ascii_lower (assign_ids 0 [node_a; node_b] ∅))
                [node_a; node_b]))
     = 5%nat.
Proof.
  destruct (named_nodes_are_declared PyStr.ascii_lower [node_a; node_b])
    as (Htext & _ & Hlines).
  - done.
  - intros node [<- | [<- | []]]; by eexists.
  - split; [by rewrite Htext|]. apply Hlines.
    intros node [<- | [<- | []]]; split; absent_from_literal.
Defined.

(** A line feed in a name is copied into the label: the diagram of this one
    node has four lines. *)
Example line_feed_in_name :
  exists text,
    generate_mermaid_diagram PyStr.ascii_lower [two_line_node] [] = Some text
    /\ line_count text = 4%nat.
Proof. eexists. split; reflexivity. Qed.

Lemma declared_label_has_no_quote_witness :
  generate_mermaid_diagram PyStr.ascii_lower [quoted_node; node_b] quoted_connections
  = Some quoted_diagram
  /\ quote_count quoted_diagram = 4%nat.
Proof.
  assert (H : generate_mermaid_diagram PyStr.ascii_lower [quoted_node; node_b]
                quoted_connections = Some quoted_diagram) by reflexivity.
  split; [exact H|].
  exact (proj1 (declared_label_has_no_quote PyStr.ascii_lower [quoted_node; node_b]
                  quoted_connections quoted_diagram ltac:(done) H)).
Defined.

(** ** The classifier in closed form *)

Lemma is_specific_false (best : option pystr) :
  is_specific best = false <-> falsy best || is_generic best = true.
Proof. unfold is_specific. destruct (falsy best), (is_generic best); by split. Qed.

Lemma omap_cons_eq {A B : Type} (f : A -> option B) (x : A) (l : list A) :
  omap f (x :: l) = match f x with Some y => y :: omap f l | None => omap f l end.
Proof. reflexivity. Qed.

Section ClosedFormFacts.

Variable lower : pystr -> pystr.
Variable capitalize : pystr -> pystr.

Lemma scan_nodes_from (best : option pystr) (nodes : list Node) :
  is_specific best = false ->
  scan_nodes lower best nodes
  = match List.find (fun node => is_specific (node_mapping lower node)) nodes with
    | Some node => node_mapping lower node
    | None =>
        match last (omap (node_mapping lower) nodes) with
        | Some label => Some label
        | None => best
        end
    end.
Proof.
  unfold scan_nodes. revert best.
  induction nodes as [|node rest IH]; intros best Hbest; [done|].
  rewrite for_nodes_cons, visit_node_eq.
  apply is_specific_false in Hbest as Hopen. rewrite Hopen.
  fold (node_mapping lower node). cbn [List.find]. rewrite omap_cons_eq.
  destruct (node_mapping lower node) as [label|] eqn:Hm.
  - destruct (is_specific (Some label)) eqn:Hs; [done|].
    rewrite (IH (Some label) Hs).
    destruct (List.find _ rest); [done|].
    rewrite last_cons. by destruct (last (omap (node_mapping lower) rest)).
  - rewrite Hbest. assert (is_specific None = false) as -> by done.
    by rewrite (IH best Hbest).
Qed.

Lemma scan_nodes_decisive (nodes : list Node) :
  scan_nodes lower None nodes = decisive_mapping lower nodes.
Proof.
  rewrite scan_nodes_from by done. unfold decisive_mapping.
  destruct (List.find _ nodes); [done|].
  by destruct (last (omap (node_mapping lower) nodes)).
Qed.

(** X12: the loop over the nodes ends with the table's label of the first
    node that has a specific one, whatever precedes it, and otherwise with
    the label of the last node to which the table gives any; a specific
    label found this way is the directory. *)
Theorem scan_is_decisive_mapping (nodes : list Node) :
  scan_nodes lower None nodes = decisive_mapping lower nodes
  /\ forall node label,
       List.find (fun node => is_specific (node_mapping lower node)) nodes
       = Some node ->
       node_mapping lower node = Some label ->
       determine_workflow_directory lower capitalize nodes = label.
Proof.
  pose proof (scan_nodes_decisive nodes) as Hscan.
  split; [done|]. intros node label Hfind Hlabel.
  unfold determine_workflow_directory. destruct nodes as [|n0 rest]; [done|].
  rewrite Hscan. unfold decisive_mapping. rewrite Hfind, Hlabel.
  apply find_some in Hfind as [_ Hs]. rewrite Hlabel in Hs.
  unfold is_specific, is_generic in Hs.
  apply andb_true_iff in Hs as [Hf Hg]. apply negb_true_iff in Hf, Hg.
  apply orb_false_iff in Hg as [Hg _]. apply orb_false_iff in Hg as [Hg _].
  by rewrite Hf, Hg.
Qed.

Lemma first_mapping_label (items : list (pystr * pystr)) (ty nm label : pystr) :
  first_mapping items ty nm = Some label -> In label (map snd items).
Proof.
  induction items as [|[key directory] rest IH]; [done|]. cbn [first_mapping map snd].
  destruct (PyStr.contains key ty || PyStr.contains key nm).
  - intros [= ->]. by left.
  - intros H. right. by apply IH.
Qed.

Lemma decisive_mapping_label (nodes : list Node) (label : pystr) :
  decisive_mapping lower nodes = Some label -> In label mapping_labels.
Proof.
  unfold decisive_mapping.
  destruct (List.find _ nodes) as [node|].
  - apply first_mapping_label.
  - intros H. apply last_Some_elem_of, list_elem_of_omap in H as (node & _ & H).
    by apply first_mapping_label in H.
Qed.

Lemma split_head_without (sep : N) (s : pystr) : sep ∉ PyStr.split_head sep s.
Proof.
  induction s as [|c s IH]; cbn [PyStr.split_head]; [by apply not_elem_of_nil|].
  destruct (N.eqb_spec c sep) as [->|Hne]; [by apply not_elem_of_nil|].
  rewrite not_elem_of_cons. split; [congruence | done].
Qed.

Lemma split_segments (sep : N) (s seg : pystr) (c : N) :
  In seg (PyStr.split sep s) -> c ∈ seg -> c ∈ s.
Proof.
  revert seg. induction s as [|x s IH]; intros seg; cbn [PyStr.split].
  - intros [<- | []]. done.
  - destruct (x =? sep)%N.
    + intros [<- | Hin] Hc; [by apply elem_of_nil in Hc|]. right. by apply (IH seg).
    + destruct (PyStr.split sep s) as [|seg0 segs] eqn:Hsplit.
      * intros [<- | []] Hc. apply list_elem_of_singleton in Hc as ->. by left.
      * intros [<- | Hin] Hc.
        -- apply elem_of_cons in Hc as [-> | Hc]; [by left|].
           right. apply (IH seg0); [by left | done].
        -- right. apply (IH seg); [by right | done].
Qed.

(** X13: provided [str.capitalize] brings in no ["."], the directory holds
    no ["."]; joined to [workflows] it therefore has no component [".."]. *)
Theorem directory_has_no_dot (nodes : list Node) :
  (forall s, DOT ∉ s -> DOT ∉ capitalize s) ->
  (DOT ∉ determine_workflow_directory lower capitalize nodes)
  /\ (py ".." ∉ parts (joinpath (of_str (py "workflows"))
                         (determine_workflow_directory lower capitalize nodes))).
Proof.
  intros Hcap.
  assert (Hmanual : DOT ∉ py "Manual").
  { apply (bool_decide_unpack (DOT ∉ py "Manual")). by vm_compute. }
  assert (Hdot : DOT ∉ determine_workflow_directory lower capitalize nodes).
  { unfold determine_workflow_directory. destruct nodes as [|n0 rest]; [done|].
    destruct (falsy _ || is_label _ _).
    - unfold label_of_first_type. destruct (PyStr.contains VENDOR_PREFIX _); [|done].
      apply Hcap, split_head_without.
    - destruct (scan_nodes lower None (n0 :: rest)) as [label|] eqn:Hs;
        [|by apply not_elem_of_nil].
      cbn [default]. rewrite scan_nodes_decisive in Hs.
      apply decisive_mapping_label in Hs.
      assert (Hall : forallb (fun l => bool_decide (DOT ∉ l)) mapping_labels = true)
        by by vm_compute.
      rewrite forallb_forall in Hall. specialize (Hall label Hs).
      by apply bool_decide_eq_true in Hall. }
  split; [done|].
  set (label := determine_workflow_directory lower capitalize nodes) in *.
  assert (Hparts : py ".." ∉ parse_parts label).
  { intros Hin. apply list_elem_of_In in Hin. unfold parse_parts in Hin.
    apply filter_In in Hin as [Hin _].
    apply Hdot, (split_segments SLASH label (py "..") DOT Hin).
    apply (bool_decide_unpack (DOT ∈ py "..")). by vm_compute. }
  unfold joinpath. destruct (PyStr.startswith label [SLASH]); [done|].
  cbn [parts]. rewrite not_elem_of_app. split; [|done].
  apply (bool_decide_unpack (py ".." ∉ parts (of_str (py "workflows")))).
  by vm_compute.
Qed.

End ClosedFormFacts.

Lemma ascii_capitalize_no_dot (s : pystr) : DOT ∉ s -> DOT ∉ PyStr.ascii_capitalize s.
Proof.
  assert (Hup : forall c, c <> DOT -> PyStr.ascii_upper_char c <> DOT).
  { intros c Hc. unfold PyStr.ascii_upper_char, DOT in *.
    destruct (_ && _) eqn:E; [|done].
    apply andb_true_iff in E as [E1 E2]. apply N.leb_le in E1, E2. lia. }
  assert (Hlow : forall c, c <> DOT -> PyStr.ascii_lower_char c <> DOT).
  { intros c Hc. unfold PyStr.ascii_lower_char, DOT in *.
    destruct (_ && _) eqn:E; [|done].
    apply andb_true_iff in E as [E1 E2]. apply N.leb_le in E1, E2. lia. }
  destruct s as [|c r]; [done|]. cbn [PyStr.ascii_capitalize].
  rewrite !not_elem_of_cons. intros [Hc Hr].
  split; [intros E; apply (Hup c); congruence|].
  unfold PyStr.ascii_lower. intros Hin. apply list_elem_of_fmap in Hin as (x & Hx & Hin).
  apply (Hlow x); [|done]. intros ->. done.
Qed.

Lemma scan_is_decisive_mapping_witness :
  determine_workflow_directory PyStr.ascii_lower PyStr.ascii_capitalize
    [mkNode (Some (py "n8n-nodes-base.webhook")) (Some (py "Hook"));
     mkNode (Some (py "n8n-nodes-base.slack")) (Some (py "Post"));
     mkNode (Some (py "n8n-nodes-base.telegram")) (Some (py "Tell"))]
  = py "Slack".
Proof.
  eapply (proj2 (scan_is_decisive_mapping PyStr.ascii_lower PyStr.ascii_capitalize _));
    reflexivity.
Defined.

Lemma directory_has_no_dot_witness :
  DOT ∉ determine_workflow_directory PyStr.ascii_lower PyStr.ascii_capitalize
          [mkNode (Some (py "n8n-nodes-base.../../etc")) None].
Proof.
  apply (directory_has_no_dot PyStr.ascii_lower PyStr.ascii_capitalize).
  apply ascii_capitalize_no_dot.
Defined.

(** ** [save_workflow_file] *)

Lemma joinpath_single (p : Path) (name : pystr) :
  PyStr.contains (py "/") name = false -> name <> [] -> name <> py "." ->
  joinpath p name = child p name.
Proof.
  intros Hslash Hne Hdot.
  assert (Hstart : PyStr.startswith name [SLASH] = false).
  { destruct (PyStr.startswith name [SLASH]) eqn:E; [|done].
    apply startswith_contains in E. change [SLASH] with (py "/") in E. congruence. }
  unfold joinpath, child. rewrite Hstart. f_equal. f_equal. unfold parse_parts.
  rewrite (split_without_sep SLASH name Hslash). cbn [List.filter].
  assert (PyStr.eqb name [] = false) as -> by by apply bool_decide_eq_false.
  assert (PyStr.eqb name (py ".") = false) as -> by by apply bool_decide_eq_false.
  done.
Qed.

(** An accepted name holds none of the dangerous patterns that decoding
    leaves in place. *)
Lemma accepted_raw_clean (filename p : pystr) :
  validate_filename filename = true ->
  p ∈ dangerous_patterns -> forallb stable_char p = true ->
  PyStr.contains p filename = false.
Proof.
  intros Hv Hp Hst.
  destruct (validate_filename_true filename Hv) as (decoded & Hd & Hclean & _).
  destruct (PyStr.contains p filename) eqn:Hc; [|done].
  rewrite <- (Hclean p Hp). symmetry.
  by apply (decode_passes_keeps 3 p filename decoded).
Qed.

Lemma contains_single (c : N) (s : pystr) :
  PyStr.contains [c] s = false <-> c ∉ s.
Proof.
  rewrite contains_false_iff. split.
  - intros H Hin. apply H. apply list_elem_of_split in Hin as (a & b & ->). by exists a, b.
  - intros H (a & b & ->). apply H. set_solver.
Qed.

Lemma endswith_json_long (name : pystr) :
  PyStr.endswith name (py ".json") = true -> name <> [] /\ name <> py ".".
Proof.
  intros H. apply endswith_iff in H as [r ->].
  split; intros E; apply (f_equal length) in E; rewrite length_app in E;
    simpl in E; lia.
Qed.

(** A string that does not hold the last character of [old] holds no
    occurrence of [old]. *)
Lemma replace_from_absent (fuel : nat) (old new s : pystr) (c : N) :
  c ∈ old -> c ∉ s -> PyStr.replace_from fuel old new s = s.
Proof.
  intros Hold. revert s. induction fuel as [|fuel IH]; intros s Hs; [done|].
  cbn [PyStr.replace_from]. destruct s as [|x s]; [done|].
  destruct (PyStr.startswith (x :: s) old) eqn:E.
  - apply startswith_iff in E as [r Hr]. exfalso. apply Hs. rewrite Hr.
    apply elem_of_app. by left.
  - f_equal. apply IH. by apply not_elem_of_cons in Hs as [_ Hs].
Qed.

(** Removing a prefix from the string that it starts. *)
Lemma replace_prefix (old d : pystr) (c : N) :
  old <> [] -> c ∈ old -> c ∉ d -> PyStr.replace old [] (old ++ d) = d.
Proof.
  intros Hne Hold Hd. unfold PyStr.replace.
  destruct old as [|x old']; [done|].
  cbn [app length PyStr.replace_from].
  assert (PyStr.startswith (x :: old' ++ d) (x :: old') = true) as ->.
  { apply startswith_iff. by exists d. }
  cbn [app drop]. rewrite drop_app_length.
  by apply (replace_from_absent _ (x :: old') [] d c).
Qed.

Lemma split_head_absent (sep : N) (s : pystr) :
  sep ∉ s -> PyStr.split_head sep s = s.
Proof.
  induction s as [|c s IH]; [done|]. rewrite not_elem_of_cons. intros [Hc Hs].
  cbn [PyStr.split_head]. rewrite IH by done.
  by assert ((c =? sep)%N = false) as -> by (apply N.eqb_neq; congruence).
Qed.

Lemma is_relative_to_child (p root : Path) (name : pystr) :
  is_relative_to (child p name) root = true ->
  root = child p name \/ is_relative_to p root = true.
Proof.
  rewrite !is_relative_to_iff. cbn [child is_absolute parts].
  intros [Habs [r Hr]]. induction r as [|y r' _] using rev_ind.
  - left. destruct root as [a ps]. cbn [is_absolute parts] in *.
    rewrite app_nil_r in Hr. by subst.
  - right. split; [done|]. exists r'. rewrite app_assoc in Hr.
    by apply app_inj_tail in Hr as [Hr _].
Qed.

Section SaveFacts.

Variable lower : pystr -> pystr.
Variable capitalize : pystr -> pystr.
Variable is_word : N -> bool.
Variable is_space : N -> bool.

(** On ASCII characters [\w] is what it is for a pattern of ASCII. *)
Hypothesis is_word_ascii : forall c, (c <? 128)%N = true -> is_word c = ascii_word c.

Lemma sanitize_app (x y : pystr) :
  sanitize is_word (x ++ y) = sanitize is_word x ++ sanitize is_word y.
Proof. apply map_app. Qed.

Lemma sanitize_json : sanitize is_word (py ".json") = py ".json".
Proof.
  unfold sanitize. cbn [py map].
  rewrite !is_word_ascii by done. reflexivity.
Qed.

Lemma sanitize_idem (x : pystr) :
  sanitize is_word (sanitize is_word x) = sanitize is_word x.
Proof.
  unfold sanitize. rewrite map_map. apply map_ext. intros c.
  destruct (is_word c || (c =? DASH)%N || (c =? UNDERSCORE)%N || (c =? DOT)%N) eqn:E.
  - by rewrite E.
  - assert ((UNDERSCORE =? UNDERSCORE)%N = true) as -> by done.
    by rewrite orb_true_r.
Qed.

Lemma sanitize_without (c : N) (x : pystr) :
  (c <? 128)%N = true -> ascii_word c = false ->
  c <> DASH -> c <> UNDERSCORE -> c <> DOT ->
  c ∉ sanitize is_word x.
Proof.
  intros Hlt Hw H1 H2 H3 Hin. unfold sanitize in Hin.
  apply list_elem_of_fmap in Hin as (d & Hd & _).
  destruct (is_word d || (d =? DASH)%N || (d =? UNDERSCORE)%N || (d =? DOT)%N) eqn:E;
    [|congruence].
  subst d. rewrite is_word_ascii, Hw in E by done.
  apply N.eqb_neq in H1, H2, H3. by rewrite H1, H2, H3 in E.
Qed.

Lemma final_filename_cases (filename : pystr) :
  exists stem,
    (final_filename is_word filename = stem ++ py ".json"
     /\ validate_filename (stem ++ py ".json") = true)
    \/ final_filename is_word filename = sanitize is_word stem ++ py ".json".
Proof.
  unfold final_filename. cbv zeta.
  set (g := if negb (PyStr.endswith filename (py ".json"))
            then filename ++ py ".json" else filename).
  assert (Hg : exists stem, g = stem ++ py ".json").
  { subst g. destruct (PyStr.endswith filename (py ".json")) eqn:E; cbn [negb].
    - by apply endswith_iff in E.
    - by exists filename. }
  destruct Hg as [stem Hg]. exists stem. rewrite Hg.
  destruct (validate_filename (stem ++ py ".json")) eqn:Hv; cbn [negb]; [by left|].
  right. rewrite sanitize_app, sanitize_json.
  assert (PyStr.endswith (sanitize is_word stem ++ py ".json") (py ".json") = true)
    as ->; [|done].
  apply endswith_iff. by eexists.
Qed.

(** The name a file is written under ends with [".json"] and holds no
    ["/"], no ["\"] and no NUL. *)
Lemma final_filename_clean (chosen : pystr) :
  let name := final_filename is_word chosen in
  PyStr.endswith name (py ".json") = true
  /\ PyStr.contains (py "/") name = false
  /\ PyStr.contains (py "\") name = false
  /\ PyStr.contains [NUL] name = false.
Proof.
  intros name.
  destruct (final_filename_cases chosen) as [stem [[Hn Hv] | Hn]];
    fold name in Hn; rewrite Hn.
  - split; [apply endswith_iff; by eexists|].
    repeat split; apply accepted_raw_clean; try done;
      unfold dangerous_patterns; set_solver.
  - split; [apply endswith_iff; by eexists|].
    assert (Hno : forall c, (c <? 128)%N = true -> ascii_word c = false ->
              c <> DASH -> c <> UNDERSCORE -> c <> DOT -> c ∉ py ".json" ->
              PyStr.contains [c] (sanitize is_word stem ++ py ".json") = false).
    { intros c ? ? ? ? ? Hj. apply contains_single. rewrite not_elem_of_app.
      split; [by apply sanitize_without | done]. }
    repeat split.
    + apply (Hno 47%N); try done.
      apply (bool_decide_unpack (47%N ∉ py ".json")). by vm_compute.
    + apply (Hno 92%N); try done.
      apply (bool_decide_unpack (92%N ∉ py ".json")). by vm_compute.
    + apply (Hno 0%N); try done.
      apply (bool_decide_unpack (0%N ∉ py ".json")). by vm_compute.
Qed.

(** X14: the file is written under a name that ends with [".json"] and
    holds no ["/"], no ["\"] and no NUL, so that the path written is the
    entry of that name in the directory chosen for the workflow. *)
Theorem saved_name_is_one_entry (timestamp : pystr) (workflow_data : WorkflowData)
    (filename : option pystr) :
  let saved := save_workflow_file lower capitalize is_word is_space timestamp
                 workflow_data filename in
  let subdir_path :=
    joinpath (of_str (py "workflows"))
      (determine_workflow_directory lower capitalize (wf_nodes workflow_data)) in
  PyStr.endswith saved.2 (py ".json") = true
  /\ PyStr.contains (py "/") saved.2 = false
  /\ PyStr.contains (py "\") saved.2 = false
  /\ PyStr.contains [NUL] saved.2 = false
  /\ saved.1 = child subdir_path saved.2.
Proof.
  intros saved subdir_path. unfold save_workflow_file in saved. cbv zeta in saved.
  set (chosen := match filename with
                 | Some provided =>
                     if PyStr.eqb provided []
                     then generated_filename is_word is_space timestamp workflow_data
                     else provided
                 | None => generated_filename is_word is_space timestamp workflow_data
                 end) in *.
  subst saved. cbn [fst snd]. fold subdir_path.
  destruct (final_filename_clean chosen) as (He & Hs & Hb & Hz).
  repeat (split; [done|]).
  destruct (endswith_json_long _ He). by apply joinpath_single.
Qed.

(** X15: naming is idempotent: a name under which a file was written is
    kept as it is when it is provided again. *)
Theorem final_filename_idempotent (filename : pystr) :
  final_filename is_word (final_filename is_word filename)
  = final_filename is_word filename.
Proof.
  assert (Hfix : forall name,
            PyStr.endswith name (py ".json") = true ->
            (validate_filename name = true \/ sanitize is_word name = name) ->
            final_filename is_word name = name).
  { intros name He Hor. unfold final_filename. cbv zeta. rewrite He. cbn [negb].
    destruct (validate_filename name); cbn [negb]; [done|].
    destruct Hor as [?|Hs]; [done|]. by rewrite Hs, He. }
  destruct (final_filename_cases filename) as [stem [[Hn Hv] | Hn]]; rewrite Hn.
  - apply Hfix; [apply endswith_iff; by eexists | by left].
  - apply Hfix; [apply endswith_iff; by eexists | right].
    by rewrite sanitize_app, sanitize_idem, sanitize_json.
Qed.

(** X16: the type of the first node can send an upload to any absolute
    directory whose name holds no ["."] and is left as it is by
    [str.capitalize]: when no node matches a keyword and the first node's
    type is ["n8n-nodes-base."] followed by such a directory, that directory
    is the one chosen, [workflows / directory] is the directory itself,
    and the path written is its entry of the name the file is given.  The
    file is then under a root only if the directory is. *)
Theorem upload_directory_can_leave_root (timestamp : pystr)
    (workflow_data : WorkflowData) (filename : option pystr)
    (first_node : Node) (rest : list Node) (directory : pystr) :
  wf_nodes workflow_data = first_node :: rest ->
  falsy (scan_nodes lower None (first_node :: rest))
  || is_label (scan_nodes lower None (first_node :: rest)) (py "Manual") = true ->
  node_type_field first_node = Some (VENDOR_PREFIX ++ directory) ->
  PyStr.startswith directory [SLASH] = true ->
  DOT ∉ directory ->
  capitalize directory = directory ->
  let saved := save_workflow_file lower capitalize is_word is_space timestamp
                 workflow_data filename in
  determine_workflow_directory lower capitalize (wf_nodes workflow_data) = directory
  /\ joinpath (of_str (py "workflows")) directory = of_str directory
  /\ saved.1 = child (of_str directory) saved.2
  /\ is_absolute saved.1 = true
  /\ forall root : Path,
       is_relative_to saved.1 root = true ->
       root = saved.1 \/ is_relative_to (of_str directory) root = true.
Proof.
  intros Hnodes Hscan Htype Hstart Hdot Hcap saved.
  assert (Hdir : determine_workflow_directory lower capitalize
                   (wf_nodes workflow_data) = directory).
  { rewrite Hnodes.
    unfold determine_workflow_directory. rewrite Hscan.
    unfold label_of_first_type. rewrite Htype. change (default [] (Some (VENDOR_PREFIX ++ directory)))
      with (VENDOR_PREFIX ++ directory).
    assert (PyStr.contains VENDOR_PREFIX (VENDOR_PREFIX ++ directory) = true) as ->.
    { apply contains_iff. by exists [], directory. }
    rewrite (replace_prefix VENDOR_PREFIX directory DOT); [|done| |done].
    - by rewrite split_head_absent.
    - apply (bool_decide_unpack (DOT ∈ VENDOR_PREFIX)). by vm_compute. }
  assert (Hjoin : joinpath (of_str (py "workflows")) directory = of_str directory).
  { unfold joinpath. by rewrite Hstart. }
  assert (Hsaved : saved.1 = child (of_str directory) saved.2).
  { subst saved. unfold save_workflow_file. cbv zeta. cbn [fst snd].
    rewrite Hdir, Hjoin.
    match goal with |- joinpath _ (final_filename _ ?c) = _ =>
      destruct (final_filename_clean c) as (He & Hs & _ & _) end.
    destruct (endswith_json_long _ He). by apply joinpath_single. }
  split; [done|]. split; [done|]. split; [done|]. split.
  - rewrite Hsaved. unfold child, of_str. cbn [is_absolute]. exact Hstart.
  - intros root. rewrite Hsaved. apply is_relative_to_child.
Qed.

End SaveFacts.

Lemma upload_directory_can_leave_root_witness :
  (save_workflow_file PyStr.ascii_lower PyStr.ascii_capitalize ascii_word ascii_space
     (py "20240101_120000") escaping_workflow None).1
  = mkPath true [py "tmp"; py "7_Report.json"].
Proof.
  destruct (upload_directory_can_leave_root PyStr.ascii_lower PyStr.ascii_capitalize
              ascii_word ascii_space (fun c _ => eq_refl)
              (py "20240101_120000") escaping_workflow None
              (mkNode (Some (py "n8n-nodes-base./tmp")) (Some (py "Start"))) []
              (py "/tmp") eq_refl eq_refl eq_refl eq_refl)
    as (_ & _ & -> & _).
  - apply (bool_decide_unpack (DOT ∉ py "/tmp")). by vm_compute.
  - reflexivity.
  - reflexivity.
Defined.

Lemma saved_name_is_one_entry_witness :
  (save_workflow_file PyStr.ascii_lower PyStr.ascii_capitalize ascii_word ascii_space
     (py "20240101_120000") (mkWorkflow [] None NoId)
     (Some (py "x/../../evil.json"))).1
  = mkPath false [py "workflows"; py "Manual"; py "x_.._.._evil.json"].
Proof.
  destruct (saved_name_is_one_entry PyStr.ascii_lower PyStr.ascii_capitalize
              ascii_word ascii_space (fun c _ => eq_refl)
              (py "20240101_120000") (mkWorkflow [] None NoId)
              (Some (py "x/../../evil.json"))) as (_ & _ & _ & _ & ->).
  reflexivity.
Defined.

Lemma final_filename_idempotent_witness :
  final_filename ascii_word (final_filename ascii_word (py "a b/c"))
  = py "a_b_c.json".
Proof.
  rewrite (final_filename_idempotent ascii_word (fun c _ => eq_refl)).
  reflexivity.
Defined.

(** ** [submit_purchase_request] *)

(** X17: [submit_purchase_request] never answers 400: the 400 raised for a
    blank email or description is caught by the handler's own
    [except Exception] and leaves as a 500, like every other failure; an
    answer is given only for a non-blank email and description. *)
Theorem purchase_request_never_400 (str_strip : pystr -> pystr) (body : option json) :
  (forall code, submit_purchase_request str_strip body = HTTPException code ->
                code = 500%Z)
  /\ (forall data,
         body = Some (JDict data) ->
         stripped_entry str_strip data (py "email") = Some []
         \/ (is_Some (stripped_entry str_strip data (py "email"))
             /\ stripped_entry str_strip data (py "description") = Some []) ->
         submit_purchase_request str_strip body = HTTPException 500)
  /\ (forall email workflow,
         submit_purchase_request str_strip body = Return (email, workflow) ->
         exists data description,
           body = Some (JDict data)
           /\ stripped_entry str_strip data (py "email") = Some email
           /\ stripped_entry str_strip data (py "description") = Some description
           /\ email <> [] /\ description <> []).
Proof.
  unfold submit_purchase_request. split; [|split].
  - intros code. by destruct (purchase_request_body str_strip body); intros [= <-].
  - intros data -> H. unfold purchase_request_body.
    destruct H as [He | [[email He] Hd]]; rewrite He.
    + by destruct (stripped_entry str_strip data (py "description")).
    + rewrite Hd. assert (PyStr.eqb [] [] = true) as -> by done.
      by rewrite orb_true_r.
  - intros email workflow H. unfold purchase_request_body in H.
    destruct body as [[| | | | |data]|]; try done.
    destruct (stripped_entry str_strip data (py "email")) as [e|] eqn:He; [|done].
    destruct (stripped_entry str_strip data (py "description")) as [d|] eqn:Hd;
      [|done].
    destruct (PyStr.eqb e [] || PyStr.eqb d []) eqn:Hb; [done|].
    cbn [except_exception_500] in H. injection H as <- _.
    apply orb_false_iff in Hb as [Hb1 Hb2].
    apply bool_decide_eq_false in Hb1, Hb2. by exists data, d.
Qed.

(** ** [reindex_workflows] *)

(** X18: reindexing is started exactly when the rate limiter lets the
    call through, an admin token is configured and not empty, and the token sent is
    that token; without a configured token no token is accepted. *)
Theorem reindex_needs_configured_token (now : Q) (st : gmap pystr (list Q))
    (client expected_token admin_token : option pystr) (requested_by : pystr) :
  (reindex_workflows now st client expected_token admin_token).1
  = Return requested_by
  <-> (check_rate_limit now st (client_ip_of client)).1 = true
      /\ requested_by = client_ip_of client
      /\ exists token, token <> [] /\ expected_token = Some token
                       /\ admin_token = Some token.
Proof.
  unfold reindex_workflows. cbv zeta.
  destruct (check_rate_limit now st (client_ip_of client)) as [allowed st1].
  cbn [fst]. destruct allowed; cbn [negb fst]; [|split; [done | by intros [? _]]].
  destruct expected_token as [token|]; cbn [falsy].
  - destruct (PyStr.eqb token []) eqn:Ht.
    + apply eqb_iff in Ht as ->. split; [done|].
      by intros (_ & _ & t & Hne & [= <-] & _).
    + destruct (bool_decide (admin_token = Some token)) eqn:Ha; cbn [negb fst].
      * apply bool_decide_eq_true in Ha as ->. split.
        -- intros [= <-]. split; [done|]. split; [done|]. exists token.
           split; [|done]. intros ->. by apply bool_decide_eq_false in Ht.
        -- by intros (_ & -> & _).
      * apply bool_decide_eq_false in Ha. split; [done|].
        intros (_ & _ & t & _ & [= <-] & ->). done.
  - split; [done|]. by intros (_ & _ & t & _ & ? & _).
Qed.

(** ** Pagination of [search_workflows] *)

(** X19: for a page size of at least one, [pages] is the least number of
    pages that hold [total] items, and a page number from one on is at most
    [pages] exactly when its offset lies before [total]. *)
Theorem page_count_is_ceiling (total per_page : Z) :
  (1 <= per_page)%Z -> (0 <= total)%Z ->
  (per_page * (page_count total per_page - 1) < total)%Z
  /\ (total <= per_page * page_count total per_page)%Z
  /\ forall page, (1 <= page)%Z ->
       ((page <= page_count total per_page)%Z
        <-> (page_offset page per_page < total)%Z).
Proof.
  intros Hpp Htotal. unfold page_count, page_offset.
  pose proof (Z.div_mod (total + per_page - 1) per_page ltac:(lia)) as Hdm.
  pose proof (Z.mod_pos_bound (total + per_page - 1) per_page ltac:(lia)) as Hmod.
  set (q := ((total + per_page - 1) `div` per_page)%Z) in *.
  set (r := ((total + per_page - 1) `mod` per_page)%Z) in *.
  split; [nia|]. split; [nia|]. intros page Hpage. split; intros H; nia.
Qed.

Lemma page_count_is_ceiling_witness :
  page_count 41 20 = 3%Z /\ (page_offset 3 20 < 41)%Z.
Proof.
  destruct (page_count_is_ceiling 41 20 ltac:(lia) ltac:(lia)) as (_ & _ & H).
  split; [reflexivity|]. apply H; [lia|]. by vm_compute.
Defined.

(** ** Category mappings *)

Lemma category_mappings_from_cons (m : gmap pystr pystr) (item : CategoryItem)
    (rest : list CategoryItem) :
  category_mappings_from m (item :: rest)
  = category_mappings_from
      (if falsy (item_filename item) then m
       else <[default [] (item_filename item) :=
                if falsy (item_category item) then py "Uncategorized"
                else default [] (item_category item)]> m)
      rest.
Proof. cbn [category_mappings_from]. by destruct (falsy (item_filename item)). Qed.

Lemma falsy_false (o : option pystr) :
  falsy o = false -> exists s, o = Some s /\ s <> [].
Proof.
  destruct o as [s|]; [|done]. cbn [falsy]. intros H. exists s. split; [done|].
  intros ->. by apply bool_decide_eq_false in H.
Qed.

Lemma category_mappings_from_sound (search_data : list CategoryItem)
    (m : gmap pystr pystr) (filename category : pystr) :
  category_mappings_from m search_data !! filename = Some category ->
  m !! filename = Some category
  \/ (filename <> [] /\ category <> []
      /\ exists item, In item search_data
                      /\ item_filename item = Some filename
                      /\ (item_category item = Some category
                          \/ (falsy (item_category item) = true
                              /\ category = py "Uncategorized"))).
Proof.
  revert m. induction search_data as [|item rest IH]; intros m H; [by left|].
  rewrite category_mappings_from_cons in H. apply IH in H as [H | H].
  - destruct (falsy (item_filename item)) eqn:Hf; [by left|].
    apply falsy_false in Hf as (f & Hf & Hne). rewrite Hf in H. cbn [default] in H.
    destruct (decide (f = filename)) as [->|Hneq];
      [|rewrite lookup_insert_ne in H by done; by left].
    rewrite lookup_insert_eq in H. injection H as <-. right. split; [done|].
    destruct (falsy (item_category item)) eqn:Hc.
    + split; [done|]. exists item. split; [by left|]. split; [done|]. by right.
    + apply falsy_false in Hc as (c & Hc & Hcne). rewrite Hc. cbn [default].
      split; [done|]. exists item. split; [by left|]. split; [done|]. by left.
  - right. destruct H as (Hf & Hc & item' & Hin & Hrest). split; [done|].
    split; [done|]. exists item'. split; [by right | done].
Qed.

(** X20: [get_category_mappings] maps only non-empty file names, never to
    an empty category: each entry comes from an item of that file name, with
    the item's category or, when it has none, ["Uncategorized"]. *)
Theorem category_mappings_are_filled (search_data : list CategoryItem)
    (filename category : pystr) :
  get_category_mappings search_data !! filename = Some category ->
  filename <> [] /\ category <> []
  /\ exists item, In item search_data
                  /\ item_filename item = Some filename
                  /\ (item_category item = Some category
                      \/ (falsy (item_category item) = true
                          /\ category = py "Uncategorized")).
Proof.
  intros H. apply category_mappings_from_sound in H as [H | H]; [|done].
  by rewrite lookup_empty in H.
Qed.

Lemma category_mappings_are_filled_witness :
  get_category_mappings
    [mkItem (Some (py "a.json")) None; mkItem None (Some (py "Sales"))]
  !! py "a.json" = Some (py "Uncategorized")
  /\ py "a.json" <> [].
Proof.
  split; [reflexivity|].
  by destruct (category_mappings_are_filled
                 [mkItem (Some (py "a.json")) None; mkItem None (Some (py "Sales"))]
                 (py "a.json") (py "Uncategorized") eq_refl) as [? _].
Defined.

(** The entry of a file name depends on the entry the loop starts with and
    on nothing else of the starting map. *)
Lemma category_mappings_from_local (search_data : list CategoryItem)
    (m1 m2 : gmap pystr pystr) (filename : pystr) :
  m1 !! filename = m2 !! filename ->
  category_mappings_from m1 search_data !! filename
  = category_mappings_from m2 search_data !! filename.
Proof.
  revert m1 m2. induction search_data as [|item rest IH]; intros m1 m2 H; [done|].
  rewrite !category_mappings_from_cons. apply IH.
  destruct (falsy (item_filename item)); [done|].
  destruct (decide (default [] (item_filename item) = filename)) as [->|Hne].
  - by rewrite !lookup_insert_eq.
  - by rewrite !lookup_insert_ne.
Qed.

Lemma category_mappings_from_removed (filename : pystr)
    (categories : list CategoryItem) (m : gmap pystr pystr) :
  category_mappings_from m (remove_category_entries filename categories) !! filename
  = (if bool_decide (filename = []) then
       category_mappings_from m categories !! filename
     else m !! filename)
  /\ forall other, other <> filename ->
       category_mappings_from m (remove_category_entries filename categories) !! other
       = category_mappings_from m categories !! other.
Proof.
  revert m. induction categories as [|item rest IH]; intros m.
  - cbn. split; [by destruct (bool_decide _) | done].
  - unfold remove_category_entries. cbn [List.filter].
    fold (remove_category_entries filename rest).
    destruct (bool_decide (item_filename item = Some filename)) eqn:Hitem; cbn [negb].
    + apply bool_decide_eq_true in Hitem.
      rewrite category_mappings_from_cons, Hitem. cbn [falsy default].
      destruct (IH m) as [IH1 IH2]. split.
      * rewrite IH1. unfold PyStr.eqb.
        destruct (decide (filename = [])) as [Hnil|Hnil].
        -- by rewrite !bool_decide_eq_true_2.
        -- by rewrite !bool_decide_eq_false_2.
      * intros other Hne. rewrite IH2 by done.
        apply category_mappings_from_local.
        destruct (PyStr.eqb filename []); [done|]. by rewrite lookup_insert_ne.
    + apply bool_decide_eq_false in Hitem.
      rewrite !category_mappings_from_cons.
      set (m' := if falsy (item_filename item) then m else _).
      destruct (IH m') as [IH1 IH2]. split; [|done].
      rewrite IH1. destruct (bool_decide (filename = [])) eqn:Hnil; [done|].
      subst m'. destruct (falsy (item_filename item)) eqn:Hf; [done|].
      apply falsy_false in Hf as (f & Hf & _). rewrite Hf.
      change (default [] (Some f)) with f.
      rewrite lookup_insert_ne; [done|]. intros ->. by apply Hitem.
Qed.

(** X21: once [delete_workflow] has removed the entries of a file name
    from the category list, [get_category_mappings] has no entry for that
    name, and the entries of all other names are what they were. *)
Theorem deleted_name_has_no_mapping (filename : pystr)
    (categories : list CategoryItem) :
  get_category_mappings (remove_category_entries filename categories) !! filename
  = None
  /\ forall other, other <> filename ->
       get_category_mappings (remove_category_entries filename categories) !! other
       = get_category_mappings categories !! other.
Proof.
  unfold get_category_mappings.
  destruct (category_mappings_from_removed filename categories ∅) as [H1 H2].
  split; [|done]. rewrite H1.
  destruct (bool_decide (filename = [])) eqn:Hnil; [|apply lookup_empty].
  apply bool_decide_eq_true in Hnil as ->.
  destruct (category_mappings_from ∅ categories !! []) as [c|] eqn:Hc; [|done].
  by apply category_mappings_from_sound in Hc as [Hc | [Hc _]];
    [rewrite lookup_empty in Hc|].
Qed.

Lemma purchase_request_never_400_witness :
  submit_purchase_request (strip ascii_space)
    (Some (JDict [(py "email", JStr []); (py "description", JStr (py "please"))]))
  = HTTPException 500.
Proof.
  apply (proj1 (proj2 (purchase_request_never_400 (strip ascii_space) _)) _ eq_refl).
  left. reflexivity.
Defined.

(** ** The characters of an accepted name *)

Lemma contains_single_true (c : N) (s : pystr) :
  PyStr.contains [c] s = true <-> c ∈ s.
Proof.
  rewrite contains_iff. split.
  - intros (a & b & ->). set_solver.
  - intros Hin. apply list_elem_of_split in Hin as (a & b & ->). by exists a, b.
Qed.

(** Decoding keeps every character outside ASCII. *)
Lemma unquote_parts_keeps_high (run s d : pystr) (c : N) :
  (c <? 128)%N = false -> c ∈ s ->
  unquote_parts run s = Some d -> c ∈ d.
Proof.
  intros Hc. revert run d. induction s as [|e s IH]; intros run d Hin;
    [by apply elem_of_nil in Hin|].
  cbn [unquote_parts]. destruct (e <? 128)%N eqn:He.
  - apply elem_of_cons in Hin as [-> | Hin]; [congruence|]. by apply IH.
  - destruct (decode_run run) as [r|]; [|done].
    destruct (unquote_parts [] s) as [t|] eqn:Ht; [|done]. intros [= <-].
    rewrite elem_of_app, elem_of_cons.
    apply elem_of_cons in Hin as [-> | Hin]; [by right; left|].
    right. right. by apply (IH [] t).
Qed.

Lemma decode_passes_keeps_high (n : nat) (s d : pystr) (c : N) :
  (c <? 128)%N = false -> c ∈ s -> decode_passes n s = Some d -> c ∈ d.
Proof.
  intros Hc. revert s. induction n as [|n IH]; intros s Hin; cbn [decode_passes].
  - by intros [= <-].
  - destruct (unquote s) as [t|] eqn:Ht; [|done]. apply IH.
    rewrite unquote_unfold in Ht. by apply (unquote_parts_keeps_high [] s t c).
Qed.

Lemma hexdig_is_safe (c : N) : is_hexdig c = true -> safe_char c = true.
Proof.
  unfold is_hexdig, safe_char.
  rewrite !orb_true_iff, !andb_true_iff, !N.leb_le, !N.eqb_eq. lia.
Qed.

Lemma safe_json_name_chars (d : pystr) (c : N) :
  safe_json_name d -> c ∈ d -> safe_char c = true \/ c = DOT.
Proof.
  intros (body & _ & Hsafe & ->) Hin. apply elem_of_app in Hin as [Hin | Hin].
  - left. rewrite forallb_forall in Hsafe. by apply Hsafe, list_elem_of_In.
  - cbn [py] in Hin. repeat (apply elem_of_cons in Hin as [-> | Hin]; [by auto|]).
    by apply elem_of_nil in Hin.
Qed.

(** X22: a raw name that [validate_filename] accepts is made of letters,
    digits, ["_"], ["-"], ["."] and ["%"] only; in particular it is ASCII. *)
Theorem accepted_name_alphabet (filename : pystr) (c : N) :
  validate_filename filename = true -> c ∈ filename ->
  safe_char c = true \/ c = DOT \/ c = PERCENT.
Proof.
  intros Hv Hin. apply validate_filename_iff in Hv as (decoded & Hd & Hname).
  assert (Hdec : c ∈ decoded -> safe_char c = true \/ c = DOT \/ c = PERCENT).
  { intros H. destruct (safe_json_name_chars decoded c Hname H); auto. }
  destruct (c <? 128)%N eqn:Hlt;
    [|by apply Hdec, (decode_passes_keeps_high 3 filename)].
  destruct (c =? PERCENT)%N eqn:Hp; [apply N.eqb_eq in Hp; auto|].
  destruct (is_hexdig c) eqn:Hh; [left; by apply hexdig_is_safe|].
  apply Hdec, contains_single_true.
  apply (decode_passes_keeps 3 [c] filename decoded); [|by apply contains_single_true|done].
  cbn [forallb]. unfold stable_char. by rewrite Hlt, Hp, Hh.
Qed.

Lemma accepted_name_alphabet_witness :
  validate_filename (py "%61.json") = true
  /\ (safe_char 37 = true \/ 37%N = DOT \/ 37%N = PERCENT).
Proof.
  split; [reflexivity|].
  apply (accepted_name_alphabet (py "%61.json") 37%N eq_refl). by left.
Defined.
